(** * Address book: contact records, birthday arithmetic and input validation

    A shallow embedding of [instances.py], [helpers.py] and the mutating
    handlers of [handlers.py], with the properties of the next-birthday
    search, the upcoming-birthdays query, the one-shot birthday, the phone
    and date validators and the name-keyed record store.

    Conventions.
    - Python [int] is [Z]; a [str] is a [string] whose characters are code
      points below 256, on which [\d] is exactly [0-9].  The validators
      that read digits are given on all code points as well ([PyUnicode]):
      there [\d] and [int] take the decimal digits of every script, and
      below 256 the two models agree.
    - [datetime.date] is the record [date] with the range checks of its
      constructor written out ([valid_date]); ordinals follow CPython's
      proleptic Gregorian day count.
    - [date.today()] is the parameter [today] of the function that reads it;
      [upcoming_birthdays] reads it once itself and once in every
      [days_to_birthday] it calls, all on the same day.
    - A call returns or raises ([result]); a call that goes through the
      [while True] of [days_to_birthday] may also be still in the loop after
      the number of passes it is given ([run], with [fuel]).  A year that
      no longer fits a C [int] makes [replace] raise [OverflowError]. *)

From Stdlib Require Import ZArith List String Ascii Bool Lia Permutation Sorted.
Import ListNotations.
Local Open Scope Z_scope.

(** ** Outcomes of a call *)

Inductive exn : Type :=
| ValueError (msg : string)
| OverflowError (msg : string)
| AttributeError (msg : string).

(** A call that runs no loop returns or raises. *)
Inductive result (A : Type) : Type :=
| Ok (a : A)
| Err (e : exn).

Arguments Ok {A} a.
Arguments Err {A} e.

(** A call that runs the search loop of [days_to_birthday] may also still
    be in it when the passes the model allows are used up. *)
Inductive run (A : Type) : Type :=
| Done (a : A)
| Raised (e : exn)
| OutOfFuel.

Arguments Done {A} a.
Arguments Raised {A} e.
Arguments OutOfFuel {A}.

Definition lift {A : Type} (r : result A) : run A :=
  match r with
  | Ok a => Done a
  | Err e => Raised e
  end.

Definition bind {A B : Type} (m : run A) (k : A -> run B) : run B :=
  match m with
  | Done a => k a
  | Raised e => Raised e
  | OutOfFuel => OutOfFuel
  end.

Notation "x <- m ;; k" := (bind m (fun x => k))
  (at level 61, m at next level, right associativity).

(** ** [datetime.date] *)

Module PyDate.

Record date : Type := mkdate { year : Z; month : Z; day : Z }.

Definition MINYEAR : Z := 1.
Definition MAXYEAR : Z := 9999.
Definition MAXORDINAL : Z := 3652059.

Definition is_leap (y : Z) : bool :=
  (y mod 4 =? 0) && (negb (y mod 100 =? 0) || (y mod 400 =? 0)).

(** [_DAYS_IN_MONTH], indexed from 1. *)
Definition DAYS_IN_MONTH (m : Z) : Z :=
  match m with
  | 1 => 31 | 2 => 28 | 3 => 31 | 4 => 30 | 5 => 31 | 6 => 30
  | 7 => 31 | 8 => 31 | 9 => 30 | 10 => 31 | 11 => 30 | 12 => 31
  | _ => -1
  end.

(** [_DAYS_BEFORE_MONTH], indexed from 1. *)
Definition DAYS_BEFORE_MONTH (m : Z) : Z :=
  match m with
  | 1 => 0 | 2 => 31 | 3 => 59 | 4 => 90 | 5 => 120 | 6 => 151
  | 7 => 181 | 8 => 212 | 9 => 243 | 10 => 273 | 11 => 304 | 12 => 334
  | _ => -1
  end.

Definition days_in_month (y m : Z) : Z :=
  if (m =? 2) && is_leap y then 29 else DAYS_IN_MONTH m.

Definition days_before_year (y : Z) : Z :=
  let y1 := y - 1 in
  y1 * 365 + y1 / 4 - y1 / 100 + y1 / 400.

Definition days_before_month (y m : Z) : Z :=
  DAYS_BEFORE_MONTH m + (if (m >? 2) && is_leap y then 1 else 0).

(** The checks of [date(year, month, day)]. *)
Definition check_date_fields (y m d : Z) : bool :=
  (MINYEAR <=? y) && (y <=? MAXYEAR) &&
  (1 <=? m) && (m <=? 12) &&
  (1 <=? d) && (d <=? days_in_month y m).

Definition valid_date (x : date) : bool :=
  check_date_fields (year x) (month x) (day x).

(** [date(y, m, d)]: the value or a [ValueError]. *)
Definition new_date (y m d : Z) : result date :=
  if check_date_fields y m d then Ok (mkdate y m d)
  else Err (ValueError "date value out of range").

(** The largest C [int] and C [long]. *)
Definition INT_MAX : Z := 2147483647.
Definition LONG_MAX : Z := 9223372036854775807.

(** [d.replace(year=y)].  The year is taken as a C [int]: from 2**31 on the
    conversion raises [OverflowError] before the range check of the
    constructor is reached.  (A year below -2**31 fails the conversion
    too; a search that starts at the year of a date and counts up meets
    none, and such a year gets the answer of the range check here.) *)
Definition replace_year (d : date) (y : Z) : result date :=
  if LONG_MAX <? y
  then Err (OverflowError "Python int too large to convert to C long")
  else if INT_MAX <? y
  then Err (OverflowError "signed integer is greater than maximum")
  else new_date y (month d) (day d).

Definition toordinal (x : date) : Z :=
  days_before_year (year x) + days_before_month (year x) (month x) + day x.

(** Dates compare as the tuples (year, month, day). *)
Definition date_cmp (a b : date) : comparison :=
  match year a ?= year b with
  | Eq => match month a ?= month b with
          | Eq => day a ?= day b
          | c => c
          end
  | c => c
  end.

Definition date_ltb (a b : date) : bool :=
  match date_cmp a b with Lt => true | _ => false end.

Definition date_geb (a b : date) : bool :=
  match date_cmp a b with Lt => false | _ => true end.

Definition date_eqb (a b : date) : bool :=
  match date_cmp a b with Eq => true | _ => false end.

(** [(a - b).days]. *)
Definition sub_days (a b : date) : Z := toordinal a - toordinal b.

(** [_ord2ymd]. *)
Definition ord2ymd (n0 : Z) : date :=
  let n := n0 - 1 in
  let n400 := n / 146097 in
  let n := n mod 146097 in
  let y := n400 * 400 + 1 in
  let n100 := n / 36524 in
  let n := n mod 36524 in
  let n4 := n / 1461 in
  let n := n mod 1461 in
  let n1 := n / 365 in
  let n := n mod 365 in
  let y := y + n100 * 100 + n4 * 4 + n1 in
  if (n1 =? 4) || (n100 =? 4) then mkdate (y - 1) 12 31
  else
    let leapyear := (n1 =? 3) && (negb (n4 =? 24) || (n100 =? 3)) in
    let m := Z.shiftr (n + 50) 5 in
    let preceding :=
      DAYS_BEFORE_MONTH m + (if (m >? 2) && leapyear then 1 else 0) in
    if preceding >? n then
      let m' := m - 1 in
      let preceding' :=
        preceding - (DAYS_IN_MONTH m' + (if (m' =? 2) && leapyear then 1 else 0)) in
      mkdate y m' (n - preceding' + 1)
    else mkdate y m (n - preceding + 1).

(** [d + timedelta(days=n)]. *)
Definition add_days (d : date) (n : Z) : result date :=
  let o := toordinal d + n in
  if (0 <? o) && (o <=? MAXORDINAL) then Ok (ord2ymd o)
  else Err (OverflowError "date value out of range").

End PyDate.
Export PyDate.

(** ** Regular expressions of [re] and [_strptime], as backtracking matchers *)

Module PyRe.

Local Open Scope string_scope.

(** A matcher lists, in the order the backtracking engine tries them, the
    ways a pattern matches a prefix of the input: matched text and rest. *)
Definition matcher : Type := string -> list (string * string).

Definition code (c : ascii) : N := N_of_ascii c.

Definition in_range (lo hi c : ascii) : bool :=
  ((code lo <=? code c) && (code c <=? code hi))%N.

(** [\d] on code points below 256. *)
Definition is_digit (c : ascii) : bool := in_range "0" "9" c.

Definition m_class (p : ascii -> bool) : matcher :=
  fun s =>
    match s with
    | String c r => if p c then [(String c EmptyString, r)] else []
    | EmptyString => []
    end.

Definition m_lit (c : ascii) : matcher := m_class (Ascii.eqb c).

Definition m_seq (a b : matcher) : matcher :=
  fun s =>
    flat_map (fun tr1 =>
      map (fun tr2 => (fst tr1 ++ fst tr2, snd tr2)) (b (snd tr1))) (a s).

Definition m_alt (a b : matcher) : matcher := fun s => (a s ++ b s)%list.

(** [p{lo,hi}], greedy: [hi] is the number of repetitions still allowed. *)
Fixpoint m_rep (p : ascii -> bool) (lo hi : nat) : matcher :=
  fun s =>
    match hi with
    | O => match lo with O => [(EmptyString, s)] | S _ => [] end
    | S hi' =>
        (match s with
         | String c r =>
             if p c
             then map (fun tr => (String c (fst tr), snd tr)) (m_rep p (pred lo) hi' r)
             else []
         | EmptyString => []
         end
         ++ match lo with O => [(EmptyString, s)] | S _ => [] end)%list
    end.

(** [$] without MULTILINE: the end of the string, or just before a newline
    that is the last character. *)
Definition at_dollar (rest : string) : bool :=
  match rest with
  | EmptyString => true
  | String c EmptyString => Ascii.eqb c "010"
  | _ => false
  end.

(** [bool(re.compile('^(?:' m ')$').match(s))]. *)
Definition match_to_dollar (m : matcher) (s : string) : bool :=
  existsb (fun tr => at_dollar (snd tr)) (m s).

(** [int(s)] for an optional run of blanks followed by decimal digits. *)
Fixpoint int_digits (acc : Z) (s : string) : Z :=
  match s with
  | EmptyString => acc
  | String c r => int_digits (10 * acc + (Z.of_N (code c) - 48)) r
  end.

Fixpoint py_int (s : string) : Z :=
  match s with
  | String " " r => py_int r
  | _ => int_digits 0 s
  end.

End PyRe.
Export PyRe.

(** ** [datetime.strptime(s, "%d.%m.%Y").date()] *)

Module PyStrptime.

Local Open Scope string_scope.

(** [%d]: [3[0-1]|[1-2]\d|0[1-9]|[1-9]| [1-9]]. *)
Definition re_d : matcher :=
  m_alt (m_seq (m_lit "3") (m_class (in_range "0" "1")))
 (m_alt (m_seq (m_class (in_range "1" "2")) (m_class is_digit))
 (m_alt (m_seq (m_lit "0") (m_class (in_range "1" "9")))
 (m_alt (m_class (in_range "1" "9"))
        (m_seq (m_lit " ") (m_class (in_range "1" "9")))))).

(** [%m]: [1[0-2]|0[1-9]|[1-9]]. *)
Definition re_m : matcher :=
  m_alt (m_seq (m_lit "1") (m_class (in_range "0" "2")))
 (m_alt (m_seq (m_lit "0") (m_class (in_range "1" "9")))
        (m_class (in_range "1" "9"))).

(** [%Y]: [\d\d\d\d]. *)
Definition re_Y : matcher :=
  m_seq (m_class is_digit) (m_seq (m_class is_digit)
        (m_seq (m_class is_digit) (m_class is_digit))).

(** The compiled format: the groups d, m, Y and the unmatched rest, for
    every way the regular expression matches, in backtracking order. *)
Definition format_regex (s : string) : list (string * string * string * string) :=
  flat_map (fun d =>
    flat_map (fun dot1 =>
      flat_map (fun m =>
        flat_map (fun dot2 =>
          map (fun Y => (fst d, fst m, fst Y, snd Y)) (re_Y (snd dot2)))
          (m_lit "." (snd m)))
        (re_m (snd dot1)))
      (m_lit "." (snd d)))
    (re_d s).

Definition strptime_dmY (data_string : string) : result date :=
  match format_regex data_string with
  | [] => Err (ValueError "time data does not match format")
  | (d, m, Y, rest) :: _ =>
      match rest with
      | EmptyString => new_date (py_int Y) (py_int m) (py_int d)
      | String _ _ => Err (ValueError "unconverted data remains")
      end
  end.

End PyStrptime.
Export PyStrptime.

(** ** [instances.py] *)

Module instances.

Local Open Scope string_scope.
Local Open Scope list_scope.
Local Open Scope Z_scope.

(** [Field._value] is [None] until the subclass sets it.  [Name] and [Phone]
    set it to the string they are built from, and nothing calls
    [Phone.delete_phone], so both always hold a string; a [Birthday] is
    built empty and filled by its own [add_birthday]. *)
Record Name : Type := mkName { name_value : string }.
Record Phone : Type := mkPhone { phone_value : string }.
Record Birthday : Type := mkBirthday { birthday_value : option date }.

(** [Phone(phone)]: [add_phone] stores the string. *)
Definition Phone_init (phone : string) : Phone := mkPhone phone.

(** [Birthday.add_birthday]: the message and the object afterwards. *)
Definition Birthday_add_birthday (self : Birthday) (birthday : string)
  : result (string * Birthday) :=
  match birthday_value self with
  | Some _ => Ok ("Birthday already set", self)
  | None =>
      match strptime_dmY birthday with
      | Ok d => Ok ("Birthday is set", mkBirthday (Some d))
      | Err e => Err e
      end
  end.

(** [Birthday(birthday)]. *)
Definition Birthday_init (birthday : string) : result Birthday :=
  match Birthday_add_birthday (mkBirthday None) birthday with
  | Ok (_, self) => Ok self
  | Err e => Err e
  end.

(** [class Record]. *)
Record ContactRecord : Type := mkRecord {
  name : Name;
  phones : list Phone;
  birthday : option Birthday
}.

Definition Record_init (n : string) : ContactRecord :=
  mkRecord (mkName n) [] None.

Definition Record_add_phone (self : ContactRecord) (phone_number : string)
  : string * ContactRecord :=
  let phone := Phone_init phone_number in
  ("Phone number is set",
   mkRecord (name self) (phones self ++ [phone]) (birthday self)).

(** [phone.value == phone_number]. *)
Definition phone_is (phone_number : string) (phone : Phone) : bool :=
  String.eqb (phone_value phone) phone_number.

(** The position in [self.phones] of the object the loop returns. *)
Fixpoint find_index (phone_number : string) (l : list Phone) : option nat :=
  match l with
  | [] => None
  | phone :: rest =>
      if phone_is phone_number phone then Some O
      else option_map S (find_index phone_number rest)
  end.

Definition Record_find_phone (self : ContactRecord) (phone_number : string)
  : option nat :=
  find_index phone_number (phones self).

Fixpoint set_nth (i : nat) (v : Phone) (l : list Phone) : list Phone :=
  match l, i with
  | [], _ => []
  | _ :: rest, O => v :: rest
  | x :: rest, S j => x :: set_nth j v rest
  end.

Fixpoint del_nth (i : nat) (l : list Phone) : list Phone :=
  match l, i with
  | [], _ => []
  | _ :: rest, O => rest
  | x :: rest, S j => x :: del_nth j rest
  end.

Definition Record_edit_phone (self : ContactRecord) (old_number new_number : string)
  : string * ContactRecord :=
  match Record_find_phone self old_number with
  | None => ("Phone number not found", self)
  | Some i =>
      ("Phone number is set",
       mkRecord (name self) (set_nth i (mkPhone new_number) (phones self))
                (birthday self))
  end.

Definition Record_remove_phone (self : ContactRecord) (phone_number : string)
  : string * ContactRecord :=
  match Record_find_phone self phone_number with
  | None => ("Phone number not found", self)
  | Some i =>
      ("Phone number is deleted",
       mkRecord (name self) (del_nth i (phones self)) (birthday self))
  end.

Definition Record_add_birthday (self : ContactRecord) (s : string)
  : result (string * ContactRecord) :=
  match birthday self with
  | Some _ => Ok ("Birthday already set", self)
  | None =>
      match Birthday_init s with
      | Ok b => Ok ("Birthday is set", mkRecord (name self) (phones self) (Some b))
      | Err e => Err e
      end
  end.

(** One pass through the body of [while True]. *)
Inductive step : Type :=
| Continue (next_year : Z)
| Return (days : Z)
| Throw (e : exn).

Definition loop_body (today birthday_date : date) (next_year : Z) : step :=
  match replace_year birthday_date next_year with
  | Err (ValueError _) => Continue (next_year + 1)
  | Err e => Throw e
  | Ok candidate =>
      if date_geb candidate today then Return (sub_days candidate today)
      else Continue (next_year + 1)
  end.

(** The loop, cut off after [fuel] passes. *)
Fixpoint loop (fuel : nat) (today birthday_date : date) (next_year : Z) : run Z :=
  match fuel with
  | O => OutOfFuel
  | S fuel' =>
      match loop_body today birthday_date next_year with
      | Return days => Done days
      | Throw e => Raised e
      | Continue next_year' => loop fuel' today birthday_date next_year'
      end
  end.

Definition Record_days_to_birthday (fuel : nat) (today : date) (self : ContactRecord)
  : run (option Z) :=
  match birthday self with
  | None => Done None
  | Some b =>
      match birthday_value b with
      | None => Raised (AttributeError "NoneType has no attribute replace")
      | Some birthday_date =>
          days <- loop fuel today birthday_date (year today) ;;
          Done (Some days)
      end
  end.

(** [class AddressBook(UserDict)]: [self.data], a dict, as the list of its
    items in insertion order. *)
Definition AddressBook : Type := list (string * ContactRecord).

(** [d[k] = v]: an existing key keeps its place, a new one goes last. *)
Fixpoint dict_set (d : AddressBook) (k : string) (v : ContactRecord) : AddressBook :=
  match d with
  | [] => [(k, v)]
  | (k', v') :: rest =>
      if String.eqb k' k then (k', v) :: rest
      else (k', v') :: dict_set rest k v
  end.

Fixpoint dict_get (d : AddressBook) (k : string) : option ContactRecord :=
  match d with
  | [] => None
  | (k', v') :: rest => if String.eqb k' k then Some v' else dict_get rest k
  end.

Fixpoint dict_del (d : AddressBook) (k : string) : AddressBook :=
  match d with
  | [] => []
  | (k', v') :: rest => if String.eqb k' k then rest else (k', v') :: dict_del rest k
  end.

Definition dict_keys (d : AddressBook) : list string := map fst d.
Definition dict_values (d : AddressBook) : list ContactRecord := map snd d.

Definition AddressBook_add_record (self : AddressBook) (record : ContactRecord)
  : string * AddressBook :=
  ("Record added", dict_set self (name_value (name record)) record).

Definition AddressBook_find (self : AddressBook) (n : string) : option ContactRecord :=
  dict_get self n.

Definition AddressBook_delete (self : AddressBook) (n : string) : string * AddressBook :=
  match dict_get self n with
  | Some _ => ("Record deleted", dict_del self n)
  | None => ("Record not found", self)
  end.

(** [list.sort(key=...)] compares keys with [<] only and is stable: an item
    goes before the first sorted item whose key is not smaller. *)
Fixpoint insert_by_date (x : string * date) (l : list (string * date))
  : list (string * date) :=
  match l with
  | [] => [x]
  | y :: rest =>
      if date_ltb (snd y) (snd x) then y :: insert_by_date x rest
      else x :: y :: rest
  end.

Fixpoint sort_by_date (l : list (string * date)) : list (string * date) :=
  match l with
  | [] => []
  | x :: rest => insert_by_date x (sort_by_date rest)
  end.

(** The [for] loop of [upcoming_birthdays] over the remaining records. *)
Fixpoint collect_upcoming (fuel : nat) (today : date) (days : Z)
    (records : list ContactRecord) (upcoming : list (string * date))
  : run (list (string * date)) :=
  match records with
  | [] => Done upcoming
  | record :: rest =>
      days_left <- Record_days_to_birthday fuel today record ;;
      match days_left with
      | None => collect_upcoming fuel today days rest upcoming
      | Some dl =>
          if (0 <=? dl) && (dl <=? days) then
            d <- lift (add_days today dl) ;;
            collect_upcoming fuel today days rest
              (upcoming ++ [(name_value (name record), d)])
          else collect_upcoming fuel today days rest upcoming
      end
  end.

(** [today] is the date of the clock during the call: the one read here
    and the one each [days_to_birthday] reads. *)
Definition AddressBook_upcoming_birthdays (fuel : nat) (today : date)
    (self : AddressBook) (days : Z) : run (list (string * date)) :=
  upcoming <- collect_upcoming fuel today days (dict_values self) [] ;;
  Done (sort_by_date upcoming).

End instances.
Export instances.

(** ** [helpers.py] *)

Module helpers.

Local Open Scope string_scope.
Local Open Scope list_scope.

(** [str.isalpha] on one code point below 256: the letters of ASCII and of
    Latin-1 (general category L). *)
Definition is_alpha (c : ascii) : bool :=
  in_range "A" "Z" c || in_range "a" "z" c ||
  Ascii.eqb c "170" || Ascii.eqb c "181" || Ascii.eqb c "186" ||
  in_range "192" "214" c || in_range "216" "246" c || in_range "248" "255" c.

Fixpoint all_chars (p : ascii -> bool) (s : string) : bool :=
  match s with
  | EmptyString => true
  | String c r => p c && all_chars p r
  end.

(** [name.isalpha()]: every character alphabetic and at least one. *)
Definition validate_name (n : string) : bool :=
  match n with
  | EmptyString => false
  | String _ _ => all_chars is_alpha n
  end.

(** [(?:\+\d{7,15}|0\d{6,14})]. *)
Definition phone_pattern : matcher :=
  m_alt (m_seq (m_lit "+") (m_rep is_digit 7 15))
        (m_seq (m_lit "0") (m_rep is_digit 6 14)).

Definition validate_phone_number (phone_number : string) : bool :=
  match_to_dollar phone_pattern phone_number.

(** [try: strptime(...) except ValueError: return False]. *)
Definition validate_birthday (s : string) : bool :=
  match strptime_dmY s with
  | Ok _ => true
  | Err _ => false
  end.

(** [display_error_message]: the text printed, without the colour codes. *)
Definition display_error_message (message : string) : list string := [message].

(** [@input_error]: a [ValueError] of the body is printed and turned into
    the result [False]; the address book stays as the body left it. *)
Definition input_error (r : result bool * AddressBook)
  : result bool * list string * AddressBook :=
  match fst r with
  | Err (ValueError msg) =>
      (Ok false, display_error_message ("Error: " ++ msg), snd r)
  | other => (other, [], snd r)
  end.

End helpers.
Export helpers.

(** ** [handlers.py]: the handlers that change the address book *)

Module handlers.

Local Open Scope string_scope.
Local Open Scope list_scope.

Definition raise (msg : string) (book : AddressBook) : result bool * AddressBook :=
  (Err (ValueError msg), book).

Definition msg_bad_name : string :=
  "Invalid name format. Name should contain only alphabetic characters.".
Definition msg_bad_phone : string :=
  "Invalid phone number format. It should start with '+' followed by 7-15 digits or '0' followed by 6-14 digits.".
Definition msg_duplicate (n : string) : string :=
  "Contact " ++ n ++ " already has this phone number.".

(** A record found in the book is the object the book holds: a method
    called on it changes the book's entry, which [dict_set] under the key
    it was found with writes out. *)
Definition add_contact_body (n phone_number : string) (address_book : AddressBook)
  : result bool * AddressBook :=
  if negb (validate_name n) then raise msg_bad_name address_book
  else if negb (validate_phone_number phone_number) then raise msg_bad_phone address_book
  else
    match AddressBook_find address_book n with
    | None =>
        let record := Record_init n in
        let (add_message, record) := Record_add_phone record phone_number in
        if negb (String.eqb add_message "Phone number is set")
        then raise add_message address_book
        else (Ok true, snd (AddressBook_add_record address_book record))
    | Some record =>
        match Record_find_phone record phone_number with
        | Some _ => raise (msg_duplicate n) address_book
        | None =>
            let (add_message, record) := Record_add_phone record phone_number in
            let address_book := dict_set address_book n record in
            if negb (String.eqb add_message "Phone number is set")
            then raise add_message address_book
            else (Ok true, address_book)
        end
    end.

Definition add_contact (n phone_number : string) (address_book : AddressBook) :=
  input_error (add_contact_body n phone_number address_book).

Definition change_contact_body (n new_phone_number : string) (address_book : AddressBook)
  : result bool * AddressBook :=
  if negb (validate_phone_number new_phone_number) then raise msg_bad_phone address_book
  else
    match AddressBook_find address_book n with
    | None => raise "Contact not found." address_book
    | Some record =>
        match phones record with
        | [] =>
            let (add_message, record) := Record_add_phone record new_phone_number in
            let address_book := dict_set address_book n record in
            if negb (String.eqb add_message "Phone number is set")
            then raise add_message address_book
            else (Ok true, address_book)
        | first :: _ =>
            let current_phone := phone_value first in
            let (update_message, record) :=
              Record_edit_phone record current_phone new_phone_number in
            let address_book := dict_set address_book n record in
            if negb (String.eqb update_message "Phone number is set")
            then raise update_message address_book
            else (Ok true, address_book)
        end
    end.

Definition change_contact (n new_phone_number : string) (address_book : AddressBook) :=
  input_error (change_contact_body n new_phone_number address_book).

Definition add_birthday_body (n s : string) (address_book : AddressBook)
  : result bool * AddressBook :=
  if negb (validate_name n) then raise msg_bad_name address_book
  else if negb (validate_birthday s)
  then raise "Invalid birthday format. Use DD.MM.YYYY." address_book
  else
    match AddressBook_find address_book n with
    | None => raise "Contact not found." address_book
    | Some record =>
        match Record_add_birthday record s with
        | Ok (add_message, record) =>
            let address_book := dict_set address_book n record in
            if negb (String.eqb add_message "Birthday is set")
            then raise add_message address_book
            else (Ok true, address_book)
        | Err e => (Err e, address_book)
        end
    end.

Definition add_birthday (n s : string) (address_book : AddressBook) :=
  input_error (add_birthday_body n s address_book).

End handlers.
Export handlers.

(** ** Vocabulary of the specification *)

Module Spec.

Local Open Scope string_scope.
Local Open Scope list_scope.
Local Open Scope Z_scope.

(** The record has the birthday [b]. *)
Definition has_birthday (r : ContactRecord) (b : date) : Prop :=
  birthday r = Some (mkBirthday (Some b)).

(** The date (y, birthday.month, birthday.day). *)
Definition candidate (b : date) (y : Z) : date := mkdate y (month b) (day b).

(** It is a calendar date and not before [today]. *)
Definition is_candidate (today b : date) (y : Z) : bool :=
  valid_date (candidate b y) && date_geb (candidate b y) today.

(** [y] is the smallest year from [today.year] on whose candidate counts. *)
Definition next_birthday_year (today b : date) (y : Z) : Prop :=
  year today <= y /\ is_candidate today b y = true /\
  forall y', year today <= y' < y -> is_candidate today b y' = false.

(** The entry a record contributes to the upcoming birthdays, given the
    offset of its next birthday: (name, today + offset) when the offset is
    within [0, days], nothing otherwise. *)
Definition upcoming_entry (today : date) (days : Z) (r : ContactRecord)
    (offset : option Z) : list (string * date) :=
  match offset with
  | Some off =>
      if (0 <=? off) && (off <=? days)
      then [(name_value (name r), ord2ymd (toordinal today + off))]
      else []
  | None => []
  end.

(** Entry [x] may stand before entry [y]: its date is not the later one. *)
Definition date_order (x y : string * date) : Prop :=
  date_ltb (snd y) (snd x) = false.

(** The entry is reported for the date [d]. *)
Definition on_date (d : date) (e : string * date) : bool := date_eqb (snd e) d.

(** The methods of a record that change it. *)
Inductive record_method : Type :=
| M_add_phone (phone_number : string)
| M_edit_phone (old_number new_number : string)
| M_remove_phone (phone_number : string)
| M_add_birthday (s : string).

Definition call_method (m : record_method) (self : ContactRecord)
  : result (string * ContactRecord) :=
  match m with
  | M_add_phone p => Ok (Record_add_phone self p)
  | M_edit_phone o n => Ok (Record_edit_phone self o n)
  | M_remove_phone p => Ok (Record_remove_phone self p)
  | M_add_birthday s => Record_add_birthday self s
  end.

(** The commands that change the address book. *)
Inductive command : Type :=
| Cmd_add (n phone_number : string)
| Cmd_change (n new_phone_number : string)
| Cmd_add_birthday (n s : string).

Definition exec (c : command) (book : AddressBook)
  : result bool * list string * AddressBook :=
  match c with
  | Cmd_add n p => add_contact n p book
  | Cmd_change n p => change_contact n p book
  | Cmd_add_birthday n s => add_birthday n s book
  end.

Fixpoint exec_all (cs : list command) (book : AddressBook) : AddressBook :=
  match cs with
  | [] => book
  | c :: rest => exec_all rest (snd (exec c book))
  end.

(** No two phones of the record are equal as strings. *)
Definition phones_unique (r : ContactRecord) : Prop :=
  NoDup (map phone_value (phones r)).

Definition newline : string := String "010" EmptyString.

(** [+] and 7 to 15 digits, or [0] and 6 to 14 digits, and nothing else. *)
Definition is_phone_text (t : string) : bool :=
  match t with
  | String c ds =>
      all_chars is_digit ds &&
      ((Ascii.eqb "+" c && (7 <=? String.length ds)%nat && (String.length ds <=? 15)%nat) ||
       (Ascii.eqb "0" c && (6 <=? String.length ds)%nat && (String.length ds <=? 14)%nat))
  | EmptyString => false
  end.

(** The birthday, when there is one, holds an existing date. *)
Definition birthday_ok (r : ContactRecord) : Prop :=
  forall b, birthday r = Some b ->
            exists d, birthday_value b = Some d /\ valid_date d = true.

(** No character of the text is a dot. *)
Definition dotless (t : string) : bool :=
  all_chars (fun c => negb (Ascii.eqb "." c)) t.

(** The texts the pattern of [%d] matches. *)
Definition is_day_token (t : string) : bool :=
  match t with
  | String c EmptyString => in_range "1" "9" c
  | String c1 (String c2 EmptyString) =>
      (Ascii.eqb "3" c1 && in_range "0" "1" c2) ||
      (in_range "1" "2" c1 && is_digit c2) ||
      (Ascii.eqb "0" c1 && in_range "1" "9" c2) ||
      (Ascii.eqb " " c1 && in_range "1" "9" c2)
  | _ => false
  end.

(** The texts the pattern of [%m] matches. *)
Definition is_month_token (t : string) : bool :=
  match t with
  | String c EmptyString => in_range "1" "9" c
  | String c1 (String c2 EmptyString) =>
      (Ascii.eqb "1" c1 && in_range "0" "2" c2) ||
      (Ascii.eqb "0" c1 && in_range "1" "9" c2)
  | _ => false
  end.

(** Four digits: the texts the pattern of [%Y] matches. *)
Definition is_year_text (t : string) : bool :=
  match t with
  | String c1 (String c2 (String c3 (String c4 EmptyString))) =>
      is_digit c1 && is_digit c2 && is_digit c3 && is_digit c4
  | _ => false
  end.

(** Two digits. *)
Definition is_two_digits (t : string) : bool :=
  match t with
  | String c1 (String c2 EmptyString) => is_digit c1 && is_digit c2
  | _ => false
  end.

(** A day written with one or two digits, or with a blank and a digit. *)
Definition is_day_text (t : string) : bool :=
  match t with
  | String c EmptyString => is_digit c
  | String c1 (String c2 EmptyString) =>
      (is_digit c1 || Ascii.eqb " " c1) && is_digit c2
  | _ => false
  end.

(** A month written with one or two digits. *)
Definition is_month_text (t : string) : bool :=
  match t with
  | String c EmptyString => is_digit c
  | String c1 (String c2 EmptyString) => is_digit c1 && is_digit c2
  | _ => false
  end.

(** [s] is day, dot, month, dot, year, written as [day_ok] and [month_ok]
    allow and with a year of four digits, and the three numbers are a date
    that exists. *)
Definition parses_as (day_ok month_ok : string -> bool) (s : string) : Prop :=
  exists dd mm yyyy,
    s = (dd ++ "." ++ mm ++ "." ++ yyyy)%string /\
    day_ok dd = true /\ month_ok mm = true /\ is_year_text yyyy = true /\
    check_date_fields (py_int yyyy) (py_int mm) (py_int dd) = true.

(** The pattern DD.MM.YYYY read by the letter: two digits each for day and
    month. *)
Definition is_DD_MM_YYYY_date : string -> Prop := parses_as is_two_digits is_two_digits.

(** What [strptime] takes for it. *)
Definition is_D_M_YYYY_date : string -> Prop := parses_as is_day_text is_month_text.

(** *** Sample data *)

Definition contact (n : string) (b : option date) : ContactRecord :=
  mkRecord (mkName n) [] (option_map (fun d => mkBirthday (Some d)) b).

Definition june_10 : date := mkdate 2023 6 10.

(** Alice and Erin have their birthday on 14 June, Dave on the 17th, seven
    days after [june_10], Carol on the 18th, eight days after; Bob has
    none. *)
Definition sample_book : AddressBook :=
  [("alice", contact "alice" (Some (mkdate 1990 6 14)));
   ("bob", contact "bob" None);
   ("carol", contact "carol" (Some (mkdate 1985 6 18)));
   ("dave", contact "dave" (Some (mkdate 2001 6 17)));
   ("erin", contact "erin" (Some (mkdate 2000 6 14)))].

(** The offset [days_to_birthday] returns within [fuel] passes. *)
Definition offset_at (fuel : nat) (today : date) (r : ContactRecord) : option Z :=
  match Record_days_to_birthday fuel today r with
  | Done o => o
  | _ => None
  end.

End Spec.
Export Spec.

(** ** [str] methods and [strftime] *)

Module PyStr.

Local Open Scope string_scope.
Local Open Scope list_scope.
Local Open Scope Z_scope.

(** [str.isspace] on one code point below 256. *)
Definition is_space (c : ascii) : bool :=
  in_range "009" "013" c || in_range "028" "032" c ||
  Ascii.eqb c "133" || Ascii.eqb c "160".

(** [str.lower] on one code point below 256: the capitals of ASCII and of
    Latin-1 move up by 32. *)
Definition lower_char (c : ascii) : ascii :=
  if in_range "A" "Z" c || in_range "192" "214" c || in_range "216" "222" c
  then ascii_of_N (code c + 32)
  else c.

Fixpoint lower (s : string) : string :=
  match s with
  | EmptyString => EmptyString
  | String c r => String (lower_char c) (lower r)
  end.

Fixpoint lstrip (s : string) : string :=
  match s with
  | EmptyString => EmptyString
  | String c r => if is_space c then lstrip r else s
  end.

Fixpoint rstrip (s : string) : string :=
  match s with
  | EmptyString => EmptyString
  | String c r =>
      match rstrip r with
      | EmptyString => if is_space c then EmptyString else String c EmptyString
      | r' => String c r'
      end
  end.

(** [s.strip()]. *)
Definition strip (s : string) : string := rstrip (lstrip s).

(** [s.split()] from the point where [cur] is the word read so far. *)
Fixpoint split_from (cur : string) (s : string) : list string :=
  match s with
  | EmptyString =>
      match cur with EmptyString => [] | String _ _ => [cur] end
  | String c r =>
      if is_space c
      then match cur with
           | EmptyString => split_from EmptyString r
           | String _ _ => cur :: split_from EmptyString r
           end
      else split_from (cur ++ String c EmptyString)%string r
  end.

(** [s.split()]: the words between runs of whitespace. *)
Definition split (s : string) : list string := split_from EmptyString s.

(** [sep.join(l)]. *)
Fixpoint join (sep : string) (l : list string) : string :=
  match l with
  | [] => EmptyString
  | [x] => x
  | x :: rest => (x ++ sep ++ join sep rest)%string
  end.

Definition digit_char (n : Z) : ascii := ascii_of_N (Z.to_N (48 + n)).

(** [%d] and [%m]: two digits. *)
Definition two_digits (n : Z) : string :=
  String (digit_char (n / 10)) (String (digit_char (n mod 10)) EmptyString).

(** [%Y] as the C library of Linux prints it: the year in decimal, without
    padding, here for the years 1 to 9999 of a [date]. *)
Definition year_digits (y : Z) : string :=
  if y <? 10 then String (digit_char y) EmptyString
  else if y <? 100 then two_digits y
  else if y <? 1000 then String (digit_char (y / 100)) (two_digits (y mod 100))
  else (two_digits (y / 100) ++ two_digits (y mod 100))%string.

(** [d.strftime("%d.%m.%Y")]. *)
Definition strftime_dmY (d : date) : string :=
  (two_digits (day d) ++ "." ++ two_digits (month d) ++ "." ++ year_digits (year d))%string.

End PyStr.
Export PyStr.

(** ** [helpers.py] and [handlers.py]: reading the input, asking the book *)

Module queries.

Local Open Scope string_scope.
Local Open Scope list_scope.
Local Open Scope Z_scope.

(** [parse_input]: the command and its arguments. *)
Definition parse_input (user_input : string) : string * list string :=
  let parts := split (lower (strip user_input)) in
  (match parts with [] => EmptyString | command :: _ => command end,
   match parts with _ :: ((_ :: _) as args) => args | _ => [] end).

(** [@input_error] around a function that returns a value of type [A]: the
    value, or [False] after the message of a [ValueError] is printed. *)
Definition input_error_value {A : Type} (r : result A)
  : result (A + bool) * list string :=
  match r with
  | Ok a => (Ok (inl a), [])
  | Err (ValueError msg) => (Ok (inr false), display_error_message ("Error: " ++ msg))
  | Err e => (Err e, [])
  end.

Definition get_contact_birthday_body (n : string) (address_book : AddressBook)
  : result string :=
  if negb (validate_name n) then Err (ValueError msg_bad_name)
  else
    match AddressBook_find address_book n with
    | None => Err (ValueError "Contact not found.")
    | Some record =>
        match birthday record with
        | None => Err (ValueError ("Birthday for " ++ n ++ " is not set."))
        | Some b =>
            match birthday_value b with
            | Some d => Ok (strftime_dmY d)
            | None => Err (AttributeError "NoneType has no attribute strftime")
            end
        end
    end.

Definition get_contact_birthday (n : string) (address_book : AddressBook)
  : result (string + bool) * list string :=
  input_error_value (get_contact_birthday_body n address_book).

Definition msg_no_upcoming : string :=
  "No upcoming birthdays within the next 7 days.".

(** [get_upcoming_birthdays]: the window is the default of
    [upcoming_birthdays], 7 days. *)
Definition get_upcoming_birthdays (fuel : nat) (today : date) (address_book : AddressBook)
  : run (list (string * date) + bool) * list string :=
  match AddressBook_upcoming_birthdays fuel today address_book 7 with
  | Done [] => (Done (inr false), display_error_message ("Error: " ++ msg_no_upcoming))
  | Done upcoming => (Done (inl upcoming), [])
  | Raised (ValueError msg) => (Done (inr false), display_error_message ("Error: " ++ msg))
  | Raised e => (Raised e, [])
  | OutOfFuel => (OutOfFuel, [])
  end.

End queries.
Export queries.

(** ** Further vocabulary *)

Module Spec2.

Local Open Scope string_scope.
Local Open Scope list_scope.
Local Open Scope Z_scope.

(** The numbers of a record, in the order of its phones. *)
Definition phone_numbers (r : ContactRecord) : list string :=
  map phone_value (phones r).

(** No character of the text is whitespace. *)
Definition spaceless (t : string) : bool :=
  all_chars (fun c => negb (is_space c)) t.

(** A word as [split] returns them: not empty, without whitespace. *)
Definition is_word (t : string) : Prop := t <> EmptyString /\ spaceless t = true.

(** The birthday is the 29th of February. *)
Definition is_feb_29 (b : date) : bool := (month b =? 2) && (day b =? 29).

(** What the commands keep true of the address book: the keys are distinct,
    each record is stored under its own name, names and phones have the
    validated form, and birthdays are dates that exist. *)
Definition book_wf (book : AddressBook) : Prop :=
  NoDup (dict_keys book) /\
  Forall (fun kr =>
            name_value (name (snd kr)) = fst kr /\
            validate_name (fst kr) = true /\
            Forall (fun p => validate_phone_number p = true) (phone_numbers (snd kr)) /\
            birthday_ok (snd kr)) book.

(** The condition of [book_wf] on one item of the dict. *)
Definition item_wf (kr : string * ContactRecord) : Prop :=
  name_value (name (snd kr)) = fst kr /\
  validate_name (fst kr) = true /\
  Forall (fun p => validate_phone_number p = true) (phone_numbers (snd kr)) /\
  birthday_ok (snd kr).

(** Every character of the text is whitespace. *)
Definition blank (t : string) : bool := all_chars is_space t.

(** [lower] leaves the character as it is. *)
Definition is_lowered (c : ascii) : bool := Ascii.eqb (lower_char c) c.

Definition three_phones : ContactRecord :=
  mkRecord (mkName "bob") [mkPhone "+1111111"; mkPhone "+2222222"; mkPhone "+1111111"] None.

End Spec2.
Export Spec2.

(** ** Strings over all code points: digits of any script *)

Module PyUnicode.

Local Open Scope list_scope.
Local Open Scope N_scope.

(** A [str] as the list of its code points. *)
Definition ustr : Type := list N.

(** The [str] that a [string] of code points below 256 stands for. *)
Fixpoint codes (s : string) : ustr :=
  match s with
  | EmptyString => []
  | String c r => code c :: codes r
  end.

(** The digits zero of the decimal digits of Unicode 14.0, the character
    database of CPython 3.11: each is followed by its digits one to nine. *)
Definition decimal_zeros : list N :=
  [48; 1632; 1776; 1984; 2406; 2534; 2662; 2790; 2918; 3046; 3174; 3302;
   3430; 3558; 3664; 3792; 3872; 4160; 4240; 6112; 6160; 6470; 6608; 6784;
   6800; 6992; 7088; 7232; 7248; 42528; 43216; 43264; 43472; 43504; 43600;
   44016; 65296; 66720; 68912; 69734; 69872; 69942; 70096; 70384; 70736;
   70864; 71248; 71360; 71472; 71904; 72016; 72784; 73040; 73120; 92768;
   92864; 93008; 120782; 120792; 120802; 120812; 120822; 123200; 123632;
   125264; 130032].

(** [unicodedata.decimal(c)], the value [int] gives the digit. *)
Definition decimal_value (c : N) : option Z :=
  match find (fun z => (z <=? c) && (c <? z + 10)) decimal_zeros with
  | Some z => Some (Z.of_N (c - z))
  | None => None
  end.

(** [\d] in a pattern on [str], also under IGNORECASE. *)
Definition is_decimal (c : N) : bool :=
  match decimal_value c with
  | Some _ => true
  | None => false
  end.

(** A class [[lo-hi]] of the pattern. *)
Definition in_range (lo hi c : N) : bool := (lo <=? c) && (c <=? hi).

(** A matcher lists, in the order the backtracking engine tries them, the
    ways a pattern matches a prefix of the input: matched text and rest. *)
Definition matcher : Type := ustr -> list (ustr * ustr).

Definition m_class (p : N -> bool) : matcher :=
  fun s =>
    match s with
    | c :: r => if p c then [([c], r)] else []
    | [] => []
    end.

Definition m_lit (c : N) : matcher := m_class (N.eqb c).

Definition m_seq (a b : matcher) : matcher :=
  fun s =>
    flat_map (fun tr1 =>
      map (fun tr2 => (fst tr1 ++ fst tr2, snd tr2)) (b (snd tr1))) (a s).

Definition m_alt (a b : matcher) : matcher := fun s => a s ++ b s.

(** [p{lo,hi}], greedy: [hi] is the number of repetitions still allowed. *)
Fixpoint m_rep (p : N -> bool) (lo hi : nat) : matcher :=
  fun s =>
    match hi with
    | O => match lo with O => [([], s)] | S _ => [] end
    | S hi' =>
        match s with
        | c :: r =>
            if p c
            then map (fun tr => (c :: fst tr, snd tr)) (m_rep p (pred lo) hi' r)
            else []
        | [] => []
        end
        ++ match lo with O => [([], s)] | S _ => [] end
    end.

(** [$] without MULTILINE: the end of the string, or just before a newline
    that is the last character. *)
Definition at_dollar (rest : ustr) : bool :=
  match rest with
  | [] => true
  | [c] => c =? 10
  | _ => false
  end.

(** [bool(re.compile('^(?:' m ')$').match(s))]. *)
Definition match_to_dollar (m : matcher) (s : ustr) : bool :=
  existsb (fun tr => at_dollar (snd tr)) (m s).

(** [int(s)] for an optional run of blanks followed by decimal digits. *)
Fixpoint int_digits (acc : Z) (s : ustr) : Z :=
  match s with
  | [] => acc
  | c :: r =>
      int_digits (10 * acc + match decimal_value c with Some v => v | None => 0 end)%Z r
  end.

Fixpoint py_int (s : ustr) : Z :=
  match s with
  | c :: r => if c =? 32 then py_int r else int_digits 0 s
  | [] => 0%Z
  end.

(** [%d]: [3[0-1]|[1-2]\d|0[1-9]|[1-9]| [1-9]]. *)
Definition re_d : matcher :=
  m_alt (m_seq (m_lit (code "3")) (m_class (in_range (code "0") (code "1"))))
 (m_alt (m_seq (m_class (in_range (code "1") (code "2"))) (m_class is_decimal))
 (m_alt (m_seq (m_lit (code "0")) (m_class (in_range (code "1") (code "9"))))
 (m_alt (m_class (in_range (code "1") (code "9")))
        (m_seq (m_lit (code " ")) (m_class (in_range (code "1") (code "9"))))))).

(** [%m]: [1[0-2]|0[1-9]|[1-9]]. *)
Definition re_m : matcher :=
  m_alt (m_seq (m_lit (code "1")) (m_class (in_range (code "0") (code "2"))))
 (m_alt (m_seq (m_lit (code "0")) (m_class (in_range (code "1") (code "9"))))
        (m_class (in_range (code "1") (code "9")))).

(** [%Y]: [\d\d\d\d]. *)
Definition re_Y : matcher :=
  m_seq (m_class is_decimal) (m_seq (m_class is_decimal)
        (m_seq (m_class is_decimal) (m_class is_decimal))).

(** The compiled format: the groups d, m, Y and the unmatched rest, for
    every way the regular expression matches, in backtracking order. *)
Definition format_regex (s : ustr) : list (ustr * ustr * ustr * ustr) :=
  flat_map (fun d =>
    flat_map (fun dot1 =>
      flat_map (fun m =>
        flat_map (fun dot2 =>
          map (fun Y => (fst d, fst m, fst Y, snd Y)) (re_Y (snd dot2)))
          (m_lit (code ".") (snd m)))
        (re_m (snd dot1)))
      (m_lit (code ".") (snd d)))
    (re_d s).

(** [datetime.strptime(s, "%d.%m.%Y").date()]. *)
Definition strptime_dmY (data_string : ustr) : result date :=
  match format_regex data_string with
  | [] => Err (ValueError "time data does not match format")
  | (d, m, Y, rest) :: _ =>
      match rest with
      | [] => new_date (py_int Y) (py_int m) (py_int d)
      | _ :: _ => Err (ValueError "unconverted data remains")
      end
  end.

(** [validate_birthday] of [helpers.py]. *)
Definition validate_birthday (s : ustr) : bool :=
  match strptime_dmY s with
  | Ok _ => true
  | Err _ => false
  end.

(** [(?:\+\d{7,15}|0\d{6,14})]. *)
Definition phone_pattern : matcher :=
  m_alt (m_seq (m_lit (code "+")) (m_rep is_decimal 7 15))
        (m_seq (m_lit (code "0")) (m_rep is_decimal 6 14)).

(** [validate_phone_number] of [helpers.py]. *)
Definition validate_phone_number (phone_number : ustr) : bool :=
  match_to_dollar phone_pattern phone_number.

(** A matcher on all code points and one on those below 256 that find the
    same matches. *)
Definition agree (m : PyRe.matcher) (m' : matcher) : Prop :=
  forall s, m' (codes s) = map (fun tr => (codes (fst tr), codes (snd tr))) (m s).

(** *** Vocabulary *)

(** One of [0] to [9]. *)
Definition is_ascii_digit (c : N) : bool := in_range (code "0") (code "9") c.

(** The texts the pattern of [%d] matches. *)
Definition is_day_token (t : ustr) : bool :=
  match t with
  | [c] => in_range (code "1") (code "9") c
  | [c1; c2] =>
      ((c1 =? code "3") && in_range (code "0") (code "1") c2) ||
      (in_range (code "1") (code "2") c1 && is_decimal c2) ||
      ((c1 =? code "0") && in_range (code "1") (code "9") c2) ||
      ((c1 =? code " ") && in_range (code "1") (code "9") c2)
  | _ => false
  end.

(** The texts the pattern of [%m] matches. *)
Definition is_month_token (t : ustr) : bool :=
  match t with
  | [c] => in_range (code "1") (code "9") c
  | [c1; c2] =>
      ((c1 =? code "1") && in_range (code "0") (code "2") c2) ||
      ((c1 =? code "0") && in_range (code "1") (code "9") c2)
  | _ => false
  end.

(** Four decimal digits of any script: the texts the pattern of [%Y]
    matches. *)
Definition is_year_text (t : ustr) : bool :=
  match t with
  | [c1; c2; c3; c4] => is_decimal c1 && is_decimal c2 && is_decimal c3 && is_decimal c4
  | _ => false
  end.

(** Two of the digits [0] to [9]. *)
Definition is_two_digits (t : ustr) : bool :=
  match t with
  | [c1; c2] => is_ascii_digit c1 && is_ascii_digit c2
  | _ => false
  end.

(** Four of the digits [0] to [9]. *)
Definition is_four_digits (t : ustr) : bool :=
  match t with
  | [c1; c2; c3; c4] =>
      is_ascii_digit c1 && is_ascii_digit c2 && is_ascii_digit c3 && is_ascii_digit c4
  | _ => false
  end.

(** A day written with one or two of the digits [0] to [9], or with a
    blank and one of them, or with [1] or [2] and a decimal digit of any
    script. *)
Definition is_day_text (t : ustr) : bool :=
  match t with
  | [c] => is_ascii_digit c
  | [c1; c2] =>
      ((is_ascii_digit c1 || (c1 =? code " ")) && is_ascii_digit c2) ||
      (in_range (code "1") (code "2") c1 && is_decimal c2)
  | _ => false
  end.

(** A month written with one or two of the digits [0] to [9]. *)
Definition is_month_text (t : ustr) : bool :=
  match t with
  | [c] => is_ascii_digit c
  | [c1; c2] => is_ascii_digit c1 && is_ascii_digit c2
  | _ => false
  end.

(** [s] is day, dot, month, dot, year, written as [day_ok], [month_ok] and
    [year_ok] allow, and the three numbers are a date that exists. *)
Definition parses_as (day_ok month_ok year_ok : ustr -> bool) (s : ustr) : Prop :=
  exists dd mm yyyy,
    s = dd ++ [code "."] ++ mm ++ [code "."] ++ yyyy /\
    day_ok dd = true /\ month_ok mm = true /\ year_ok yyyy = true /\
    check_date_fields (py_int yyyy) (py_int mm) (py_int dd) = true.

(** The pattern DD.MM.YYYY read by the letter, in the digits [0] to [9]. *)
Definition is_DD_MM_YYYY_date : ustr -> Prop :=
  parses_as is_two_digits is_two_digits is_four_digits.

(** What [strptime] takes for it. *)
Definition is_D_M_YYYY_date : ustr -> Prop :=
  parses_as is_day_text is_month_text is_year_text.

(** [+] and 7 to 15 decimal digits, or [0] and 6 to 14 decimal digits. *)
Definition is_phone_text (t : ustr) : bool :=
  match t with
  | c :: ds =>
      forallb is_decimal ds &&
      (((c =? code "+") && (7 <=? List.length ds)%nat && (List.length ds <=? 15)%nat) ||
       ((c =? code "0") && (6 <=? List.length ds)%nat && (List.length ds <=? 14)%nat))
  | [] => false
  end.

(** No character of the text is a newline. *)
Definition no_newline (t : ustr) : bool := forallb (fun c => negb (c =? 10)) t.

(** The years 2000 and 2023 in Arabic-Indic digits, and the digits one
    and zero of that script. *)
Definition arabic_2000 : ustr := [1634; 1632; 1632; 1632].
Definition arabic_2023 : ustr := [1634; 1632; 1634; 1635].
Definition arabic_one : N := 1633.
Definition arabic_zero : N := 1632.

End PyUnicode.

(** * Properties *)

(** ** Calendar facts *)

Ltac month_tables :=
  cbv [DAYS_BEFORE_MONTH DAYS_IN_MONTH Z.eqb Z.gtb Z.compare Pos.compare
       Pos.compare_cont Pos.eqb andb] in *.

Section Calendar.

Lemma date_cmp_eq (a b : date) : date_cmp a b = Eq -> a = b.
Proof.
  destruct a as [ya ma da], b as [yb mb db]; unfold date_cmp; simpl.
  destruct (Z.compare_spec ya yb); try discriminate.
  destruct (Z.compare_spec ma mb); try discriminate.
  destruct (Z.compare_spec da db); try discriminate.
  intros _; congruence.
Qed.

Lemma date_cmp_refl (a : date) : date_cmp a a = Eq.
Proof. unfold date_cmp; now rewrite !Z.compare_refl. Qed.

Lemma date_ltb_iff (a b : date) :
  date_ltb a b = true <->
  year a < year b \/
  (year a = year b /\ (month a < month b \/ (month a = month b /\ day a < day b))).
Proof.
  unfold date_ltb, date_cmp.
  destruct (Z.compare_spec (year a) (year b));
    destruct (Z.compare_spec (month a) (month b));
    destruct (Z.compare_spec (day a) (day b));
    split; intros; try discriminate; try reflexivity; lia.
Qed.

Lemma date_geb_ltb (a b : date) : date_geb a b = negb (date_ltb a b).
Proof. unfold date_geb, date_ltb; now destruct (date_cmp a b). Qed.

Lemma date_eqb_eq (a b : date) : date_eqb a b = true <-> a = b.
Proof.
  unfold date_eqb; split.
  - destruct (date_cmp a b) eqn:E; try discriminate; intros _; now apply date_cmp_eq.
  - intros ->; now rewrite date_cmp_refl.
Qed.

Lemma date_ltb_trans (a b c : date) :
  date_ltb a b = true -> date_ltb b c = true -> date_ltb a c = true.
Proof. rewrite !date_ltb_iff; lia. Qed.

Lemma date_ltb_irrefl (a : date) : date_ltb a a = false.
Proof. unfold date_ltb; now rewrite date_cmp_refl. Qed.

Lemma date_nlt_trans (a b c : date) :
  date_ltb b a = false -> date_ltb c b = false -> date_ltb c a = false.
Proof.
  intros H1 H2.
  destruct (date_ltb c a) eqn:E; [|reflexivity].
  assert (N1 : ~ date_ltb b a = true) by congruence.
  assert (N2 : ~ date_ltb c b = true) by congruence.
  rewrite date_ltb_iff in *; lia.
Qed.

Lemma days_before_year_step (y : Z) :
  days_before_year (y + 1) = days_before_year y + (if is_leap y then 366 else 365).
Proof.
  unfold days_before_year, is_leap.
  replace (y + 1 - 1) with y by lia.
  destruct (Z.eqb_spec (y mod 4) 0), (Z.eqb_spec (y mod 100) 0),
    (Z.eqb_spec (y mod 400) 0); simpl;
    Z.to_euclidean_division_equations; lia.
Qed.

Lemma days_before_year_mono (y y' : Z) :
  y <= y' -> days_before_year y <= days_before_year y'.
Proof.
  unfold days_before_year; intros H.
  Z.to_euclidean_division_equations; lia.
Qed.

Lemma valid_date_fields (d : date) :
  valid_date d = true ->
  MINYEAR <= year d <= MAXYEAR /\ 1 <= month d <= 12 /\
  1 <= day d <= days_in_month (year d) (month d).
Proof.
  unfold valid_date, check_date_fields; intros H.
  repeat (apply andb_prop in H; destruct H as [H ?]).
  rewrite ?Z.leb_le in *; lia.
Qed.

(** Day of the year: at most the length of the year. *)
Lemma day_of_year_range (y m d : Z) :
  1 <= m <= 12 -> 1 <= d <= days_in_month y m ->
  1 <= days_before_month y m + d <= (if is_leap y then 366 else 365).
Proof.
  intros Hm Hd.
  assert (C : m = 1 \/ m = 2 \/ m = 3 \/ m = 4 \/ m = 5 \/ m = 6 \/ m = 7 \/
              m = 8 \/ m = 9 \/ m = 10 \/ m = 11 \/ m = 12) by lia.
  unfold days_before_month, days_in_month in *.
  revert Hd; destruct (is_leap y); intros Hd;
    repeat (destruct C as [-> | C]; [month_tables; lia|]); subst; month_tables; lia.
Qed.

Lemma toordinal_range (d : date) :
  valid_date d = true -> 1 <= toordinal d <= MAXORDINAL.
Proof.
  intros V; apply valid_date_fields in V; destruct V as (Hy & Hm & Hd).
  pose proof (day_of_year_range _ _ _ Hm Hd) as R.
  pose proof (days_before_year_step (year d)) as S.
  assert (M : days_before_year (year d + 1) <= days_before_year 10000)
    by (apply days_before_year_mono; unfold MAXYEAR in *; lia).
  assert (L : days_before_year 1 <= days_before_year (year d))
    by (apply days_before_year_mono; unfold MINYEAR in *; lia).
  change (days_before_year 10000) with 3652059 in M.
  change (days_before_year 1) with 0 in L.
  unfold toordinal, MAXORDINAL.
  destruct (is_leap (year d)); lia.
Qed.

(** The ordinal is strictly increasing along the order of dates. *)
Lemma toordinal_lt (a b : date) :
  valid_date a = true -> valid_date b = true ->
  date_ltb a b = true -> toordinal a < toordinal b.
Proof.
  intros Va Vb L.
  apply valid_date_fields in Va; destruct Va as (_ & Hma & Hda).
  apply valid_date_fields in Vb; destruct Vb as (_ & Hmb & Hdb).
  apply date_ltb_iff in L.
  pose proof (day_of_year_range _ _ _ Hma Hda) as Ra.
  pose proof (day_of_year_range _ _ _ Hmb Hdb) as Rb.
  unfold toordinal.
  destruct L as [L | (E & L)].
  - pose proof (days_before_year_step (year a)) as S.
    assert (M : days_before_year (year a + 1) <= days_before_year (year b))
      by (apply days_before_year_mono; lia).
    destruct (is_leap (year a)); lia.
  - rewrite E in *.
    destruct L as [L | (E' & L)]; [|rewrite E'; lia].
    assert (days_before_month (year b) (month a) + days_in_month (year b) (month a)
            <= days_before_month (year b) (month b)); [|lia].
    clear - L Hma Hmb.
    assert (Ca : month a = 1 \/ month a = 2 \/ month a = 3 \/ month a = 4 \/
                 month a = 5 \/ month a = 6 \/ month a = 7 \/ month a = 8 \/
                 month a = 9 \/ month a = 10 \/ month a = 11 \/ month a = 12) by lia.
    assert (Cb : month b = 1 \/ month b = 2 \/ month b = 3 \/ month b = 4 \/
                 month b = 5 \/ month b = 6 \/ month b = 7 \/ month b = 8 \/
                 month b = 9 \/ month b = 10 \/ month b = 11 \/ month b = 12) by lia.
    unfold days_before_month, days_in_month.
    destruct (is_leap (year b));
      repeat (destruct Ca as [Ea | Ca]; [rewrite Ea in *|]); try rewrite Ca in *;
      repeat (destruct Cb as [Eb | Cb]; [rewrite Eb in *|]); try rewrite Cb in *;
      month_tables; lia.
Qed.

Lemma sub_days_nonneg (a b : date) :
  valid_date a = true -> valid_date b = true ->
  date_geb a b = true -> 0 <= sub_days a b.
Proof.
  intros Va Vb G. unfold sub_days.
  destruct (date_ltb b a) eqn:L.
  - pose proof (toordinal_lt _ _ Vb Va L); lia.
  - assert (date_cmp a b = Eq).
    { rewrite date_geb_ltb in G. apply negb_true_iff in G.
      assert (N1 : ~ date_ltb a b = true) by congruence.
      assert (N2 : ~ date_ltb b a = true) by congruence.
      rewrite date_ltb_iff in N1, N2.
      unfold date_cmp.
      destruct (Z.compare_spec (year a) (year b)); try lia.
      destruct (Z.compare_spec (month a) (month b)); try lia.
      destruct (Z.compare_spec (day a) (day b)); try lia. reflexivity. }
    apply date_cmp_eq in H; subst; lia.
Qed.

Lemma month_length_le_31 (leap : bool) (m : Z) :
  1 <= m <= 12 -> (if (m =? 2) && leap then 29 else DAYS_IN_MONTH m) <= 31.
Proof.
  intros Hm.
  assert (C : m = 1 \/ m = 2 \/ m = 3 \/ m = 4 \/ m = 5 \/ m = 6 \/ m = 7 \/
              m = 8 \/ m = 9 \/ m = 10 \/ m = 11 \/ m = 12) by lia.
  destruct leap;
    repeat (destruct C as [-> | C]; [month_tables; lia|]); subst; month_tables; lia.
Qed.

Lemma divmod_unique (a b q r : Z) :
  0 <= r < b -> a = b * q + r -> a / b = q /\ a mod b = r.
Proof.
  intros R E; split; [symmetry; now apply (Z.div_unique a b q r); [left|]
                     |symmetry; now apply (Z.mod_unique a b q r); [left|]].
Qed.

Lemma year_split (y : Z) :
  exists A B C E,
    y - 1 = 400 * A + 100 * B + 4 * C + E /\
    0 <= B < 4 /\ 0 <= C < 25 /\ 0 <= E < 4 /\
    days_before_year y = 146097 * A + 36524 * B + 1461 * C + 365 * E /\
    is_leap y = (E =? 3) && (negb (C =? 24) || (B =? 3)).
Proof.
  exists ((y - 1) / 400), ((y - 1) mod 400 / 100), ((y - 1) mod 100 / 4), ((y - 1) mod 4).
  repeat split; try (Z.to_euclidean_division_equations; lia).
  - unfold days_before_year. Z.to_euclidean_division_equations; lia.
  - unfold is_leap.
    destruct (Z.eqb_spec (y mod 4) 0), (Z.eqb_spec (y mod 100) 0),
      (Z.eqb_spec (y mod 400) 0), (Z.eqb_spec ((y - 1) mod 4) 3),
      (Z.eqb_spec ((y - 1) mod 100 / 4) 24),
      (Z.eqb_spec ((y - 1) mod 400 / 100) 3); simpl; try reflexivity;
      exfalso; Z.to_euclidean_division_equations; lia.
Qed.

(** The month and the day from the day of the year, as [_ord2ymd] finds
    them. *)
Lemma month_day_of_year (leap : bool) (y m dd : Z) :
  1 <= m <= 12 ->
  1 <= dd <= (if (m =? 2) && leap then 29 else DAYS_IN_MONTH m) ->
  let n := DAYS_BEFORE_MONTH m + (if (m >? 2) && leap then 1 else 0) + dd - 1 in
  let mo := Z.shiftr (n + 50) 5 in
  let preceding := DAYS_BEFORE_MONTH mo + (if (mo >? 2) && leap then 1 else 0) in
  (if preceding >? n then
     mkdate y (mo - 1)
       (n - (preceding - (DAYS_IN_MONTH (mo - 1)
                          + (if (mo - 1 =? 2) && leap then 1 else 0))) + 1)
   else mkdate y mo (n - preceding + 1)) = mkdate y m dd.
Proof.
  intros Hm Hd.
  assert (D : 1 <= dd <= 31)
    by (pose proof (month_length_le_31 leap m Hm); lia).
  assert (C : m = 1 \/ m = 2 \/ m = 3 \/ m = 4 \/ m = 5 \/ m = 6 \/ m = 7 \/
              m = 8 \/ m = 9 \/ m = 10 \/ m = 11 \/ m = 12) by lia.
  assert (E : dd = 1 \/ dd = 2 \/ dd = 3 \/ dd = 4 \/ dd = 5 \/ dd = 6 \/ dd = 7 \/
              dd = 8 \/ dd = 9 \/ dd = 10 \/ dd = 11 \/ dd = 12 \/ dd = 13 \/
              dd = 14 \/ dd = 15 \/ dd = 16 \/ dd = 17 \/ dd = 18 \/ dd = 19 \/
              dd = 20 \/ dd = 21 \/ dd = 22 \/ dd = 23 \/ dd = 24 \/ dd = 25 \/
              dd = 26 \/ dd = 27 \/ dd = 28 \/ dd = 29 \/ dd = 30 \/ dd = 31) by lia.
  clear Hm D.
  destruct leap;
    repeat (destruct C as [C|C]; [subst m|]); try subst m;
    cbv [DAYS_IN_MONTH Z.eqb Pos.eqb andb] in Hd;
    repeat (destruct E as [E|E]; [subst dd; first [reflexivity|lia]|]);
    subst dd; first [reflexivity|lia].
Qed.

(** [_ord2ymd] on the ordinal of day [k] (from 0) of the year that follows
    [A] cycles of 400 years, [B] centuries, [C] cycles of 4 years and [E]
    years. *)
Lemma ord2ymd_split (A B C E k : Z) :
  0 <= B < 4 -> 0 <= C < 25 -> 0 <= E < 4 -> 0 <= k <= 364 ->
  ord2ymd (146097 * A + 36524 * B + 1461 * C + 365 * E + k + 1) =
  let y := 400 * A + 100 * B + 4 * C + E + 1 in
  let leapyear := (E =? 3) && (negb (C =? 24) || (B =? 3)) in
  let m := Z.shiftr (k + 50) 5 in
  let preceding := DAYS_BEFORE_MONTH m + (if (m >? 2) && leapyear then 1 else 0) in
  if preceding >? k then
    mkdate y (m - 1)
      (k - (preceding - (DAYS_IN_MONTH (m - 1)
                         + (if (m - 1 =? 2) && leapyear then 1 else 0))) + 1)
  else mkdate y m (k - preceding + 1).
Proof.
  intros HB HC HE Hk. unfold ord2ymd. cbv zeta.
  replace (146097 * A + 36524 * B + 1461 * C + 365 * E + k + 1 - 1)
    with (146097 * A + (36524 * B + 1461 * C + 365 * E + k)) by lia.
  destruct (divmod_unique (146097 * A + (36524 * B + 1461 * C + 365 * E + k))
              146097 A (36524 * B + 1461 * C + 365 * E + k)) as [Q1 M1];
    [lia|lia|]. rewrite Q1, M1.
  destruct (divmod_unique (36524 * B + 1461 * C + 365 * E + k)
              36524 B (1461 * C + 365 * E + k)) as [Q2 M2]; [lia|lia|].
  rewrite Q2, M2.
  destruct (divmod_unique (1461 * C + 365 * E + k) 1461 C (365 * E + k)) as [Q3 M3];
    [lia|lia|]. rewrite Q3, M3.
  destruct (divmod_unique (365 * E + k) 365 E k) as [Q4 M4]; [lia|lia|].
  rewrite Q4, M4.
  replace (E =? 4) with false by (symmetry; apply Z.eqb_neq; lia).
  replace (B =? 4) with false by (symmetry; apply Z.eqb_neq; lia).
  cbn [orb].
  replace (A * 400 + 1 + B * 100 + C * 4 + E) with (400 * A + 100 * B + 4 * C + E + 1)
    by lia.
  reflexivity.
Qed.

(** The last day of a leap year. *)
Lemma ord2ymd_last_day (A B C : Z) :
  0 <= B < 4 -> 0 <= C < 25 -> (C <> 24 \/ B = 3) ->
  ord2ymd (146097 * A + 36524 * B + 1461 * C + 365 * 3 + 365 + 1) =
  mkdate (400 * A + 100 * B + 4 * C + 3 + 1) 12 31.
Proof.
  intros HB HC HL. unfold ord2ymd. cbv zeta.
  replace (146097 * A + 36524 * B + 1461 * C + 365 * 3 + 365 + 1 - 1)
    with (146097 * A + (36524 * B + 1461 * C + 1460)) by lia.
  destruct (divmod_unique (146097 * A + (36524 * B + 1461 * C + 1460))
              146097 A (36524 * B + 1461 * C + 1460)) as [Q1 M1]; [lia|lia|].
  rewrite Q1, M1.
  destruct (Z.eq_dec C 24) as [->|NC].
  - assert (B = 3) by lia; subst B.
    change (36524 * 3 + 1461 * 24 + 1460) with 146096.
    change (146096 / 36524) with 4. change (146096 mod 36524) with 0.
    change (0 / 1461) with 0. change (0 mod 1461) with 0. change (0 / 365) with 0.
    cbn [Z.eqb Pos.eqb orb]. f_equal; lia.
  - destruct (divmod_unique (36524 * B + 1461 * C + 1460) 36524 B (1461 * C + 1460))
      as [Q2 M2]; [lia|lia|]. rewrite Q2, M2.
    destruct (divmod_unique (1461 * C + 1460) 1461 C 1460) as [Q3 M3]; [lia|lia|].
    rewrite Q3, M3.
    change (1460 / 365) with 4. cbn [Z.eqb Pos.eqb orb]. f_equal; lia.
Qed.

(** [date.fromordinal] undoes [toordinal]. *)
Lemma ord2ymd_toordinal (d : date) :
  valid_date d = true -> ord2ymd (toordinal d) = d.
Proof.
  intros V. pose proof (valid_date_fields d V) as (Hy & Hm & Hd).
  destruct d as [y m dd]; cbn [year month day] in *.
  pose proof (day_of_year_range y m dd Hm Hd) as R.
  destruct (year_split y) as (A & B & C & E & Ey & HB & HC & HE & Edby & Eleap).
  unfold toordinal; cbn [year month day]. rewrite Edby.
  assert (Ey' : y = 400 * A + 100 * B + 4 * C + E + 1) by lia.
  destruct (Z.eq_dec (days_before_month y m + dd) 366) as [L|NL].
  - (* 31 December of a leap year *)
    destruct (is_leap y) eqn:Ly; [|lia].
    symmetry in Eleap. apply andb_true_iff in Eleap. destruct Eleap as [E3 CB].
    apply Z.eqb_eq in E3; subst E.
    assert (HL : C <> 24 \/ B = 3).
    { apply orb_true_iff in CB. destruct CB as [H|H];
        [left; apply negb_true_iff, Z.eqb_neq in H; exact H
        |right; apply Z.eqb_eq in H; exact H]. }
    replace (146097 * A + 36524 * B + 1461 * C + 365 * 3 + days_before_month y m + dd)
      with (146097 * A + 36524 * B + 1461 * C + 365 * 3 + 365 + 1) by lia.
    rewrite (ord2ymd_last_day A B C HB HC HL). rewrite <- Ey'.
    assert (m = 12 /\ dd = 31); [|f_equal; lia].
    clear - L Hm Hd Ly. unfold days_before_month, days_in_month in *.
    rewrite Ly in *.
    assert (Cm : m = 1 \/ m = 2 \/ m = 3 \/ m = 4 \/ m = 5 \/ m = 6 \/ m = 7 \/
                 m = 8 \/ m = 9 \/ m = 10 \/ m = 11 \/ m = 12) by lia.
    repeat (destruct Cm as [Cm|Cm]; [subst m; month_tables; lia|]).
    subst m; month_tables; lia.
  - replace (146097 * A + 36524 * B + 1461 * C + 365 * E + days_before_month y m + dd)
      with (146097 * A + 36524 * B + 1461 * C + 365 * E
            + (days_before_month y m + dd - 1) + 1) by lia.
    rewrite ord2ymd_split; [|lia|lia|lia|destruct (is_leap y); lia].
    rewrite <- Ey', <- Eleap.
    unfold days_before_month.
    apply (month_day_of_year (is_leap y) y m dd Hm). exact Hd.
Qed.

End Calendar.

(** ** The search for the next birthday *)

Section NextBirthday.

Variables today b : date.

Lemma is_candidate_year (y : Z) :
  is_candidate today b y = true -> MINYEAR <= y <= MAXYEAR.
Proof.
  unfold is_candidate. intros H. apply andb_true_iff in H. destruct H as [V _].
  apply valid_date_fields in V. exact (proj1 V).
Qed.

(** Up to the largest C [int] a pass of the loop either returns at a
    candidate or goes on to the next year. *)
Lemma loop_body_eq (y : Z) :
  y <= INT_MAX ->
  loop_body today b y =
  if is_candidate today b y then Return (sub_days (candidate b y) today)
  else Continue (y + 1).
Proof.
  intros Hy.
  unfold loop_body, replace_year, new_date, is_candidate, valid_date, candidate.
  cbn [year month day].
  replace (LONG_MAX <? y) with false
    by (symmetry; apply Z.ltb_ge; unfold LONG_MAX, INT_MAX in *; lia).
  replace (INT_MAX <? y) with false by (symmetry; apply Z.ltb_ge; lia).
  destruct (check_date_fields y (month b) (day b)); cbn [andb]; [|reflexivity].
  now destruct (date_geb _ today).
Qed.

(** Above it the pass raises [OverflowError], which the loop lets through. *)
Lemma loop_body_overflow (y : Z) :
  INT_MAX < y -> exists msg, loop_body today b y = Throw (OverflowError msg).
Proof.
  intros Hy. unfold loop_body, replace_year.
  destruct (LONG_MAX <? y); [eexists; reflexivity|].
  replace (INT_MAX <? y) with true by (symmetry; apply Z.ltb_lt; lia).
  eexists; reflexivity.
Qed.

Lemma loop_body_candidate (y : Z) :
  is_candidate today b y = true ->
  loop_body today b y = Return (sub_days (candidate b y) today).
Proof.
  intros H. pose proof (is_candidate_year y H) as Hy.
  rewrite loop_body_eq by (unfold MAXYEAR, INT_MAX in *; lia). now rewrite H.
Qed.

Lemma loop_body_return (y days : Z) :
  loop_body today b y = Return days ->
  is_candidate today b y = true /\ days = sub_days (candidate b y) today.
Proof.
  destruct (Z_le_gt_dec y INT_MAX) as [L|G].
  - rewrite loop_body_eq by exact L.
    destruct (is_candidate today b y); [|discriminate].
    intros H; injection H as <-; auto.
  - destruct (loop_body_overflow y) as (msg & ->); [lia|discriminate].
Qed.

Lemma loop_body_continue (y y' : Z) :
  loop_body today b y = Continue y' ->
  y' = y + 1 /\ is_candidate today b y = false.
Proof.
  destruct (Z_le_gt_dec y INT_MAX) as [L|G].
  - rewrite loop_body_eq by exact L.
    destruct (is_candidate today b y); [discriminate|].
    intros H; injection H as <-; auto.
  - destruct (loop_body_overflow y) as (msg & ->); [lia|discriminate].
Qed.

Lemma loop_mono (fuel fuel' : nat) (y : Z) (days : Z) :
  loop fuel today b y = Done days -> (fuel <= fuel')%nat ->
  loop fuel' today b y = Done days.
Proof.
  revert fuel' y; induction fuel as [|f IH]; intros fuel' y H L; [discriminate|].
  destruct fuel' as [|f']; [lia|].
  simpl in *. destruct (loop_body today b y); auto.
  apply IH; [assumption|lia].
Qed.

(** The loop raises nothing but the [OverflowError] of the year. *)
Lemma loop_raised_inv (fuel : nat) :
  forall (y : Z) (e : exn),
    loop fuel today b y = Raised e -> exists msg, e = OverflowError msg.
Proof.
  induction fuel as [|f IH]; intros y e; simpl; [discriminate|].
  destruct (Z_le_gt_dec y INT_MAX) as [L|G].
  - rewrite loop_body_eq by exact L.
    destruct (is_candidate today b y); [discriminate|apply IH].
  - destruct (loop_body_overflow y) as (msg & ->); [lia|].
    intros H; injection H as <-; eauto.
Qed.

(** The loop returns at the first year whose candidate counts. *)
Lemma loop_finds (k : nat) :
  forall (y0 : Z) (fuel : nat),
    (forall y', y0 <= y' < y0 + Z.of_nat k -> is_candidate today b y' = false) ->
    is_candidate today b (y0 + Z.of_nat k) = true ->
    (k < fuel)%nat ->
    loop fuel today b y0 = Done (sub_days (candidate b (y0 + Z.of_nat k)) today).
Proof.
  induction k as [|k IH]; intros y0 fuel Hno Hyes Hf;
    (destruct fuel as [|f]; [lia|]); simpl loop.
  - replace (y0 + Z.of_nat 0) with y0 in * by lia.
    now rewrite (loop_body_candidate y0 Hyes).
  - pose proof (is_candidate_year _ Hyes) as Hy.
    rewrite loop_body_eq by (unfold MAXYEAR, INT_MAX in *; lia).
    rewrite Hno by lia.
    replace (y0 + Z.of_nat (S k)) with (y0 + 1 + Z.of_nat k) in * by lia.
    apply IH; [intros; apply Hno; lia|assumption|lia].
Qed.

(** Whatever the loop returns is the offset of such a year. *)
Lemma loop_done_inv (fuel : nat) :
  forall (y0 days : Z),
    loop fuel today b y0 = Done days ->
    exists y, y0 <= y /\ is_candidate today b y = true /\
              (forall y', y0 <= y' < y -> is_candidate today b y' = false) /\
              days = sub_days (candidate b y) today.
Proof.
  induction fuel as [|f IH]; intros y0 days H; [discriminate|].
  simpl in H. destruct (loop_body today b y0) as [y1|d|e] eqn:E.
  - apply loop_body_continue in E. destruct E as [-> E].
    apply IH in H; destruct H as (y & Hy & Hc & Hmin & ->).
    exists y; repeat split; auto; [lia|].
    intros y' Hy'. destruct (Z.eq_dec y' y0) as [->|]; [assumption|apply Hmin; lia].
  - apply loop_body_return in E. destruct E as [E ->].
    injection H as <-. exists y0; repeat split; auto; [lia|intros; lia].
  - discriminate.
Qed.

(** With no such year ahead the loop never returns: it goes on until the
    year no longer fits a C [int], and then raises. *)
Lemma loop_without_candidate (fuel : nat) :
  forall y0,
    y0 <= INT_MAX + 1 ->
    (forall y, y0 <= y -> is_candidate today b y = false) ->
    loop fuel today b y0 =
    if Z.of_nat fuel <=? INT_MAX + 1 - y0 then OutOfFuel
    else Raised (OverflowError "signed integer is greater than maximum").
Proof.
  induction fuel as [|f IH]; intros y0 Hy H.
  - simpl loop. destruct (Z.leb_spec (Z.of_nat 0) (INT_MAX + 1 - y0)); [reflexivity|lia].
  - simpl loop. destruct (Z_le_gt_dec y0 INT_MAX) as [L|G].
    + rewrite loop_body_eq, H by lia.
      rewrite IH; [|lia|intros; apply H; lia].
      destruct (Z.leb_spec (Z.of_nat f) (INT_MAX + 1 - (y0 + 1))),
               (Z.leb_spec (Z.of_nat (S f)) (INT_MAX + 1 - y0)); try reflexivity; lia.
    + assert (y0 = INT_MAX + 1) by lia. subst y0.
      destruct (Z.leb_spec (Z.of_nat (S f)) (INT_MAX + 1 - (INT_MAX + 1))); [lia|].
      reflexivity.
Qed.

Lemma no_candidate_past_maxyear (y : Z) :
  MAXYEAR < y -> is_candidate today b y = false.
Proof.
  intros H; unfold is_candidate, valid_date, check_date_fields, candidate; simpl.
  replace (y <=? MAXYEAR) with false by (symmetry; apply Z.leb_gt; lia).
  now rewrite andb_false_r.
Qed.

Lemma loop_returns_within (k : nat) :
  forall (y0 : Z) (fuel : nat),
    (exists j, (j <= k)%nat /\ is_candidate today b (y0 + Z.of_nat j) = true) ->
    (k < fuel)%nat ->
    exists days, loop fuel today b y0 = Done days.
Proof.
  induction k as [|k IH]; intros y0 fuel (j & Hj & Hc) Hf;
    (destruct fuel as [|f]; [lia|]); simpl loop.
  - assert (j = O) by lia; subst j.
    replace (y0 + Z.of_nat 0) with y0 in Hc by lia.
    rewrite (loop_body_candidate y0 Hc); eauto.
  - pose proof (is_candidate_year _ Hc) as Hy.
    rewrite loop_body_eq by (unfold MAXYEAR, INT_MAX in *; lia).
    destruct (is_candidate today b y0) eqn:E; [eauto|].
    destruct j as [|j]; [replace (y0 + Z.of_nat 0) with y0 in Hc by lia; congruence|].
    apply IH; [|lia]. exists j; split; [lia|].
    replace (y0 + 1 + Z.of_nat j) with (y0 + Z.of_nat (S j)) by lia. assumption.
Qed.

End NextBirthday.

Lemma leap_within_8 (t : Z) : exists k, 1 <= k <= 8 /\ is_leap (t + k) = true.
Proof.
  destruct (is_leap (t + (4 - t mod 4))) eqn:E.
  - exists (4 - t mod 4); split; [|assumption].
    Z.to_euclidean_division_equations; lia.
  - exists (8 - t mod 4); split; [Z.to_euclidean_division_equations; lia|].
    unfold is_leap in *.
    apply andb_false_iff in E.
    apply andb_true_iff; split.
    + apply Z.eqb_eq. Z.to_euclidean_division_equations; lia.
    + apply orb_true_iff; left. apply negb_true_iff, Z.eqb_neq.
      destruct E as [E|E].
      * apply Z.eqb_neq in E. Z.to_euclidean_division_equations; lia.
      * apply orb_false_iff in E; destruct E as [E _].
        apply negb_false_iff, Z.eqb_eq in E.
        Z.to_euclidean_division_equations; lia.
Qed.

(** A month and day that exist in some year exist in every leap year. *)
Lemma days_in_month_leap (y y' m : Z) :
  is_leap y' = true -> days_in_month y m <= days_in_month y' m.
Proof.
  intros L; unfold days_in_month; rewrite L.
  destruct (Z.eqb_spec m 2) as [->|]; simpl; [|lia].
  destruct (is_leap y); simpl; lia.
Qed.

Lemma candidate_within_8 (today b : date) :
  valid_date today = true -> valid_date b = true ->
  year today + 8 <= MAXYEAR ->
  exists j, (j <= 8)%nat /\ is_candidate today b (year today + Z.of_nat j) = true.
Proof.
  intros Vt Vb Hy.
  apply valid_date_fields in Vt; destruct Vt as (Hty & _).
  apply valid_date_fields in Vb; destruct Vb as (_ & Hm & Hd).
  destruct (leap_within_8 (year today)) as (k & Hk & L).
  exists (Z.to_nat k); split; [lia|].
  rewrite Z2Nat.id by lia.
  pose proof (days_in_month_leap (year b) _ (month b) L) as D.
  unfold is_candidate, valid_date, check_date_fields, candidate; simpl.
  apply andb_true_iff; split.
  - repeat (apply andb_true_iff; split); apply Z.leb_le; unfold MINYEAR, MAXYEAR in *; lia.
  - rewrite date_geb_ltb; apply negb_true_iff.
    destruct (date_ltb _ today) eqn:E; [|reflexivity].
    apply date_ltb_iff in E; simpl in E; lia.
Qed.

(** Away from the last years of the calendar nine passes are enough. *)
Lemma loop_returns (today b : date) (fuel : nat) :
  valid_date today = true -> valid_date b = true ->
  year today + 8 <= MAXYEAR -> (8 < fuel)%nat ->
  exists days, loop fuel today b (year today) = Done days.
Proof.
  intros Vt Vb Hy Hf.
  apply (loop_returns_within today b 8); [|assumption].
  now apply candidate_within_8.
Qed.

(** C1. For a record with a birthday, [days_to_birthday] returns the number
    of days from [today] to the candidate (y, month, day) of the smallest
    year [y >= today.year] whose candidate is a calendar date not before
    [today], a number that is not negative; born 25.12.1990 and asked on
    26.12.2023 it returns the offset to 25.12.2024.  With no birthday it
    returns [None]. *)
Theorem days_to_birthday_next_occurrence :
  (forall fuel today r,
      birthday r = None -> Record_days_to_birthday fuel today r = Done None) /\
  (forall today r b y fuel,
      has_birthday r b -> next_birthday_year today b y ->
      (Z.to_nat (y - year today) < fuel)%nat ->
      Record_days_to_birthday fuel today r =
        Done (Some (toordinal (candidate b y) - toordinal today)) /\
      (valid_date today = true ->
       0 <= toordinal (candidate b y) - toordinal today)) /\
  (forall k n ph,
      Record_days_to_birthday (S (S k)) (mkdate 2023 12 26)
        (mkRecord n ph (Some (mkBirthday (Some (mkdate 1990 12 25))))) =
        Done (Some (toordinal (mkdate 2024 12 25) - toordinal (mkdate 2023 12 26))) /\
      0 <= toordinal (mkdate 2024 12 25) - toordinal (mkdate 2023 12 26)).
Proof.
  assert (G : forall today r b y fuel,
      has_birthday r b -> next_birthday_year today b y ->
      (Z.to_nat (y - year today) < fuel)%nat ->
      Record_days_to_birthday fuel today r =
        Done (Some (toordinal (candidate b y) - toordinal today)) /\
      (valid_date today = true ->
       0 <= toordinal (candidate b y) - toordinal today)).
  { intros today r b y fuel Hb (Hy & Hc & Hmin) Hf. split.
    - unfold Record_days_to_birthday; rewrite Hb; simpl.
      pose proof (loop_finds today b (Z.to_nat (y - year today)) (year today) fuel) as L.
      rewrite Z2Nat.id in L by lia.
      replace (year today + (y - year today)) with y in L by lia.
      rewrite L; [reflexivity| |assumption|assumption].
      intros y' Hy'; apply Hmin; lia.
    - intros Vt. apply andb_true_iff in Hc; destruct Hc as [Vc Gc].
      now apply (sub_days_nonneg (candidate b y) today). }
  split; [|split].
  - intros fuel today r Hb. unfold Record_days_to_birthday. now rewrite Hb.
  - exact G.
  - intros k n ph.
    destruct (G (mkdate 2023 12 26)
                (mkRecord n ph (Some (mkBirthday (Some (mkdate 1990 12 25)))))
                (mkdate 1990 12 25) 2024 (S (S k)) eq_refl) as [E N].
    + split; [simpl; lia|split; [reflexivity|]].
      intros y' Hy'; simpl in Hy'. assert (y' = 2023) by lia; subst y'. reflexivity.
    + change (Z.to_nat (2024 - year (mkdate 2023 12 26))) with 1%nat. lia.
    + split; [exact E|exact (N eq_refl)].
Qed.

(** C2. Born 29.02.2000 and asked on 01.03.2023: year 2023 has no 29
    February, so its candidate is skipped, and the result is the 365 days
    to 29.02.2024. *)
Theorem days_to_birthday_feb29_in_2023 :
  forall (k : nat) (n : Name) (ph : list Phone),
    strptime_dmY "29.02.2000" = Ok (mkdate 2000 2 29) /\
    is_leap 2023 = false /\
    replace_year (mkdate 2000 2 29) 2023 =
      Err (ValueError "date value out of range") /\
    loop_body (mkdate 2023 3 1) (mkdate 2000 2 29) 2023 = Continue 2024 /\
    Record_days_to_birthday (S (S k)) (mkdate 2023 3 1)
      (mkRecord n ph (Some (mkBirthday (Some (mkdate 2000 2 29))))) =
      Done (Some 365) /\
    sub_days (mkdate 2024 2 29) (mkdate 2023 3 1) = 365.
Proof. intros k n ph. repeat split; reflexivity. Qed.

(** C10. The search does not find a candidate for every [today].  In the
    last year of the calendar, once the birthday has passed, no year from
    9999 on has a candidate: above 9999 [replace] raises the [ValueError]
    the loop takes for a missing 29 February, and the loop goes on.  It
    ends only when the year no longer fits a C [int], after 2147473649
    passes, by raising an [OverflowError], which neither the loop nor
    [input_error] catches.  So for no number of passes does the call
    return a result, and the query of the week on a book with such a
    record raises as well. *)
Theorem days_to_birthday_never_returns_in_9999 :
  strptime_dmY "01.01.2000" = Ok (mkdate 2000 1 1) /\
  valid_date (mkdate 9999 12 31) = true /\
  INT_MAX + 1 - 9999 = 2147473649 /\
  forall (fuel : nat) (n : Name) (ph : list Phone),
    Record_days_to_birthday fuel (mkdate 9999 12 31)
      (mkRecord n ph (Some (mkBirthday (Some (mkdate 2000 1 1))))) =
    (if Z.of_nat fuel <=? 2147473649 then OutOfFuel
     else Raised (OverflowError "signed integer is greater than maximum")) /\
    match Record_days_to_birthday fuel (mkdate 9999 12 31)
            (mkRecord n ph (Some (mkBirthday (Some (mkdate 2000 1 1))))) with
    | Done _ => False
    | _ => True
    end /\
    get_upcoming_birthdays fuel (mkdate 9999 12 31)
      [(name_value n, mkRecord n ph (Some (mkBirthday (Some (mkdate 2000 1 1)))))] =
    (if Z.of_nat fuel <=? 2147473649 then OutOfFuel
     else Raised (OverflowError "signed integer is greater than maximum"), []).
Proof.
  split; [reflexivity|split; [reflexivity|split; [reflexivity|]]].
  intros fuel n ph.
  assert (E : Record_days_to_birthday fuel (mkdate 9999 12 31)
                (mkRecord n ph (Some (mkBirthday (Some (mkdate 2000 1 1))))) =
              (if Z.of_nat fuel <=? 2147473649 then OutOfFuel
               else Raised (OverflowError "signed integer is greater than maximum"))).
  { unfold Record_days_to_birthday. cbn [birthday birthday_value year].
    rewrite loop_without_candidate.
    - change (INT_MAX + 1 - 9999) with 2147473649.
      now destruct (Z.of_nat fuel <=? 2147473649).
    - unfold INT_MAX; lia.
    - intros y Hy. destruct (Z.eq_dec y 9999) as [->|]; [reflexivity|].
      apply no_candidate_past_maxyear; unfold MAXYEAR; lia. }
  split; [exact E|split].
  - rewrite E. now destruct (Z.of_nat fuel <=? 2147473649).
  - unfold get_upcoming_birthdays, AddressBook_upcoming_birthdays, dict_values.
    cbn [map snd collect_upcoming]. rewrite E.
    now destruct (Z.of_nat fuel <=? 2147473649).
Qed.

(** ** The upcoming-birthdays query *)

Section Upcoming.

Variables (fuel : nat) (today : date) (days : Z).

Lemma days_to_birthday_done_inv (r : ContactRecord) (off : Z) :
  Record_days_to_birthday fuel today r = Done (Some off) ->
  exists b y, has_birthday r b /\ next_birthday_year today b y /\
              off = sub_days (candidate b y) today.
Proof.
  unfold Record_days_to_birthday, has_birthday.
  destruct (birthday r) as [[[b|]]|]; simpl; try discriminate.
  destruct (loop fuel today b (year today)) as [d| |] eqn:L; simpl; try discriminate.
  intros H. assert (d = off) by congruence. subst off.
  apply loop_done_inv in L; destruct L as (y & Hy & Hc & Hmin & ->).
  exists b, y; repeat split; auto.
Qed.

(** [today + timedelta(days=off)] is the candidate date: it is in range. *)
Lemma add_days_offset (r : ContactRecord) (off : Z) :
  Record_days_to_birthday fuel today r = Done (Some off) ->
  add_days today off = Ok (ord2ymd (toordinal today + off)).
Proof.
  intros H; apply days_to_birthday_done_inv in H.
  destruct H as (b & y & _ & (_ & Hc & _) & ->).
  apply andb_true_iff in Hc; destruct Hc as [V _].
  apply toordinal_range in V.
  unfold add_days, sub_days.
  replace (toordinal today + (toordinal (candidate b y) - toordinal today))
    with (toordinal (candidate b y)) by lia.
  replace (0 <? toordinal (candidate b y)) with true
    by (symmetry; apply Z.ltb_lt; lia).
  replace (toordinal (candidate b y) <=? MAXORDINAL) with true
    by (symmetry; apply Z.leb_le; lia).
  reflexivity.
Qed.

(** The date reported for an offset the search returned is the candidate
    date itself: the birthday in the year found. *)
Lemma reported_date_is_candidate (b : date) (y : Z) :
  next_birthday_year today b y ->
  ord2ymd (toordinal today + sub_days (candidate b y) today) = candidate b y.
Proof.
  intros (_ & Hc & _). apply andb_true_iff in Hc; destruct Hc as [V _].
  unfold sub_days.
  replace (toordinal today + (toordinal (candidate b y) - toordinal today))
    with (toordinal (candidate b y)) by lia.
  now apply ord2ymd_toordinal.
Qed.

Variable offset_of : ContactRecord -> option Z.

Lemma collect_upcoming_eq (records : list ContactRecord) :
  (forall r, In r records -> Record_days_to_birthday fuel today r = Done (offset_of r)) ->
  forall upcoming,
    collect_upcoming fuel today days records upcoming =
    Done (upcoming ++ flat_map (fun r => upcoming_entry today days r (offset_of r)) records).
Proof.
  induction records as [|r rest IH]; intros H upcoming; simpl.
  - now rewrite app_nil_r.
  - pose proof (H r (or_introl eq_refl)) as Hr. rewrite Hr; simpl.
    assert (Hrest : forall r', In r' rest ->
              Record_days_to_birthday fuel today r' = Done (offset_of r'))
      by (intros; apply H; now right).
    unfold upcoming_entry at 1.
    destruct (offset_of r) as [off|]; [|now apply IH].
    destruct ((0 <=? off) && (off <=? days)); [|now apply IH].
    rewrite (add_days_offset r off Hr); simpl.
    rewrite IH by assumption. now rewrite <- app_assoc.
Qed.

End Upcoming.

Section SortByDate.

Lemma insert_by_date_perm (x : string * date) (l : list (string * date)) :
  Permutation (insert_by_date x l) (x :: l).
Proof.
  induction l as [|y l IH]; simpl; [reflexivity|].
  destruct (date_ltb (snd y) (snd x)); [|reflexivity].
  rewrite IH. apply perm_swap.
Qed.

Lemma sort_by_date_perm (l : list (string * date)) :
  Permutation (sort_by_date l) l.
Proof.
  induction l as [|x l IH]; simpl; [reflexivity|].
  rewrite insert_by_date_perm. now constructor.
Qed.

Lemma date_order_trans (x y z : string * date) :
  date_order x y -> date_order y z -> date_order x z.
Proof. unfold date_order; intros H1 H2. exact (date_nlt_trans _ _ _ H1 H2). Qed.

Lemma insert_by_date_sorted (x : string * date) (l : list (string * date)) :
  StronglySorted date_order l -> StronglySorted date_order (insert_by_date x l).
Proof.
  induction l as [|y l IH]; intros S; simpl.
  - repeat constructor.
  - inversion S as [|? ? Sl Fl]; subst.
    destruct (date_ltb (snd y) (snd x)) eqn:E.
    + constructor; [now apply IH|].
      apply (Permutation_Forall (Permutation_sym (insert_by_date_perm x l))).
      constructor; [|assumption].
      unfold date_order.
      destruct (date_ltb (snd x) (snd y)) eqn:E'; [|reflexivity].
      pose proof (date_ltb_trans _ _ _ E E') as T.
      now rewrite date_ltb_irrefl in T.
    + constructor; [assumption|].
      constructor; [exact E|].
      eapply Forall_impl; [|exact Fl].
      intros z Hz. apply (date_order_trans x y z); [exact E|exact Hz].
Qed.

Lemma sort_by_date_sorted (l : list (string * date)) :
  StronglySorted date_order (sort_by_date l).
Proof.
  induction l as [|x l IH]; simpl; [constructor|now apply insert_by_date_sorted].
Qed.

(** Stability: the entries of one date keep the order they had. *)
Lemma insert_by_date_stable (d : date) (x : string * date) (l : list (string * date)) :
  filter (on_date d) (insert_by_date x l) = filter (on_date d) (x :: l).
Proof.
  induction l as [|y l IH]; [reflexivity|].
  simpl insert_by_date.
  destruct (date_ltb (snd y) (snd x)) eqn:E; [|reflexivity].
  simpl filter in *. rewrite IH.
  destruct (on_date d x) eqn:Ex; [|reflexivity].
  destruct (on_date d y) eqn:Ey; [|reflexivity].
  unfold on_date in *. apply date_eqb_eq in Ex, Ey.
  rewrite Ex, Ey, date_ltb_irrefl in E. discriminate.
Qed.

Lemma sort_by_date_stable (d : date) (l : list (string * date)) :
  filter (on_date d) (sort_by_date l) = filter (on_date d) l.
Proof.
  induction l as [|x l IH]; [reflexivity|].
  simpl sort_by_date. rewrite insert_by_date_stable. simpl. now rewrite IH.
Qed.

End SortByDate.

(** C3. When the offset of every record's next birthday is computed, the
    query returns a list holding exactly one entry (name, today + offset)
    for each record whose birthday is set and whose offset lies in
    [0, days], and nothing else: a record without birthday or with an
    offset outside contributes nothing, offset [days] is in and [days + 1]
    is out, and the list can be empty. *)
Theorem upcoming_birthdays_entries
    (fuel : nat) (today : date) (book : AddressBook) (days : Z)
    (offset_of : ContactRecord -> option Z) :
  (forall r, In r (dict_values book) ->
             Record_days_to_birthday fuel today r = Done (offset_of r)) ->
  (exists l,
      AddressBook_upcoming_birthdays fuel today book days = Done l /\
      Permutation l
        (flat_map (fun r => upcoming_entry today days r (offset_of r))
                  (dict_values book))) /\
  (forall r, offset_of r = None -> upcoming_entry today days r (offset_of r) = []) /\
  (forall r off, offset_of r = Some off -> (off < 0 \/ days < off) ->
                 upcoming_entry today days r (offset_of r) = []) /\
  (forall r off, offset_of r = Some off -> 0 <= off <= days ->
                 upcoming_entry today days r (offset_of r) =
                 [(name_value (name r), ord2ymd (toordinal today + off))]) /\
  (forall r, 0 <= days -> upcoming_entry today days r (Some days) =
                          [(name_value (name r), ord2ymd (toordinal today + days))]) /\
  (forall r, upcoming_entry today days r (Some (days + 1)) = []) /\
  AddressBook_upcoming_birthdays fuel today [] days = Done [].
Proof.
  intros H. split; [|repeat split].
  - unfold AddressBook_upcoming_birthdays.
    rewrite (collect_upcoming_eq fuel today days offset_of _ H); simpl.
    eexists; split; [reflexivity|apply sort_by_date_perm].
  - intros r E; now rewrite E.
  - intros r off E R; rewrite E; unfold upcoming_entry.
    destruct R; [replace (0 <=? off) with false by (symmetry; apply Z.leb_gt; lia)
                |replace (off <=? days) with false by (symmetry; apply Z.leb_gt; lia)];
      now rewrite ?andb_false_r.
  - intros r off E R; rewrite E; unfold upcoming_entry.
    replace (0 <=? off) with true by (symmetry; apply Z.leb_le; lia).
    replace (off <=? days) with true by (symmetry; apply Z.leb_le; lia).
    reflexivity.
  - intros r R; unfold upcoming_entry.
    replace (0 <=? days) with true by (symmetry; apply Z.leb_le; lia).
    now rewrite Z.leb_refl.
  - intros r; unfold upcoming_entry.
    replace (days + 1 <=? days) with false by (symmetry; apply Z.leb_gt; lia).
    now rewrite andb_false_r.
Qed.

(** C4. The list the query returns is in ascending order of the reported
    date, and the entries of any one date stand in the order in which the
    address book iterates over their records, its insertion order. *)
Theorem upcoming_birthdays_sorted_stable
    (fuel : nat) (today : date) (book : AddressBook) (days : Z)
    (offset_of : ContactRecord -> option Z) :
  (forall r, In r (dict_values book) ->
             Record_days_to_birthday fuel today r = Done (offset_of r)) ->
  exists l,
    AddressBook_upcoming_birthdays fuel today book days = Done l /\
    StronglySorted date_order l /\
    forall d,
      filter (on_date d) l =
      filter (on_date d)
        (flat_map (fun r => upcoming_entry today days r (offset_of r))
                  (dict_values book)).
Proof.
  intros H. unfold AddressBook_upcoming_birthdays.
  rewrite (collect_upcoming_eq fuel today days offset_of _ H); simpl.
  eexists; split; [reflexivity|split].
  - apply sort_by_date_sorted.
  - intros d; apply sort_by_date_stable.
Qed.

(** Away from the last years of the calendar the offsets are computed, so
    the query returns. *)
Lemma days_to_birthday_returns (fuel : nat) (today : date) (r : ContactRecord) :
  valid_date today = true -> birthday_ok r ->
  year today + 8 <= MAXYEAR -> (8 < fuel)%nat ->
  exists o, Record_days_to_birthday fuel today r = Done o.
Proof.
  intros Vt Ok Hy Hf. unfold Record_days_to_birthday.
  pose proof (Ok) as Ok'. unfold birthday_ok in Ok'.
  destruct (birthday r) as [b|]; [|eauto].
  destruct (Ok' b eq_refl) as (d & -> & Vd).
  destruct (loop_returns today d fuel Vt Vd Hy Hf) as (days & ->).
  simpl; eauto.
Qed.

Lemma upcoming_birthdays_returns
    (fuel : nat) (today : date) (book : AddressBook) (days : Z) :
  valid_date today = true ->
  (forall r, In r (dict_values book) -> birthday_ok r) ->
  year today + 8 <= MAXYEAR -> (8 < fuel)%nat ->
  exists l, AddressBook_upcoming_birthdays fuel today book days = Done l.
Proof.
  intros Vt Ok Hy Hf. unfold AddressBook_upcoming_birthdays.
  rewrite (collect_upcoming_eq fuel today days
             (fun r => match Record_days_to_birthday fuel today r with
                       | Done o => o
                       | _ => None
                       end)).
  - simpl; eauto.
  - intros r I.
    destruct (days_to_birthday_returns fuel today r Vt (Ok r I) Hy Hf) as (o & ->).
    reflexivity.
Qed.

(** ** The record store *)

Section Dict.

Lemma dict_get_set_eq (d : AddressBook) (k : string) (v : ContactRecord) :
  dict_get (dict_set d k v) k = Some v.
Proof.
  induction d as [|[k' v'] d IH]; simpl.
  - now rewrite String.eqb_refl.
  - destruct (String.eqb_spec k' k) as [->|N]; simpl.
    + now rewrite String.eqb_refl.
    + destruct (String.eqb_spec k' k); [contradiction|assumption].
Qed.

Lemma dict_get_set_ne (d : AddressBook) (k k' : string) (v : ContactRecord) :
  k <> k' -> dict_get (dict_set d k v) k' = dict_get d k'.
Proof.
  intros N; induction d as [|[k0 v0] d IH]; simpl.
  - destruct (String.eqb_spec k k'); [contradiction|reflexivity].
  - destruct (String.eqb_spec k0 k) as [->|N0]; simpl.
    + destruct (String.eqb_spec k k'); [contradiction|reflexivity].
    + destruct (String.eqb_spec k0 k'); [reflexivity|assumption].
Qed.

Lemma dict_get_in_keys (d : AddressBook) (k : string) :
  In k (dict_keys d) <-> dict_get d k <> None.
Proof.
  induction d as [|[k' v'] d IH]; simpl; [tauto|].
  destruct (String.eqb_spec k' k) as [->|N]; [split; [discriminate|auto]|].
  rewrite <- IH; split; [intros [E|I]; [contradiction|assumption]|auto].
Qed.

(** Writing under a key the dict has keeps the keys as they are. *)
Lemma dict_set_keys_present (d : AddressBook) (k : string) (v : ContactRecord) :
  dict_get d k <> None -> dict_keys (dict_set d k v) = dict_keys d.
Proof.
  induction d as [|[k' v'] d IH]; simpl; [congruence|].
  destruct (String.eqb_spec k' k) as [->|N]; simpl; [reflexivity|].
  intros H; f_equal; now apply IH.
Qed.

(** Writing under a new key adds the item at the end. *)
Lemma dict_set_absent (d : AddressBook) (k : string) (v : ContactRecord) :
  dict_get d k = None -> dict_set d k v = d ++ [(k, v)].
Proof.
  induction d as [|[k' v'] d IH]; simpl; [reflexivity|].
  destruct (String.eqb_spec k' k) as [->|N]; [discriminate|].
  intros H; f_equal; now apply IH.
Qed.

Lemma dict_set_same (d : AddressBook) (k : string) (v : ContactRecord) :
  dict_get d k = Some v -> dict_set d k v = d.
Proof.
  induction d as [|[k' v'] d IH]; simpl; [discriminate|].
  destruct (String.eqb_spec k' k) as [->|N].
  - intros H; injection H as ->; reflexivity.
  - intros H; f_equal; now apply IH.
Qed.

Lemma dict_set_nodup (d : AddressBook) (k : string) (v : ContactRecord) :
  NoDup (dict_keys d) -> NoDup (dict_keys (dict_set d k v)).
Proof.
  intros H. destruct (dict_get d k) eqn:E.
  - rewrite dict_set_keys_present; [assumption|congruence].
  - rewrite dict_set_absent by assumption.
    unfold dict_keys; rewrite map_app; simpl.
    apply NoDup_app; [assumption|repeat constructor; auto|].
    intros a Ha [<-|[]].
    apply dict_get_in_keys in Ha; contradiction.
Qed.

End Dict.

(** C9. [add_record] stores the record under its name whatever the book
    holds: [find] of that name then returns it, a record that was there
    under the name is replaced, keeping its place, the records of all other
    names stay, and the keys stay distinct. *)
Theorem add_record_overwrites :
  (forall book r,
      fst (AddressBook_add_record book r) = "Record added"%string /\
      AddressBook_find (snd (AddressBook_add_record book r)) (name_value (name r))
        = Some r) /\
  (forall book r n,
      n <> name_value (name r) ->
      AddressBook_find (snd (AddressBook_add_record book r)) n
        = AddressBook_find book n) /\
  (forall book r old,
      AddressBook_find book (name_value (name r)) = Some old ->
      dict_keys (snd (AddressBook_add_record book r)) = dict_keys book) /\
  (forall book r,
      AddressBook_find book (name_value (name r)) = None ->
      snd (AddressBook_add_record book r) = book ++ [(name_value (name r), r)]) /\
  (forall book r,
      NoDup (dict_keys book) ->
      NoDup (dict_keys (snd (AddressBook_add_record book r)))).
Proof.
  unfold AddressBook_add_record, AddressBook_find; simpl.
  split; [|split; [|split; [|split]]].
  - intros book r; split; [reflexivity|apply dict_get_set_eq].
  - intros book r n N; apply dict_get_set_ne; congruence.
  - intros book r old H; apply dict_set_keys_present; congruence.
  - intros book r H; now apply dict_set_absent.
  - intros book r H; now apply dict_set_nodup.
Qed.

(** ** The one-shot birthday *)

Section Birthday.

Lemma snd_input_error (x : result bool * AddressBook) : snd (input_error x) = snd x.
Proof. destruct x as [[? | []] ?]; reflexivity. Qed.

Lemma call_method_keeps_birthday (m : record_method) (r : ContactRecord) (b : Birthday) :
  birthday r = Some b ->
  exists msg r', call_method m r = Ok (msg, r') /\ birthday r' = Some b.
Proof.
  intros H; destruct m as [p | o n | p | s]; simpl.
  - eexists _, _; split; [reflexivity|exact H].
  - unfold Record_edit_phone; destruct (Record_find_phone r o);
      eexists _, _; split; try reflexivity; exact H.
  - unfold Record_remove_phone; destruct (Record_find_phone r p);
      eexists _, _; split; try reflexivity; exact H.
  - unfold Record_add_birthday; rewrite H.
    eexists _, _; split; [reflexivity|exact H].
Qed.

(** Writing a changed record back under its key keeps the birthday found
    under any key, as long as the change itself kept the birthday. *)
Lemma write_back_keeps_birthday
    (book : AddressBook) (n n' : string) (r rec rec' : ContactRecord) (b : Birthday) :
  dict_get book n = Some r -> birthday r = Some b ->
  dict_get book n' = Some rec -> birthday rec' = birthday rec ->
  exists r', dict_get (dict_set book n' rec') n = Some r' /\ birthday r' = Some b.
Proof.
  intros Hr Hb Hrec Hsame.
  destruct (string_dec n' n) as [->|N].
  - exists rec'; split; [apply dict_get_set_eq|].
    rewrite Hsame. congruence.
  - exists r; split; [|assumption]. now rewrite dict_get_set_ne.
Qed.

Lemma exec_keeps_birthday
    (c : command) (book : AddressBook) (n : string) (r : ContactRecord) (b : Birthday) :
  AddressBook_find book n = Some r -> birthday r = Some b ->
  exists r', AddressBook_find (snd (exec c book)) n = Some r' /\ birthday r' = Some b.
Proof.
  unfold AddressBook_find; intros Hr Hb.
  assert (Same : exists r', dict_get book n = Some r' /\ birthday r' = Some b)
    by (exists r; auto).
  destruct c as [n' p | n' p | n' s]; unfold exec.
  - unfold add_contact; rewrite snd_input_error.
    unfold add_contact_body, raise, AddressBook_find.
    destruct (validate_name n'); simpl; [|exact Same].
    destruct (validate_phone_number p); simpl; [|exact Same].
    destruct (dict_get book n') as [rec|] eqn:F.
    + destruct (Record_find_phone rec p); simpl; [exact Same|].
      now apply (write_back_keeps_birthday book n n' r rec _ b).
    + simpl. exists r; split; [|assumption].
      rewrite dict_get_set_ne; [assumption|congruence].
  - unfold change_contact; rewrite snd_input_error.
    unfold change_contact_body, raise, AddressBook_find.
    destruct (validate_phone_number p); simpl; [|exact Same].
    destruct (dict_get book n') as [rec|] eqn:F; [|exact Same].
    destruct (phones rec) as [|first rest] eqn:P; simpl.
    + now apply (write_back_keeps_birthday book n n' r rec _ b).
    + unfold Record_edit_phone.
      destruct (Record_find_phone rec (phone_value first)); simpl;
        now apply (write_back_keeps_birthday book n n' r rec _ b).
  - unfold add_birthday; rewrite snd_input_error.
    unfold add_birthday_body, raise, AddressBook_find.
    destruct (validate_name n'); simpl; [|exact Same].
    destruct (validate_birthday s); simpl; [|exact Same].
    destruct (dict_get book n') as [rec|] eqn:F; [|exact Same].
    destruct (string_dec n' n) as [->|N].
    + assert (rec = r) by congruence; subst rec.
      unfold Record_add_birthday; rewrite Hb; simpl.
      rewrite dict_set_same by assumption. exact Same.
    + destruct (Record_add_birthday rec s) as [[msg rec']|]; simpl; try exact Same.
      assert (G : exists r', dict_get (dict_set book n' rec') n = Some r' /\
                             birthday r' = Some b)
        by (exists r; split; [now rewrite dict_get_set_ne|assumption]).
      destruct (negb (String.eqb msg "Birthday is set")); exact G.
Qed.

Lemma exec_all_keeps_birthday (cs : list command) :
  forall (book : AddressBook) (n : string) (r : ContactRecord) (b : Birthday),
    AddressBook_find book n = Some r -> birthday r = Some b ->
    exists r', AddressBook_find (exec_all cs book) n = Some r' /\ birthday r' = Some b.
Proof.
  induction cs as [|c cs IH]; intros book n r b F H; simpl; [eauto|].
  destruct (exec_keeps_birthday c book n r b F H) as (r1 & F1 & H1).
  exact (IH _ n r1 b F1 H1).
Qed.

(** The dates [strptime] returns exist, so the birthdays the commands store
    do. *)
Lemma strptime_valid (s : string) (d : date) :
  strptime_dmY s = Ok d -> valid_date d = true.
Proof.
  unfold strptime_dmY, new_date.
  destruct (format_regex s) as [|[[[dd m] Y] rest] l]; [discriminate|].
  destruct rest; [|discriminate].
  destruct (check_date_fields (py_int Y) (py_int m) (py_int dd)) eqn:V; [|discriminate].
  intros H; injection H as <-. exact V.
Qed.

Lemma add_birthday_ok (r r' : ContactRecord) (s msg : string) :
  birthday_ok r -> Record_add_birthday r s = Ok (msg, r') -> birthday_ok r'.
Proof.
  unfold Record_add_birthday, Birthday_init, Birthday_add_birthday; intros Ok0.
  destruct (birthday r) eqn:B; simpl.
  - intros H; injection H as _ <-. exact Ok0.
  - destruct (strptime_dmY s) as [d|] eqn:P; [|discriminate].
    intros H; injection H as _ <-.
    intros b Hb; simpl in Hb; injection Hb as <-.
    exists d; split; [reflexivity|exact (strptime_valid _ _ P)].
Qed.

Lemma dict_get_in_values (d : AddressBook) (k : string) (v : ContactRecord) :
  dict_get d k = Some v -> In v (dict_values d).
Proof.
  induction d as [|[k' v'] d IH]; simpl; [discriminate|].
  destruct (String.eqb k' k); [intros H; injection H as ->; now left|auto].
Qed.

Lemma dict_set_values (P : ContactRecord -> Prop) (d : AddressBook)
    (k : string) (v : ContactRecord) :
  Forall P (dict_values d) -> P v -> Forall P (dict_values (dict_set d k v)).
Proof.
  intros F Pv; induction d as [|[k' v'] d IH]; simpl.
  - repeat constructor; assumption.
  - inversion F; subst. destruct (String.eqb k' k); simpl; constructor; auto.
Qed.

Lemma exec_keeps_birthday_ok (c : command) (book : AddressBook) :
  Forall birthday_ok (dict_values book) ->
  Forall birthday_ok (dict_values (snd (exec c book))).
Proof.
  intros F.
  assert (Found : forall k r, dict_get book k = Some r -> birthday_ok r).
  { intros k r H. rewrite Forall_forall in F. apply F.
    exact (dict_get_in_values _ _ _ H). }
  destruct c as [n p | n p | n s]; unfold exec.
  - unfold add_contact; rewrite snd_input_error.
    unfold add_contact_body, raise, AddressBook_find.
    destruct (validate_name n); simpl; [|exact F].
    destruct (validate_phone_number p); simpl; [|exact F].
    destruct (dict_get book n) as [rec|] eqn:E.
    + destruct (Record_find_phone rec p); simpl; [exact F|].
      apply dict_set_values; [exact F|exact (Found _ _ E)].
    + simpl. apply dict_set_values; [exact F|]. intros b Hb; discriminate.
  - unfold change_contact; rewrite snd_input_error.
    unfold change_contact_body, raise, AddressBook_find.
    destruct (validate_phone_number p); simpl; [|exact F].
    destruct (dict_get book n) as [rec|] eqn:E; [|exact F].
    destruct (phones rec) as [|first rest]; simpl.
    + apply dict_set_values; [exact F|exact (Found _ _ E)].
    + unfold Record_edit_phone.
      destruct (Record_find_phone rec (phone_value first)); simpl;
        (apply dict_set_values; [exact F|exact (Found _ _ E)]).
  - unfold add_birthday; rewrite snd_input_error.
    unfold add_birthday_body, raise, AddressBook_find.
    destruct (validate_name n); simpl; [|exact F].
    destruct (validate_birthday s); simpl; [|exact F].
    destruct (dict_get book n) as [rec|] eqn:E; [|exact F].
    destruct (Record_add_birthday rec s) as [[msg rec']|] eqn:A; simpl; [|exact F].
    assert (G : Forall birthday_ok (dict_values (dict_set book n rec')))
      by (apply dict_set_values;
          [exact F|exact (add_birthday_ok _ _ _ _ (Found _ _ E) A)]).
    destruct (negb (String.eqb msg "Birthday is set")); exact G.
Qed.

(** Every address book the commands build from the empty one holds only
    birthdays that exist. *)
Lemma reachable_birthday_ok (cs : list command) :
  forall book, Forall birthday_ok (dict_values book) ->
               Forall birthday_ok (dict_values (exec_all cs book)).
Proof.
  induction cs as [|c cs IH]; intros book F; simpl; [exact F|].
  apply IH. now apply exec_keeps_birthday_ok.
Qed.

(** So the upcoming birthdays of such a book are computed, for every
    [today] up to the year 9991. *)
Lemma upcoming_birthdays_returns_reachable
    (cs : list command) (fuel : nat) (today : date) (days : Z) :
  valid_date today = true -> year today + 8 <= MAXYEAR -> (8 < fuel)%nat ->
  exists l, AddressBook_upcoming_birthdays fuel today (exec_all cs []) days = Done l.
Proof.
  intros Vt Hy Hf. apply upcoming_birthdays_returns; auto.
  apply Forall_forall. apply reachable_birthday_ok. constructor.
Qed.

End Birthday.

(** C5. A second [add_birthday] on a record, whatever the string, reports
    [Birthday already set] and leaves the record, so the stored date, as it
    was, and so does [add_birthday] on the birthday itself; on a record
    without birthday it stores the date the string parses to.  No method of
    a record and no sequence of commands on the address book changes a
    birthday that is set; the command reports the refusal as an error and
    returns False. *)
Theorem birthday_set_once :
  (forall r b s,
      birthday r = Some b ->
      Record_add_birthday r s = Ok ("Birthday already set"%string, r)) /\
  (forall b d s,
      birthday_value b = Some d ->
      Birthday_add_birthday b s = Ok ("Birthday already set"%string, b)) /\
  (forall r s d,
      birthday r = None -> strptime_dmY s = Ok d ->
      Record_add_birthday r s =
        Ok ("Birthday is set"%string,
              mkRecord (name r) (phones r) (Some (mkBirthday (Some d))))) /\
  (forall m r b,
      birthday r = Some b ->
      exists msg r', call_method m r = Ok (msg, r') /\ birthday r' = Some b) /\
  (forall cs book n r b,
      AddressBook_find book n = Some r -> birthday r = Some b ->
      exists r', AddressBook_find (exec_all cs book) n = Some r' /\
                 birthday r' = Some b) /\
  (forall book n s r b,
      validate_name n = true -> validate_birthday s = true ->
      AddressBook_find book n = Some r -> birthday r = Some b ->
      add_birthday n s book =
        (Ok false, ["Error: Birthday already set"%string], book)).
Proof.
  split; [|split; [|split; [|split; [|split]]]].
  - intros r b s H; unfold Record_add_birthday; now rewrite H.
  - intros b d s H; unfold Birthday_add_birthday; now rewrite H.
  - intros r s d H P; unfold Record_add_birthday, Birthday_init, Birthday_add_birthday.
    rewrite H; simpl; rewrite P; reflexivity.
  - intros m r b; apply call_method_keeps_birthday.
  - intros cs book n r b; apply exec_all_keeps_birthday.
  - intros book n s r b Vn Vs F H.
    unfold add_birthday, add_birthday_body.
    rewrite Vn, Vs, F; simpl.
    unfold Record_add_birthday; rewrite H; simpl.
    unfold AddressBook_find in F. rewrite dict_set_same by assumption.
    reflexivity.
Qed.

(** ** Phones of a record *)

Section Phones.

Lemma find_index_last (p : string) (l : list Phone) :
  find_index p (l ++ [mkPhone p]) <> None.
Proof.
  induction l as [|x l IH]; simpl.
  - unfold phone_is; simpl. now rewrite String.eqb_refl.
  - destruct (phone_is p x); [discriminate|].
    destruct (find_index p (l ++ [mkPhone p])); [discriminate|contradiction].
Qed.

Lemma find_index_none (p : string) (l : list Phone) :
  find_index p l = None -> ~ In p (map phone_value l).
Proof.
  induction l as [|x l IH]; simpl; [tauto|].
  unfold phone_is. destruct (String.eqb_spec (phone_value x) p) as [E|N]; [discriminate|].
  destruct (find_index p l); [discriminate|].
  intros _ [E|I]; [contradiction|now apply IH].
Qed.

(** [add_contact] with a name and phone the record already has is refused
    with the duplicate error and changes nothing; this is what a second
    [add_contact] with the same arguments meets. *)
Lemma add_contact_again_rejected (book : AddressBook) (n p : string) :
  validate_name n = true -> validate_phone_number p = true ->
  let book1 := snd (add_contact n p book) in
  add_contact n p book1 =
    (Ok false, ["Error: " ++ msg_duplicate n]%string, book1) /\
  (forall r1, AddressBook_find book1 n = Some r1 ->
              AddressBook_find (snd (add_contact n p book1)) n = Some r1).
Proof.
  intros Vn Vp book1.
  assert (F1 : exists r1 i, AddressBook_find book1 n = Some r1 /\
                            Record_find_phone r1 p = Some i).
  { subst book1. unfold add_contact; rewrite snd_input_error.
    unfold add_contact_body, AddressBook_find, raise. rewrite Vn, Vp; simpl.
    destruct (dict_get book n) as [rec|] eqn:F.
    - destruct (Record_find_phone rec p) as [i|] eqn:Fp; simpl.
      + exists rec, i; auto.
      + rewrite dict_get_set_eq.
        unfold Record_find_phone; simpl. unfold Phone_init.
        destruct (find_index p (phones rec ++ [mkPhone p])) as [i|] eqn:L;
          [|now apply find_index_last in L].
        eexists _, i; split; [reflexivity|exact L].
    - simpl. rewrite dict_get_set_eq.
      eexists _, O; split; [reflexivity|].
      unfold Record_find_phone, Phone_init.
      cbn [phones find_index]. unfold phone_is; cbn [phone_value].
      now rewrite String.eqb_refl. }
  destruct F1 as (r1 & i & F1 & Fp).
  assert (E : add_contact n p book1 =
              (Ok false, ["Error: " ++ msg_duplicate n]%string, book1)).
  { unfold add_contact, add_contact_body, raise. rewrite Vn, Vp; simpl.
    rewrite F1, Fp. reflexivity. }
  split; [exact E|]. intros r Hr. now rewrite E.
Qed.

(** [add_contact] keeps the phones of every record distinct. *)
Lemma add_contact_keeps_unique (book : AddressBook) (n p : string) :
  (forall k r, AddressBook_find book k = Some r -> phones_unique r) ->
  forall k r, AddressBook_find (snd (add_contact n p book)) k = Some r -> phones_unique r.
Proof.
  intros U k r. unfold add_contact; rewrite snd_input_error.
  unfold add_contact_body, AddressBook_find, raise in *.
  destruct (validate_name n); simpl; [|apply U].
  destruct (validate_phone_number p); simpl; [|apply U].
  destruct (dict_get book n) as [rec|] eqn:F.
  - destruct (Record_find_phone rec p) eqn:Fp; simpl; [apply U|].
    destruct (string_dec n k) as [->|N].
    + rewrite dict_get_set_eq; intros H; injection H as <-.
      unfold phones_unique; simpl. rewrite map_app; simpl.
      apply NoDup_app; [exact (U _ _ F)|repeat constructor; auto|].
      intros a Ha [<-|[]]. now apply (find_index_none _ _ Fp).
    + rewrite dict_get_set_ne by assumption. apply U.
  - simpl. destruct (string_dec n k) as [->|N].
    + rewrite dict_get_set_eq; intros H; injection H as <-.
      unfold phones_unique; simpl. repeat constructor; auto.
    + rewrite dict_get_set_ne by assumption. apply U.
Qed.

End Phones.

(** C6. The rule that no record holds two equal phones is kept by
    [add_contact] ([add_contact_again_rejected], [add_contact_keeps_unique])
    but not by the program: [change_contact] writes the new number over the
    first phone without looking at the others.  After add bob +1111111,
    add bob +2222222, all accepted, change bob +2222222 is accepted too
    and leaves bob with the same phone twice. *)
Theorem change_contact_duplicates_phone :
  let book1 := snd (add_contact "bob" "+1111111" []) in
  let book2 := snd (add_contact "bob" "+2222222" book1) in
  let book3 := snd (change_contact "bob" "+2222222" book2) in
  fst (add_contact "bob" "+1111111" []) = (Ok true, []) /\
  fst (add_contact "bob" "+2222222" book1) = (Ok true, []) /\
  fst (change_contact "bob" "+2222222" book2) = (Ok true, []) /\
  option_map (fun r => map phone_value (phones r)) (AddressBook_find book2 "bob")
    = Some ["+1111111"; "+2222222"]%string /\
  option_map (fun r => map phone_value (phones r)) (AddressBook_find book3 "bob")
    = Some ["+2222222"; "+2222222"]%string /\
  (exists r, AddressBook_find book3 "bob" = Some r /\ ~ phones_unique r).
Proof.
  cbv zeta. repeat split; try reflexivity.
  eexists; split; [reflexivity|].
  unfold phones_unique; simpl. intros H.
  inversion H as [|? ? N _]; subst. apply N; now left.
Qed.

(** C7. The pattern ends in [$], which also matches before a final
    newline: the four examples of the specification come out as stated,
    but a valid number followed by a newline is accepted although
    something follows the digits. *)
Theorem validate_phone_number_accepts_trailing_newline :
  validate_phone_number "+123456" = false /\
  validate_phone_number "+1234567" = true /\
  validate_phone_number "0123456" = true /\
  validate_phone_number "01234" = false /\
  validate_phone_number ("+1234567" ++ newline) = true /\
  validate_phone_number ("0123456" ++ newline) = true /\
  is_phone_text ("+1234567" ++ newline) = false /\
  is_phone_text ("0123456" ++ newline) = false.
Proof. repeat split; reflexivity. Qed.

(** ** Matching *)

Section Matchers.

Local Open Scope string_scope.

(** Closes [tok t = true] once the tests of one alternative are known. *)
Ltac token_true :=
  cbn [String.append];
  cbv beta iota delta [is_day_token is_month_token is_year_text];
  repeat match goal with H : _ = true |- _ => rewrite H; clear H end;
  cbn [andb orb]; rewrite ?orb_true_r; cbn [orb]; reflexivity.

Lemma m_class_in (p : ascii -> bool) (s t r : string) :
  In (t, r) (m_class p s) <->
  exists c, s = String c r /\ t = String c EmptyString /\ p c = true.
Proof.
  unfold m_class; destruct s as [|c s']; simpl.
  - split; [tauto|intros (c & E & _); discriminate].
  - destruct (p c) eqn:P; simpl.
    + split.
      * intros [E|[]]; injection E as <- <-; eauto.
      * intros (c' & E & -> & _); injection E as <- <-; auto.
    + split; [tauto|]. intros (c' & E & _ & P'); injection E as <- <-; congruence.
Qed.

Lemma m_lit_in (c : ascii) (s t r : string) :
  In (t, r) (m_lit c s) <-> s = String c r /\ t = String c EmptyString.
Proof.
  unfold m_lit; rewrite m_class_in; split.
  - intros (c' & -> & -> & E); apply Ascii.eqb_eq in E; subst; auto.
  - intros [-> ->]; exists c; rewrite Ascii.eqb_refl; auto.
Qed.

Lemma m_seq_in (a b : matcher) (s t r : string) :
  In (t, r) (m_seq a b s) <->
  exists t1 t2 r1, In (t1, r1) (a s) /\ In (t2, r) (b r1) /\ t = t1 ++ t2.
Proof.
  unfold m_seq; rewrite in_flat_map; split.
  - intros ([t1 r1] & H1 & H2). apply in_map_iff in H2.
    destruct H2 as ([t2 r2] & E & H2); simpl in *. injection E as <- <-.
    exists t1, t2, r1; auto.
  - intros (t1 & t2 & r1 & H1 & H2 & ->).
    exists (t1, r1); split; [assumption|]. apply in_map_iff.
    exists (t2, r); auto.
Qed.

Lemma m_alt_in (a b : matcher) (s : string) (x : string * string) :
  In x (m_alt a b s) <-> In x (a s) \/ In x (b s).
Proof. unfold m_alt; apply in_app_iff. Qed.

(** Two characters, one class each. *)
Lemma m_pair_in (p q : ascii -> bool) (s t r : string) :
  In (t, r) (m_seq (m_class p) (m_class q) s) <->
  exists c1 c2, s = String c1 (String c2 r) /\ t = String c1 (String c2 EmptyString) /\
                p c1 = true /\ q c2 = true.
Proof.
  rewrite m_seq_in; split.
  - intros (t1 & t2 & r1 & H1 & H2 & ->).
    apply m_class_in in H1, H2.
    destruct H1 as (c1 & -> & -> & P), H2 as (c2 & -> & -> & Q).
    exists c1, c2; auto.
  - intros (c1 & c2 & -> & -> & P & Q).
    exists (String c1 EmptyString), (String c2 EmptyString), (String c2 r).
    repeat split; apply m_class_in; eauto.
Qed.

Lemma re_d_in (s t r : string) :
  In (t, r) (re_d s) <-> s = t ++ r /\ is_day_token t = true.
Proof.
  unfold re_d, m_lit.
  rewrite !m_alt_in, !m_pair_in, m_class_in. split.
  - intros [H|[H|[H|[H|H]]]];
      [destruct H as (c1 & c2 & -> & -> & P & Q) ..
      |destruct H as (c & -> & -> & P)
      |destruct H as (c1 & c2 & -> & -> & P & Q)];
      (split; [reflexivity|]); token_true.
  - intros [-> T].
    destruct t as [|c1 [|c2 [|]]];
      cbv beta iota delta [is_day_token] in T; try discriminate.
    + right; right; right; left. exists c1; auto.
    + apply orb_true_iff in T; destruct T as [T|T];
        [apply orb_true_iff in T; destruct T as [T|T];
         [apply orb_true_iff in T; destruct T as [T|T]|]|];
        apply andb_true_iff in T; destruct T as [P Q].
      * left; exists c1, c2; auto.
      * right; left; exists c1, c2; auto.
      * right; right; left; exists c1, c2; auto.
      * right; right; right; right; exists c1, c2; auto.
Qed.

Lemma re_m_in (s t r : string) :
  In (t, r) (re_m s) <-> s = t ++ r /\ is_month_token t = true.
Proof.
  unfold re_m, m_lit.
  rewrite !m_alt_in, !m_pair_in, m_class_in. split.
  - intros [H|[H|H]];
      [destruct H as (c1 & c2 & -> & -> & P & Q) ..
      |destruct H as (c & -> & -> & P)];
      (split; [reflexivity|]); token_true.
  - intros [-> T].
    destruct t as [|c1 [|c2 [|]]];
      cbv beta iota delta [is_month_token] in T; try discriminate.
    + right; right. exists c1; auto.
    + apply orb_true_iff in T; destruct T as [T|T];
        apply andb_true_iff in T; destruct T as [P Q].
      * left; exists c1, c2; auto.
      * right; left; exists c1, c2; auto.
Qed.

Lemma re_Y_in (s t r : string) :
  In (t, r) (re_Y s) <-> s = t ++ r /\ is_year_text t = true.
Proof.
  unfold re_Y. rewrite m_seq_in. split.
  - intros (t1 & t2 & r1 & H1 & H2 & ->).
    apply m_class_in in H1; destruct H1 as (c1 & -> & -> & P1).
    apply m_seq_in in H2; destruct H2 as (t3 & t4 & r2 & H2 & H3 & ->).
    apply m_class_in in H2; destruct H2 as (c2 & -> & -> & P2).
    apply m_pair_in in H3; destruct H3 as (c3 & c4 & -> & -> & P3 & P4).
    split; [reflexivity|]. token_true.
  - intros [-> T].
    destruct t as [|c1 [|c2 [|c3 [|c4 [|]]]]];
      cbv beta iota delta [is_year_text] in T; try discriminate.
    apply andb_true_iff in T; destruct T as [T P4].
    apply andb_true_iff in T; destruct T as [T P3].
    apply andb_true_iff in T; destruct T as [P1 P2].
    exists (String c1 EmptyString), (String c2 (String c3 (String c4 EmptyString))),
           (String c2 (String c3 (String c4 r))).
    split; [apply m_class_in; exists c1; auto|split; [|reflexivity]].
    apply m_seq_in.
    exists (String c2 EmptyString), (String c3 (String c4 EmptyString)),
           (String c3 (String c4 r)).
    split; [apply m_class_in; exists c2; auto|split; [|reflexivity]].
    apply m_pair_in; exists c3, c4; auto.
Qed.

Lemma format_regex_in (s d m Y rest : string) :
  In (d, m, Y, rest) (format_regex s) <->
  s = d ++ "." ++ m ++ "." ++ Y ++ rest /\
  is_day_token d = true /\ is_month_token m = true /\ is_year_text Y = true.
Proof.
  unfold format_regex. split.
  - intros H.
    apply in_flat_map in H; destruct H as ([d' r1] & Hd & H).
    apply in_flat_map in H; destruct H as ([t1 r2] & H1 & H).
    apply in_flat_map in H; destruct H as ([m' r3] & Hm & H).
    apply in_flat_map in H; destruct H as ([t2 r4] & H2 & H).
    apply in_map_iff in H; destruct H as ([Y' r5] & E & HY).
    cbn [fst snd] in *. injection E as <- <- <- <-.
    apply re_d_in in Hd; destruct Hd as [-> Td].
    apply m_lit_in in H1; destruct H1 as [-> _].
    apply re_m_in in Hm; destruct Hm as [-> Tm].
    apply m_lit_in in H2; destruct H2 as [-> _].
    apply re_Y_in in HY; destruct HY as [-> TY].
    auto.
  - intros (-> & Td & Tm & TY).
    apply in_flat_map. exists (d, "." ++ m ++ "." ++ Y ++ rest).
    split; [now apply re_d_in|].
    apply in_flat_map. exists (".", m ++ "." ++ Y ++ rest).
    split; [now apply m_lit_in|].
    apply in_flat_map. exists (m, "." ++ Y ++ rest).
    split; [now apply re_m_in|].
    apply in_flat_map. exists (".", Y ++ rest).
    split; [now apply m_lit_in|].
    apply in_map_iff. exists (Y, rest). split; [reflexivity|now apply re_Y_in].
Qed.

(** *** Characters *)

Lemma in_range_code (lo hi c : ascii) :
  in_range lo hi c = true <-> (code lo <= code c <= code hi)%N.
Proof.
  unfold in_range; rewrite andb_true_iff, !N.leb_le; tauto.
Qed.

Lemma eqb_code (a c : ascii) : Ascii.eqb a c = true <-> code c = code a.
Proof.
  rewrite Ascii.eqb_eq; unfold code; split; [congruence|].
  intros H. rewrite <- (ascii_N_embedding a), <- (ascii_N_embedding c). congruence.
Qed.

Lemma is_digit_code (c : ascii) : is_digit c = true <-> (48 <= code c <= 57)%N.
Proof. unfold is_digit; now rewrite in_range_code. Qed.

(** Turns the tests on characters among the hypotheses into bounds on
    their codes. *)
Ltac char_codes :=
  repeat match goal with
    | H : is_digit _ = true |- _ => apply is_digit_code in H
    | H : in_range _ _ _ = true |- _ => apply in_range_code in H
    | H : Ascii.eqb _ _ = true |- _ => apply eqb_code in H
    end;
  change (code "0") with 48%N in *; change (code "1") with 49%N in *;
  change (code "2") with 50%N in *; change (code "3") with 51%N in *;
  change (code "9") with 57%N in *; change (code " ") with 32%N in *;
  change (code ".") with 46%N in *.

Ltac char_goal :=
  first [apply is_digit_code | apply in_range_code | apply eqb_code];
  change (code "0") with 48%N in *; change (code "1") with 49%N in *;
  change (code "2") with 50%N in *; change (code "3") with 51%N in *;
  change (code "9") with 57%N in *; change (code " ") with 32%N in *;
  change (code ".") with 46%N in *; lia.

Lemma py_int_digit_first (c : ascii) (r : string) :
  is_digit c = true -> py_int (String c r) = int_digits 0 (String c r).
Proof.
  intros H. destruct (Ascii.eqb " " c) eqn:E.
  - char_codes; lia.
  - clear H. destruct c as [[] [] [] [] [] [] [] []]; try reflexivity; discriminate.
Qed.

(** *** The tokens of the pattern and the texts of the specification *)

Lemma not_dot (c : ascii) :
  is_digit c = true \/ Ascii.eqb " " c = true -> negb (Ascii.eqb "." c) = true.
Proof.
  intros H. apply negb_true_iff. destruct (Ascii.eqb "." c) eqn:E; [|reflexivity].
  destruct H; char_codes; lia.
Qed.

Lemma day_token_text (t : string) : is_day_token t = true -> is_day_text t = true.
Proof.
  destruct t as [|c1 [|c2 [|]]];
    cbv beta iota delta [is_day_token is_day_text]; try discriminate.
  - intros H; char_codes; char_goal.
  - intros T. apply andb_true_iff.
    apply orb_true_iff in T; destruct T as [T|T];
      [apply orb_true_iff in T; destruct T as [T|T];
       [apply orb_true_iff in T; destruct T as [T|T]|]|];
      apply andb_true_iff in T; destruct T as [P Q]; split;
      try (apply orb_true_iff; first [right; exact P | left]);
      char_codes; char_goal.
Qed.

Lemma month_token_text (t : string) : is_month_token t = true -> is_month_text t = true.
Proof.
  destruct t as [|c1 [|c2 [|]]];
    cbv beta iota delta [is_month_token is_month_text]; try discriminate.
  - intros H; char_codes; char_goal.
  - intros T. apply andb_true_iff.
    apply orb_true_iff in T; destruct T as [T|T];
      apply andb_true_iff in T; destruct T as [P Q]; split;
      char_codes; char_goal.
Qed.

Lemma day_text_dotless (t : string) : is_day_text t = true -> dotless t = true.
Proof.
  destruct t as [|c1 [|c2 [|]]];
    cbv beta iota delta [is_day_text]; try discriminate; unfold dotless;
    cbn [all_chars].
  - intros H. rewrite not_dot by auto. reflexivity.
  - intros H. apply andb_true_iff in H; destruct H as [P Q].
    apply orb_true_iff in P.
    rewrite (not_dot c1) by exact P. rewrite (not_dot c2) by auto. reflexivity.
Qed.

Lemma month_text_dotless (t : string) : is_month_text t = true -> dotless t = true.
Proof.
  destruct t as [|c1 [|c2 [|]]];
    cbv beta iota delta [is_month_text]; try discriminate; unfold dotless;
    cbn [all_chars].
  - intros H. rewrite not_dot by auto. reflexivity.
  - intros H. apply andb_true_iff in H; destruct H as [P Q].
    rewrite (not_dot c1), (not_dot c2) by auto. reflexivity.
Qed.

(** Up to the first dot a text splits in one way only. *)
Lemma dot_split_unique (t1 : string) :
  forall t2 x1 x2,
    dotless t1 = true -> dotless t2 = true ->
    t1 ++ String "." x1 = t2 ++ String "." x2 -> t1 = t2 /\ x1 = x2.
Proof.
  unfold dotless.
  induction t1 as [|c t1 IH]; intros [|c' t2] x1 x2 D1 D2 E;
    cbn [String.append] in E; cbn [all_chars] in D1, D2.
  - injection E as ->; auto.
  - injection E as <- _. rewrite Ascii.eqb_refl in D2; discriminate.
  - injection E as -> _. rewrite Ascii.eqb_refl in D1; discriminate.
  - injection E as -> E.
    apply andb_true_iff in D1, D2. destruct D1 as [_ D1], D2 as [_ D2].
    destruct (IH t2 x1 x2 D1 D2 E) as [-> ->]; auto.
Qed.

Lemma year_split_unique (Y Y' r r' : string) :
  is_year_text Y = true -> is_year_text Y' = true ->
  Y ++ r = Y' ++ r' -> Y = Y' /\ r = r'.
Proof.
  destruct Y as [|a1 [|a2 [|a3 [|a4 [|]]]]];
    cbv beta iota delta [is_year_text]; try discriminate.
  destruct Y' as [|b1 [|b2 [|b3 [|b4 [|]]]]];
    cbv beta iota delta [is_year_text]; try discriminate.
  intros _ _ E; cbn [String.append] in E. injection E as -> -> -> -> ->. auto.
Qed.

Ltac alternative_true :=
  cbv beta iota delta [is_day_token is_month_token];
  repeat match goal with H : _ = true |- _ => rewrite H; clear H end;
  cbn [andb orb]; rewrite ?orb_true_r; cbn [orb]; reflexivity.

(** A day text that reads as a number from 1 to 31 is a text of [%d]. *)
Lemma day_text_token (t : string) :
  is_day_text t = true -> 1 <= py_int t <= 31 -> is_day_token t = true.
Proof.
  destruct t as [|c1 [|c2 [|]]];
    cbv beta iota delta [is_day_text]; try discriminate.
  - intros H R. rewrite py_int_digit_first in R by assumption.
    cbn [int_digits] in R. cbv beta iota delta [is_day_token].
    char_codes; char_goal.
  - intros H R. apply andb_true_iff in H; destruct H as [P Q].
    apply orb_true_iff in P; destruct P as [P|P].
    + rewrite py_int_digit_first in R by assumption. cbn [int_digits] in R.
      char_codes.
      assert (C : (code c1 = 48 \/ 49 <= code c1 <= 50 \/ code c1 = 51)%N) by lia.
      destruct C as [C|[C|C]].
      * assert (A : Ascii.eqb "0" c1 = true) by char_goal.
        assert (B : in_range "1" "9" c2 = true) by char_goal.
        clear - A B. alternative_true.
      * assert (A : in_range "1" "2" c1 = true) by char_goal.
        assert (B : is_digit c2 = true) by char_goal.
        clear - A B. alternative_true.
      * assert (A : Ascii.eqb "3" c1 = true) by char_goal.
        assert (B : in_range "0" "1" c2 = true) by char_goal.
        clear - A B. alternative_true.
    + pose proof P as P'. apply Ascii.eqb_eq in P'; subst c1.
      change (py_int (String " " (String c2 ""))) with (py_int (String c2 "")) in R.
      rewrite py_int_digit_first in R by assumption.
      cbn [int_digits] in R. char_codes.
      assert (B : in_range "1" "9" c2 = true) by char_goal.
      assert (A : Ascii.eqb " " " " = true) by reflexivity.
      clear - A B. alternative_true.
Qed.

(** A month text that reads as a number from 1 to 12 is a text of [%m]. *)
Lemma month_text_token (t : string) :
  is_month_text t = true -> 1 <= py_int t <= 12 -> is_month_token t = true.
Proof.
  destruct t as [|c1 [|c2 [|]]];
    cbv beta iota delta [is_month_text]; try discriminate.
  - intros H R. rewrite py_int_digit_first in R by assumption.
    cbn [int_digits] in R. cbv beta iota delta [is_month_token].
    char_codes; char_goal.
  - intros H R. apply andb_true_iff in H; destruct H as [P Q].
    rewrite py_int_digit_first in R by assumption. cbn [int_digits] in R.
    char_codes.
    assert (C : (code c1 = 48 \/ code c1 = 49)%N) by lia.
    destruct C as [C|C].
    + assert (A : Ascii.eqb "0" c1 = true) by char_goal.
      assert (B : in_range "1" "9" c2 = true) by char_goal.
      clear - A B. alternative_true.
    + assert (A : Ascii.eqb "1" c1 = true) by char_goal.
      assert (B : in_range "0" "2" c2 = true) by char_goal.
      clear - A B. alternative_true.
Qed.

Lemma string_app_nil_r (t : string) : t ++ "" = t.
Proof. induction t as [|c t IH]; simpl; [reflexivity|now rewrite IH]. Qed.

Lemma days_in_month_le_31 (y m : Z) : 1 <= m <= 12 -> days_in_month y m <= 31.
Proof.
  intros Hm.
  assert (C : m = 1 \/ m = 2 \/ m = 3 \/ m = 4 \/ m = 5 \/ m = 6 \/ m = 7 \/
              m = 8 \/ m = 9 \/ m = 10 \/ m = 11 \/ m = 12) by lia.
  unfold days_in_month.
  destruct (is_leap y);
    repeat (destruct C as [-> | C]; [month_tables; lia|]); subst; month_tables; lia.
Qed.

(** [strptime] returns a date exactly on the texts of the form day, dot,
    month, dot, year that name an existing date. *)
Lemma strptime_done_iff (s : string) :
  (exists x, strptime_dmY s = Ok x) <-> is_D_M_YYYY_date s.
Proof.
  unfold strptime_dmY, is_D_M_YYYY_date, parses_as. split.
  - intros (x & H).
    destruct (format_regex s) as [|[[[d m] Y] rest] l] eqn:F; [discriminate|].
    destruct rest; [|discriminate].
    assert (I : In (d, m, Y, "") (format_regex s)) by (rewrite F; now left).
    apply format_regex_in in I. destruct I as (E & Td & Tm & TY).
    rewrite string_app_nil_r in E.
    exists d, m, Y. repeat split; auto using day_token_text, month_token_text.
    unfold new_date in H.
    destruct (check_date_fields (py_int Y) (py_int m) (py_int d));
      [reflexivity|discriminate].
  - intros (dd & mm & yyyy & E & Td & Tm & TY & V).
    assert (R : 1 <= py_int mm <= 12 /\ 1 <= py_int dd <= 31).
    { pose proof (valid_date_fields (mkdate (py_int yyyy) (py_int mm) (py_int dd)) V)
        as (_ & Hm & Hd). simpl in Hm, Hd.
      pose proof (days_in_month_le_31 (py_int yyyy) _ Hm). lia. }
    destruct R as [Rm Rd].
    assert (I : In (dd, mm, yyyy, "") (format_regex s)).
    { apply format_regex_in. rewrite string_app_nil_r.
      auto using day_text_token, month_text_token. }
    destruct (format_regex s) as [|[[[d m] Y] rest] l] eqn:F; [contradiction|].
    assert (I' : In (d, m, Y, rest) (format_regex s)) by (rewrite F; now left).
    apply format_regex_in in I'. destruct I' as (E' & Td' & Tm' & TY').
    rewrite E in E'. cbn [String.append] in E'.
    apply dot_split_unique in E';
      auto using day_text_dotless, day_token_text.
    destruct E' as [<- E'].
    apply dot_split_unique in E';
      auto using month_text_dotless, month_token_text.
    destruct E' as [<- E'].
    rewrite <- (string_app_nil_r yyyy) in E' at 1.
    apply year_split_unique in E'; auto.
    destruct E' as [<- <-].
    unfold new_date. rewrite V. eauto.
Qed.

Lemma validate_birthday_done (s : string) :
  validate_birthday s = true <-> exists x, strptime_dmY s = Ok x.
Proof.
  unfold validate_birthday. destruct (strptime_dmY s); split;
    try discriminate; eauto; intros (x & H); discriminate.
Qed.

(** With day and month given, a text is accepted only if the rest is a
    year with which they form a date. *)
Lemma validate_birthday_parts (dd mm yyyy : string) :
  is_day_text dd = true -> is_month_text mm = true ->
  validate_birthday (dd ++ "." ++ mm ++ "." ++ yyyy) = true ->
  is_year_text yyyy = true /\
  check_date_fields (py_int yyyy) (py_int mm) (py_int dd) = true.
Proof.
  intros Td Tm H.
  apply validate_birthday_done, strptime_done_iff in H.
  destruct H as (d & m & Y & E & Td' & Tm' & TY & V).
  cbn [String.append] in E.
  apply dot_split_unique in E; auto using day_text_dotless.
  destruct E as [-> E].
  apply dot_split_unique in E; auto using month_text_dotless.
  destruct E as [-> ->]. auto.
Qed.

(** *** The phone pattern *)

Lemma m_rep_in (p : ascii -> bool) (hi : nat) :
  forall (lo : nat) (s t r : string),
    In (t, r) (m_rep p lo hi s) <->
    s = t ++ r /\ all_chars p t = true /\ (lo <= String.length t <= hi)%nat.
Proof.
  induction hi as [|hi IH]; intros lo s t r; cbn [m_rep].
  - destruct lo as [|lo]; simpl; split.
    + intros [E|[]]; injection E as <- <-. repeat split; auto.
    + intros (-> & _ & L). destruct t; simpl in L; [now left|lia].
    + tauto.
    + intros (_ & _ & L); lia.
  - rewrite in_app_iff. split.
    + intros [H|H].
      * destruct s as [|c s']; [contradiction|].
        destruct (p c) eqn:P; [|contradiction].
        apply in_map_iff in H. destruct H as ([t' r'] & E & H).
        cbn [fst snd] in E. injection E as <- <-.
        apply IH in H. destruct H as (-> & A & L).
        repeat split; cbn [all_chars String.length]; [now rewrite P| |]; lia.
      * destruct lo; [|contradiction]. destruct H as [E|[]].
        injection E as <- <-. repeat split; simpl; lia.
    + intros (-> & A & L). destruct t as [|c t'].
      * right. destruct lo; [now left|simpl in L; lia].
      * left. cbn [String.append]. cbn [all_chars] in A.
        apply andb_true_iff in A. destruct A as [P A]. rewrite P.
        apply in_map_iff. exists (t', r). split; [reflexivity|].
        apply IH. repeat split; auto; cbn [String.length] in L; lia.
Qed.

Lemma phone_pattern_in (s t r : string) :
  In (t, r) (phone_pattern s) <-> s = t ++ r /\ is_phone_text t = true.
Proof.
  unfold phone_pattern. rewrite m_alt_in, !m_seq_in. split.
  - intros [H|H]; destruct H as (t1 & t2 & r1 & H1 & H2 & ->);
      apply m_lit_in in H1; destruct H1 as [-> ->];
      apply m_rep_in in H2; destruct H2 as (-> & A & L);
      (split; [reflexivity|]); cbn [String.append is_phone_text];
      rewrite A, Ascii.eqb_refl; cbn [andb];
      [apply orb_true_iff; left|apply orb_true_iff; right];
      apply andb_true_iff; split; apply Nat.leb_le; lia.
  - intros [-> T]. destruct t as [|c ds]; [discriminate|].
    cbn [is_phone_text] in T.
    apply andb_true_iff in T; destruct T as [A T].
    apply orb_true_iff in T; destruct T as [T|T];
      apply andb_true_iff in T; destruct T as [T L2];
      apply andb_true_iff in T; destruct T as [E L1];
      apply Ascii.eqb_eq in E; subst c; apply Nat.leb_le in L1, L2;
      [left|right];
      (eexists (String _ EmptyString), ds, (ds ++ r);
       split; [now apply m_lit_in|split; [|reflexivity]];
       apply m_rep_in; auto).
Qed.

(** What [validate_phone_number] accepts: a phone text, or one followed by
    a single newline. *)
Lemma validate_phone_number_iff (s : string) :
  validate_phone_number s = true <->
  exists t, is_phone_text t = true /\ (s = t \/ s = t ++ newline).
Proof.
  unfold validate_phone_number, match_to_dollar. rewrite existsb_exists. split.
  - intros ([t r] & I & D). apply phone_pattern_in in I. destruct I as [-> T].
    exists t; split; [assumption|]. cbn [snd] in D.
    destruct r as [|c [|]]; cbn [at_dollar] in D; try discriminate.
    + left; now rewrite string_app_nil_r.
    + right. apply Ascii.eqb_eq in D; subst c. reflexivity.
  - intros (t & T & [->| ->]).
    + exists (t, ""). split; [|reflexivity].
      apply phone_pattern_in. now rewrite string_app_nil_r.
    + exists (t, newline). split; [|reflexivity].
      now apply phone_pattern_in.
Qed.

End Matchers.

(** ** Digits of any script *)

Section Digits.

Import PyUnicode.

Local Open Scope list_scope.

(** *** Characters *)

Lemma range_bounds (lo hi c : N) :
  in_range lo hi c = true <-> (lo <= c <= hi)%N.
Proof. unfold in_range. rewrite andb_true_iff, !N.leb_le. tauto. Qed.

Lemma ascii_digit_bounds (c : N) : is_ascii_digit c = true <-> (48 <= c <= 57)%N.
Proof. unfold is_ascii_digit. rewrite range_bounds. reflexivity. Qed.

Lemma decimal_value_range (c : N) (v : Z) :
  decimal_value c = Some v -> 0 <= v <= 9.
Proof.
  unfold decimal_value.
  destruct (find (fun z => (z <=? c)%N && (c <? z + 10)%N) decimal_zeros) as [z|] eqn:F;
    [|discriminate].
  apply find_some in F. destruct F as [_ F].
  apply andb_true_iff in F. destruct F as [L U].
  apply N.leb_le in L. apply N.ltb_lt in U.
  intros H; injection H as <-. lia.
Qed.

(** The digits [0] to [9] have their usual values. *)
Lemma decimal_value_ascii (c : N) :
  (48 <= c <= 57)%N -> decimal_value c = Some (Z.of_N c - 48).
Proof.
  intros H. unfold decimal_value.
  change decimal_zeros with (48%N :: tl decimal_zeros). cbn [find].
  replace ((48 <=? c)%N && (c <? 48 + 10)%N) with true.
  - f_equal. lia.
  - symmetry. apply andb_true_iff. split; [apply N.leb_le|apply N.ltb_lt]; lia.
Qed.

Lemma ascii_digit_decimal (c : N) : is_ascii_digit c = true -> is_decimal c = true.
Proof.
  intros H. apply ascii_digit_bounds in H. unfold is_decimal.
  now rewrite decimal_value_ascii.
Qed.

Lemma dot_not_decimal : is_decimal (code ".") = false.
Proof. reflexivity. Qed.

Lemma blank_not_decimal : is_decimal (code " ") = false.
Proof. reflexivity. Qed.

(** Below 256 the decimal digits are [0] to [9]. *)
Lemma decimal_of_code (c : ascii) : is_decimal (code c) = is_digit c.
Proof. destruct c as [[] [] [] [] [] [] [] []]; reflexivity. Qed.

Lemma decimal_value_of_code (c : ascii) :
  is_digit c = true -> decimal_value (code c) = Some (Z.of_N (code c) - 48).
Proof. intros H. apply is_digit_code in H. now apply decimal_value_ascii. Qed.


(** *** The matchers *)

Lemma u_m_class_in (p : N -> bool) (s t r : ustr) :
  In (t, r) (m_class p s) <-> exists c, s = c :: r /\ t = [c] /\ p c = true.
Proof.
  unfold m_class; destruct s as [|c s']; simpl.
  - split; [tauto|intros (c & E & _); discriminate].
  - destruct (p c) eqn:P; simpl.
    + split.
      * intros [E|[]]; injection E as <- <-; eauto.
      * intros (c' & E & -> & _); injection E as <- <-; auto.
    + split; [tauto|]. intros (c' & E & _ & P'); injection E as <- <-; congruence.
Qed.

Lemma u_m_lit_in (c : N) (s t r : ustr) :
  In (t, r) (m_lit c s) <-> s = c :: r /\ t = [c].
Proof.
  unfold m_lit; rewrite u_m_class_in; split.
  - intros (c' & -> & -> & E); apply N.eqb_eq in E; subst; auto.
  - intros [-> ->]; exists c; rewrite N.eqb_refl; auto.
Qed.

Lemma u_m_seq_in (a b : matcher) (s t r : ustr) :
  In (t, r) (m_seq a b s) <->
  exists t1 t2 r1, In (t1, r1) (a s) /\ In (t2, r) (b r1) /\ t = t1 ++ t2.
Proof.
  unfold m_seq; rewrite in_flat_map; split.
  - intros ([t1 r1] & H1 & H2). apply in_map_iff in H2.
    destruct H2 as ([t2 r2] & E & H2); simpl in *. injection E as <- <-.
    exists t1, t2, r1; auto.
  - intros (t1 & t2 & r1 & H1 & H2 & ->).
    exists (t1, r1); split; [assumption|]. apply in_map_iff.
    exists (t2, r); auto.
Qed.

Lemma u_m_alt_in (a b : matcher) (s : ustr) (x : ustr * ustr) :
  In x (m_alt a b s) <-> In x (a s) \/ In x (b s).
Proof. unfold m_alt; apply in_app_iff. Qed.

(** Two characters, one class each. *)
Lemma u_m_pair_in (p q : N -> bool) (s t r : ustr) :
  In (t, r) (m_seq (m_class p) (m_class q) s) <->
  exists c1 c2, s = c1 :: c2 :: r /\ t = [c1; c2] /\ p c1 = true /\ q c2 = true.
Proof.
  rewrite u_m_seq_in; split.
  - intros (t1 & t2 & r1 & H1 & H2 & ->).
    apply u_m_class_in in H1, H2.
    destruct H1 as (c1 & -> & -> & P), H2 as (c2 & -> & -> & Q).
    exists c1, c2; auto.
  - intros (c1 & c2 & -> & -> & P & Q).
    exists [c1], [c2], (c2 :: r).
    repeat split; apply u_m_class_in; eauto.
Qed.

(** Closes [tok t = true] once the tests of one alternative are known. *)
Ltac u_token_true :=
  cbn [app];
  cbv beta iota delta [is_day_token is_month_token is_year_text];
  repeat match goal with H : _ = true |- _ => rewrite H; clear H end;
  rewrite ?N.eqb_refl; cbn [andb orb]; rewrite ?orb_true_r; cbn [orb]; reflexivity.

Lemma u_re_d_in (s t r : ustr) :
  In (t, r) (re_d s) <-> s = t ++ r /\ is_day_token t = true.
Proof.
  unfold re_d, m_lit.
  rewrite !u_m_alt_in, !u_m_pair_in, u_m_class_in. split.
  - intros [H|[H|[H|[H|H]]]];
      [destruct H as (c1 & c2 & -> & -> & P & Q) ..
      |destruct H as (c & -> & -> & P)
      |destruct H as (c1 & c2 & -> & -> & P & Q)];
      (split; [reflexivity|]); try (apply N.eqb_eq in P; subst c1); u_token_true.
  - intros [-> T].
    destruct t as [|c1 [|c2 [|]]];
      cbv beta iota delta [is_day_token] in T; try discriminate.
    + right; right; right; left. exists c1; auto.
    + apply orb_true_iff in T; destruct T as [T|T];
        [apply orb_true_iff in T; destruct T as [T|T];
         [apply orb_true_iff in T; destruct T as [T|T]|]|];
        apply andb_true_iff in T; destruct T as [P Q].
      * left; exists c1, c2. rewrite N.eqb_sym. auto.
      * right; left; exists c1, c2; auto.
      * right; right; left; exists c1, c2. rewrite N.eqb_sym. auto.
      * right; right; right; right; exists c1, c2. rewrite N.eqb_sym. auto.
Qed.

Lemma u_re_m_in (s t r : ustr) :
  In (t, r) (re_m s) <-> s = t ++ r /\ is_month_token t = true.
Proof.
  unfold re_m, m_lit.
  rewrite !u_m_alt_in, !u_m_pair_in, u_m_class_in. split.
  - intros [H|[H|H]];
      [destruct H as (c1 & c2 & -> & -> & P & Q) ..
      |destruct H as (c & -> & -> & P)];
      (split; [reflexivity|]); try (apply N.eqb_eq in P; subst c1); u_token_true.
  - intros [-> T].
    destruct t as [|c1 [|c2 [|]]];
      cbv beta iota delta [is_month_token] in T; try discriminate.
    + right; right. exists c1; auto.
    + apply orb_true_iff in T; destruct T as [T|T];
        apply andb_true_iff in T; destruct T as [P Q].
      * left; exists c1, c2. rewrite N.eqb_sym. auto.
      * right; left; exists c1, c2. rewrite N.eqb_sym. auto.
Qed.

Lemma u_re_Y_in (s t r : ustr) :
  In (t, r) (re_Y s) <-> s = t ++ r /\ is_year_text t = true.
Proof.
  unfold re_Y. rewrite u_m_seq_in. split.
  - intros (t1 & t2 & r1 & H1 & H2 & ->).
    apply u_m_class_in in H1; destruct H1 as (c1 & -> & -> & P1).
    apply u_m_seq_in in H2; destruct H2 as (t3 & t4 & r2 & H2 & H3 & ->).
    apply u_m_class_in in H2; destruct H2 as (c2 & -> & -> & P2).
    apply u_m_pair_in in H3; destruct H3 as (c3 & c4 & -> & -> & P3 & P4).
    split; [reflexivity|]. u_token_true.
  - intros [-> T].
    destruct t as [|c1 [|c2 [|c3 [|c4 [|]]]]];
      cbv beta iota delta [is_year_text] in T; try discriminate.
    apply andb_true_iff in T; destruct T as [T P4].
    apply andb_true_iff in T; destruct T as [T P3].
    apply andb_true_iff in T; destruct T as [P1 P2].
    exists [c1], [c2; c3; c4], (c2 :: c3 :: c4 :: r).
    split; [apply u_m_class_in; exists c1; auto|split; [|reflexivity]].
    apply u_m_seq_in.
    exists [c2], [c3; c4], (c3 :: c4 :: r).
    split; [apply u_m_class_in; exists c2; auto|split; [|reflexivity]].
    apply u_m_pair_in; exists c3, c4; auto.
Qed.

Lemma u_format_regex_in (s d m Y rest : ustr) :
  In (d, m, Y, rest) (format_regex s) <->
  s = d ++ [code "."] ++ m ++ [code "."] ++ Y ++ rest /\
  is_day_token d = true /\ is_month_token m = true /\ is_year_text Y = true.
Proof.
  unfold format_regex. split.
  - intros H.
    apply in_flat_map in H; destruct H as ([d' r1] & Hd & H).
    apply in_flat_map in H; destruct H as ([t1 r2] & H1 & H).
    apply in_flat_map in H; destruct H as ([m' r3] & Hm & H).
    apply in_flat_map in H; destruct H as ([t2 r4] & H2 & H).
    apply in_map_iff in H; destruct H as ([Y' r5] & E & HY).
    cbn [fst snd] in *. injection E as <- <- <- <-.
    apply u_re_d_in in Hd; destruct Hd as [-> Td].
    apply u_m_lit_in in H1; destruct H1 as [-> _].
    apply u_re_m_in in Hm; destruct Hm as [-> Tm].
    apply u_m_lit_in in H2; destruct H2 as [-> _].
    apply u_re_Y_in in HY; destruct HY as [-> TY].
    auto.
  - intros (-> & Td & Tm & TY).
    apply in_flat_map. exists (d, [code "."] ++ m ++ [code "."] ++ Y ++ rest).
    split; [now apply u_re_d_in|].
    apply in_flat_map. exists ([code "."], m ++ [code "."] ++ Y ++ rest).
    split; [now apply u_m_lit_in|].
    apply in_flat_map. exists (m, [code "."] ++ Y ++ rest).
    split; [now apply u_re_m_in|].
    apply in_flat_map. exists ([code "."], Y ++ rest).
    split; [now apply u_m_lit_in|].
    apply in_map_iff. exists (Y, rest). split; [reflexivity|now apply u_re_Y_in].
Qed.


(** *** The tokens of the pattern and the texts of the specification *)

(** Turns the tests on characters among the hypotheses into bounds. *)
Ltac u_chars :=
  repeat match goal with
    | H : is_ascii_digit _ = true |- _ => apply ascii_digit_bounds in H
    | H : in_range _ _ _ = true |- _ => apply range_bounds in H
    | H : N.eqb _ _ = true |- _ => apply N.eqb_eq in H
    end;
  change (code "0") with 48%N in *; change (code "1") with 49%N in *;
  change (code "2") with 50%N in *; change (code "3") with 51%N in *;
  change (code "9") with 57%N in *; change (code " ") with 32%N in *;
  change (code ".") with 46%N in *.

Ltac u_char_goal :=
  first [apply ascii_digit_bounds | apply range_bounds | apply N.eqb_eq];
  change (code "0") with 48%N in *; change (code "1") with 49%N in *;
  change (code "2") with 50%N in *; change (code "3") with 51%N in *;
  change (code "9") with 57%N in *; change (code " ") with 32%N in *;
  change (code ".") with 46%N in *; lia.

Lemma u_int_digits_ascii (acc : Z) (c : N) (r : ustr) :
  (48 <= c <= 57)%N ->
  int_digits acc (c :: r) = int_digits (10 * acc + (Z.of_N c - 48)) r.
Proof. intros H. cbn [int_digits]. now rewrite decimal_value_ascii. Qed.

Lemma u_py_int_first (c : N) (r : ustr) :
  c <> 32%N -> py_int (c :: r) = int_digits 0 (c :: r).
Proof.
  intros H. cbn [py_int]. apply N.eqb_neq in H. now rewrite H.
Qed.

Lemma u_py_int_blank (r : ustr) : py_int (32%N :: r) = py_int r.
Proof. reflexivity. Qed.

Lemma decimal_not_dot (c : N) :
  is_decimal c = true -> negb (c =? code ".")%N = true.
Proof.
  intros H. apply negb_true_iff. apply N.eqb_neq. intros ->.
  rewrite dot_not_decimal in H. discriminate.
Qed.

Lemma digit_or_blank_not_dot (c : N) :
  is_ascii_digit c = true \/ (c =? code " ")%N = true ->
  negb (c =? code ".")%N = true.
Proof.
  intros H. apply negb_true_iff. apply N.eqb_neq.
  destruct H; u_chars; lia.
Qed.

Lemma u_day_token_text (t : ustr) : is_day_token t = true -> is_day_text t = true.
Proof.
  destruct t as [|c1 [|c2 [|]]];
    cbv beta iota delta [is_day_token is_day_text]; try discriminate.
  - intros H; u_chars; u_char_goal.
  - intros T.
    apply orb_true_iff in T; destruct T as [T|T];
      [apply orb_true_iff in T; destruct T as [T|T];
       [apply orb_true_iff in T; destruct T as [T|T]|]|];
      apply andb_true_iff in T; destruct T as [P Q].
    + apply orb_true_iff; left. apply andb_true_iff; split;
        [apply orb_true_iff; left|]; u_chars; u_char_goal.
    + apply orb_true_iff; right. now rewrite P, Q.
    + apply orb_true_iff; left. apply andb_true_iff; split;
        [apply orb_true_iff; left|]; u_chars; u_char_goal.
    + apply orb_true_iff; left. apply andb_true_iff; split;
        [apply orb_true_iff; right; exact P|]; u_chars; u_char_goal.
Qed.

Lemma u_month_token_text (t : ustr) : is_month_token t = true -> is_month_text t = true.
Proof.
  destruct t as [|c1 [|c2 [|]]];
    cbv beta iota delta [is_month_token is_month_text]; try discriminate.
  - intros H; u_chars; u_char_goal.
  - intros T. apply andb_true_iff.
    apply orb_true_iff in T; destruct T as [T|T];
      apply andb_true_iff in T; destruct T as [P Q]; split;
      u_chars; u_char_goal.
Qed.

Lemma u_day_text_dotless (t : ustr) :
  is_day_text t = true -> forallb (fun c => negb (c =? code ".")%N) t = true.
Proof.
  destruct t as [|c1 [|c2 [|]]];
    cbv beta iota delta [is_day_text]; try discriminate; cbn [forallb].
  - intros H. rewrite digit_or_blank_not_dot by auto. reflexivity.
  - intros H. apply orb_true_iff in H. destruct H as [H|H];
      apply andb_true_iff in H; destruct H as [P Q].
    + apply orb_true_iff in P.
      rewrite (digit_or_blank_not_dot c1) by exact P.
      rewrite (digit_or_blank_not_dot c2) by auto. reflexivity.
    + rewrite (digit_or_blank_not_dot c1)
        by (left; u_chars; u_char_goal).
      rewrite (decimal_not_dot c2) by exact Q. reflexivity.
Qed.

Lemma u_month_text_dotless (t : ustr) :
  is_month_text t = true -> forallb (fun c => negb (c =? code ".")%N) t = true.
Proof.
  destruct t as [|c1 [|c2 [|]]];
    cbv beta iota delta [is_month_text]; try discriminate; cbn [forallb].
  - intros H. rewrite digit_or_blank_not_dot by auto. reflexivity.
  - intros H. apply andb_true_iff in H; destruct H as [P Q].
    rewrite (digit_or_blank_not_dot c1), (digit_or_blank_not_dot c2) by auto.
    reflexivity.
Qed.

(** Up to the first dot a text splits in one way only. *)
Lemma u_dot_split_unique (t1 : ustr) :
  forall t2 x1 x2,
    forallb (fun c => negb (c =? code ".")%N) t1 = true ->
    forallb (fun c => negb (c =? code ".")%N) t2 = true ->
    t1 ++ code "." :: x1 = t2 ++ code "." :: x2 -> t1 = t2 /\ x1 = x2.
Proof.
  induction t1 as [|c t1 IH]; intros [|c' t2] x1 x2 D1 D2 E;
    cbn [app] in E; cbn [forallb] in D1, D2.
  - injection E as ->; auto.
  - injection E as <- _. rewrite N.eqb_refl in D2; discriminate.
  - injection E as -> _. rewrite N.eqb_refl in D1; discriminate.
  - injection E as -> E.
    apply andb_true_iff in D1, D2. destruct D1 as [_ D1], D2 as [_ D2].
    destruct (IH t2 x1 x2 D1 D2 E) as [-> ->]; auto.
Qed.

Lemma u_year_split_unique (Y Y' r r' : ustr) :
  is_year_text Y = true -> is_year_text Y' = true ->
  Y ++ r = Y' ++ r' -> Y = Y' /\ r = r'.
Proof.
  destruct Y as [|a1 [|a2 [|a3 [|a4 [|]]]]];
    cbv beta iota delta [is_year_text]; try discriminate.
  destruct Y' as [|b1 [|b2 [|b3 [|b4 [|]]]]];
    cbv beta iota delta [is_year_text]; try discriminate.
  intros _ _ E; cbn [app] in E. injection E as -> -> -> -> ->. auto.
Qed.

Ltac u_alternative_true :=
  cbv beta iota delta [is_day_token is_month_token];
  repeat match goal with H : _ = true |- _ => rewrite H; clear H end;
  cbn [andb orb]; rewrite ?orb_true_r; cbn [orb]; reflexivity.

(** A day text that reads as a number from 1 to 31 is a text of [%d]. *)
Lemma u_day_text_token (t : ustr) :
  is_day_text t = true -> 1 <= py_int t <= 31 -> is_day_token t = true.
Proof.
  destruct t as [|c1 [|c2 [|]]];
    cbv beta iota delta [is_day_text]; try discriminate.
  - intros H R. u_chars.
    rewrite u_py_int_first in R by lia.
    rewrite u_int_digits_ascii in R by assumption. cbn [int_digits] in R.
    cbv beta iota delta [is_day_token]. u_char_goal.
  - intros H R. apply orb_true_iff in H. destruct H as [H|H];
      apply andb_true_iff in H; destruct H as [P Q].
    + apply orb_true_iff in P; destruct P as [P|P]; u_chars.
      * rewrite u_py_int_first in R by lia.
        rewrite !u_int_digits_ascii in R by assumption. cbn [int_digits] in R.
        assert (C : (c1 = 48 \/ 49 <= c1 <= 50 \/ c1 = 51)%N) by lia.
        destruct C as [C|[C|C]].
        -- assert (A : (c1 =? code "0")%N = true) by u_char_goal.
           assert (B : in_range (code "1") (code "9") c2 = true) by u_char_goal.
           clear - A B. u_alternative_true.
        -- assert (A : in_range (code "1") (code "2") c1 = true) by u_char_goal.
           assert (B : is_decimal c2 = true)
             by (apply ascii_digit_decimal; u_char_goal).
           clear - A B. u_alternative_true.
        -- assert (A : (c1 =? code "3")%N = true) by u_char_goal.
           assert (B : in_range (code "0") (code "1") c2 = true) by u_char_goal.
           clear - A B. u_alternative_true.
      * subst c1. rewrite u_py_int_blank in R.
        rewrite u_py_int_first in R by lia.
        rewrite u_int_digits_ascii in R by assumption. cbn [int_digits] in R.
        assert (B : in_range (code "1") (code "9") c2 = true) by u_char_goal.
        assert (A : (32 =? code " ")%N = true) by reflexivity.
        clear - A B. u_alternative_true.
    + clear R. u_alternative_true.
Qed.

(** A month text that reads as a number from 1 to 12 is a text of [%m]. *)
Lemma u_month_text_token (t : ustr) :
  is_month_text t = true -> 1 <= py_int t <= 12 -> is_month_token t = true.
Proof.
  destruct t as [|c1 [|c2 [|]]];
    cbv beta iota delta [is_month_text]; try discriminate.
  - intros H R. u_chars.
    rewrite u_py_int_first in R by lia.
    rewrite u_int_digits_ascii in R by assumption. cbn [int_digits] in R.
    cbv beta iota delta [is_month_token]. u_char_goal.
  - intros H R. apply andb_true_iff in H; destruct H as [P Q]. u_chars.
    rewrite u_py_int_first in R by lia.
    rewrite !u_int_digits_ascii in R by assumption. cbn [int_digits] in R.
    assert (C : (c1 = 48 \/ c1 = 49)%N) by lia.
    destruct C as [C|C].
    + assert (A : (c1 =? code "0")%N = true) by u_char_goal.
      assert (B : in_range (code "1") (code "9") c2 = true) by u_char_goal.
      clear - A B. u_alternative_true.
    + assert (A : (c1 =? code "1")%N = true) by u_char_goal.
      assert (B : in_range (code "0") (code "2") c2 = true) by u_char_goal.
      clear - A B. u_alternative_true.
Qed.

(** [strptime] returns a date exactly on the texts of the form day, dot,
    month, dot, year that name an existing date. *)
Lemma u_strptime_done_iff (s : ustr) :
  (exists x, strptime_dmY s = Ok x) <-> is_D_M_YYYY_date s.
Proof.
  unfold strptime_dmY, is_D_M_YYYY_date, parses_as. split.
  - intros (x & H).
    destruct (format_regex s) as [|[[[d m] Y] rest] l] eqn:F; [discriminate|].
    destruct rest; [|discriminate].
    assert (I : In (d, m, Y, []) (format_regex s)) by (rewrite F; now left).
    apply u_format_regex_in in I. destruct I as (E & Td & Tm & TY).
    rewrite app_nil_r in E.
    exists d, m, Y. repeat split; auto using u_day_token_text, u_month_token_text.
    unfold new_date in H.
    destruct (check_date_fields (py_int Y) (py_int m) (py_int d));
      [reflexivity|discriminate].
  - intros (dd & mm & yyyy & E & Td & Tm & TY & V).
    assert (R : 1 <= py_int mm <= 12 /\ 1 <= py_int dd <= 31).
    { pose proof (valid_date_fields (mkdate (py_int yyyy) (py_int mm) (py_int dd)) V)
        as (_ & Hm & Hd). simpl in Hm, Hd.
      pose proof (days_in_month_le_31 (py_int yyyy) _ Hm). lia. }
    destruct R as [Rm Rd].
    assert (I : In (dd, mm, yyyy, []) (format_regex s)).
    { apply u_format_regex_in. rewrite app_nil_r.
      auto using u_day_text_token, u_month_text_token. }
    destruct (format_regex s) as [|[[[d m] Y] rest] l] eqn:F; [contradiction|].
    assert (I' : In (d, m, Y, rest) (format_regex s)) by (rewrite F; now left).
    apply u_format_regex_in in I'. destruct I' as (E' & Td' & Tm' & TY').
    rewrite E in E'. cbn [app] in E'.
    apply u_dot_split_unique in E';
      auto using u_day_text_dotless, u_day_token_text.
    destruct E' as [<- E'].
    apply u_dot_split_unique in E';
      auto using u_month_text_dotless, u_month_token_text.
    destruct E' as [<- E'].
    rewrite <- (app_nil_r yyyy) in E' at 1.
    apply u_year_split_unique in E'; auto.
    destruct E' as [<- <-].
    unfold new_date. rewrite V. eauto.
Qed.

Lemma u_validate_birthday_done (s : ustr) :
  validate_birthday s = true <-> exists x, strptime_dmY s = Ok x.
Proof.
  unfold validate_birthday. destruct (strptime_dmY s); split;
    try discriminate; eauto; intros (x & H); discriminate.
Qed.

(** With day and month given, a text is accepted only if the rest is a
    year with which they form a date. *)
Lemma u_validate_birthday_parts (dd mm yyyy : ustr) :
  is_day_text dd = true -> is_month_text mm = true ->
  validate_birthday (dd ++ [code "."] ++ mm ++ [code "."] ++ yyyy) = true ->
  is_year_text yyyy = true /\
  check_date_fields (py_int yyyy) (py_int mm) (py_int dd) = true.
Proof.
  intros Td Tm H.
  apply u_validate_birthday_done, u_strptime_done_iff in H.
  destruct H as (d & m & Y & E & Td' & Tm' & TY & V).
  cbn [app] in E.
  apply u_dot_split_unique in E; auto using u_day_text_dotless.
  destruct E as [-> E].
  apply u_dot_split_unique in E; auto using u_month_text_dotless.
  destruct E as [-> ->]. auto.
Qed.


(** *** The phone pattern *)

Lemma u_m_rep_in (p : N -> bool) (hi : nat) :
  forall (lo : nat) (s t r : ustr),
    In (t, r) (m_rep p lo hi s) <->
    s = t ++ r /\ forallb p t = true /\ (lo <= List.length t <= hi)%nat.
Proof.
  induction hi as [|hi IH]; intros lo s t r; cbn [m_rep].
  - destruct lo as [|lo]; simpl; split.
    + intros [E|[]]; injection E as <- <-. repeat split; auto.
    + intros (-> & _ & L). destruct t; simpl in L; [now left|lia].
    + tauto.
    + intros (_ & _ & L); lia.
  - rewrite in_app_iff. split.
    + intros [H|H].
      * destruct s as [|c s']; [contradiction|].
        destruct (p c) eqn:P; [|contradiction].
        apply in_map_iff in H. destruct H as ([t' r'] & E & H).
        cbn [fst snd] in E. injection E as <- <-.
        apply IH in H. destruct H as (-> & A & L).
        repeat split; cbn [forallb List.length]; [now rewrite P| |]; lia.
      * destruct lo; [|contradiction]. destruct H as [E|[]].
        injection E as <- <-. repeat split; simpl; lia.
    + intros (-> & A & L). destruct t as [|c t'].
      * right. destruct lo; [now left|simpl in L; lia].
      * left. cbn [app]. cbn [forallb] in A.
        apply andb_true_iff in A. destruct A as [P A]. rewrite P.
        apply in_map_iff. exists (t', r). split; [reflexivity|].
        apply IH. repeat split; auto; cbn [List.length] in L; lia.
Qed.

Lemma u_phone_pattern_in (s t r : ustr) :
  In (t, r) (phone_pattern s) <-> s = t ++ r /\ is_phone_text t = true.
Proof.
  unfold phone_pattern. rewrite u_m_alt_in, !u_m_seq_in. split.
  - intros [H|H]; destruct H as (t1 & t2 & r1 & H1 & H2 & ->);
      apply u_m_lit_in in H1; destruct H1 as [-> ->];
      apply u_m_rep_in in H2; destruct H2 as (-> & A & L);
      (split; [reflexivity|]); cbn [app is_phone_text];
      rewrite A, N.eqb_refl; cbn [andb];
      [apply orb_true_iff; left|apply orb_true_iff; right];
      apply andb_true_iff; split; apply Nat.leb_le; lia.
  - intros [-> T]. destruct t as [|c ds]; [discriminate|].
    cbn [is_phone_text] in T.
    apply andb_true_iff in T; destruct T as [A T].
    apply orb_true_iff in T; destruct T as [T|T];
      apply andb_true_iff in T; destruct T as [T L2];
      apply andb_true_iff in T; destruct T as [E L1];
      apply N.eqb_eq in E; subst c; apply Nat.leb_le in L1, L2;
      [left|right];
      (eexists [_], ds, (ds ++ r);
       split; [now apply u_m_lit_in|split; [|reflexivity]];
       apply u_m_rep_in; auto).
Qed.

(** What [validate_phone_number] accepts: a phone text, or one followed by
    a single newline. *)
Lemma u_validate_phone_number_iff (s : ustr) :
  validate_phone_number s = true <->
  exists t, is_phone_text t = true /\ (s = t \/ s = t ++ [10%N]).
Proof.
  unfold validate_phone_number, match_to_dollar. rewrite existsb_exists. split.
  - intros ([t r] & I & D). apply u_phone_pattern_in in I. destruct I as [-> T].
    exists t; split; [assumption|]. cbn [snd] in D.
    destruct r as [|c [|]]; cbn [at_dollar] in D; try discriminate.
    + left; now rewrite app_nil_r.
    + right. apply N.eqb_eq in D; subst c. reflexivity.
  - intros (t & T & [->| ->]).
    + exists (t, []). split; [|reflexivity].
      apply u_phone_pattern_in. now rewrite app_nil_r.
    + exists (t, [10%N]). split; [|reflexivity].
      now apply u_phone_pattern_in.
Qed.

Lemma no_newline_app (a b : ustr) :
  no_newline (a ++ b) = no_newline a && no_newline b.
Proof. unfold no_newline. apply forallb_app. Qed.

Lemma decimal_no_newline (t : ustr) : forallb is_decimal t = true -> no_newline t = true.
Proof.
  unfold no_newline. induction t as [|c t IH]; cbn [forallb]; [reflexivity|].
  intros H. apply andb_true_iff in H. destruct H as [D H].
  rewrite (IH H), andb_true_r. apply negb_true_iff. apply N.eqb_neq. intros ->.
  discriminate.
Qed.

Lemma phone_text_no_newline (t : ustr) : is_phone_text t = true -> no_newline t = true.
Proof.
  destruct t as [|c ds]; [discriminate|]. cbn [is_phone_text].
  intros H. apply andb_true_iff in H. destruct H as [D H].
  unfold no_newline. cbn [forallb]. fold (no_newline ds).
  rewrite (decimal_no_newline ds D), andb_true_r.
  apply negb_true_iff. apply N.eqb_neq. intros ->.
  rewrite !andb_false_l in H. discriminate.
Qed.

(** *** The strings of code points below 256 *)

Lemma codes_app (a b : string) : codes (a ++ b) = codes a ++ codes b.
Proof. induction a as [|c a IH]; simpl; [reflexivity|now rewrite IH]. Qed.

Lemma codes_nil (s : string) : codes s = [] <-> s = EmptyString.
Proof. destruct s; simpl; split; intros H; try reflexivity; discriminate. Qed.

Lemma code_eqb (a c : ascii) : (code a =? code c)%N = Ascii.eqb a c.
Proof.
  destruct (Ascii.eqb a c) eqn:E.
  - apply Ascii.eqb_eq in E. subst. apply N.eqb_refl.
  - apply N.eqb_neq. intros H. apply Ascii.eqb_neq in E. apply E.
    unfold code in H.
    rewrite <- (ascii_N_embedding a), <- (ascii_N_embedding c). now rewrite H.
Qed.


Lemma agree_class (p : ascii -> bool) (p' : N -> bool) :
  (forall c, p' (code c) = p c) -> agree (PyRe.m_class p) (m_class p').
Proof.
  intros H [|c r]; simpl; [reflexivity|]. rewrite H. now destruct (p c).
Qed.

Lemma agree_lit (c : ascii) : agree (PyRe.m_lit c) (m_lit (code c)).
Proof. apply agree_class. intros c'. apply code_eqb. Qed.

Lemma flat_map_agree {A B A' B' : Type} (f : A -> list B) (f' : A' -> list B')
    (ga : A -> A') (gb : B -> B') (l : list A) :
  (forall x, f' (ga x) = map gb (f x)) ->
  flat_map f' (map ga l) = map gb (flat_map f l).
Proof.
  intros H. induction l as [|x l IH]; simpl; [reflexivity|].
  now rewrite map_app, H, IH.
Qed.

Lemma agree_seq (a b : PyRe.matcher) (a' b' : matcher) :
  agree a a' -> agree b b' -> agree (PyRe.m_seq a b) (m_seq a' b').
Proof.
  intros Ha Hb s. unfold m_seq, PyRe.m_seq. rewrite Ha.
  apply flat_map_agree. intros [t1 r1]; cbn [fst snd].
  rewrite Hb, !map_map. apply map_ext. intros [t2 r2]; cbn [fst snd].
  now rewrite codes_app.
Qed.

Lemma agree_alt (a b : PyRe.matcher) (a' b' : matcher) :
  agree a a' -> agree b b' -> agree (PyRe.m_alt a b) (m_alt a' b').
Proof.
  intros Ha Hb s. unfold m_alt, PyRe.m_alt. now rewrite Ha, Hb, map_app.
Qed.

Lemma agree_rep (p : ascii -> bool) (p' : N -> bool) (hi : nat) :
  (forall c, p' (code c) = p c) ->
  forall lo, agree (PyRe.m_rep p lo hi) (m_rep p' lo hi).
Proof.
  intros H. induction hi as [|hi IH]; intros lo s; cbn [m_rep PyRe.m_rep].
  - destruct lo; reflexivity.
  - rewrite map_app. f_equal.
    + destruct s as [|c r]; cbn [codes]; [reflexivity|].
      rewrite H. destruct (p c); [|reflexivity].
      rewrite IH, !map_map. apply map_ext. intros [t r']; reflexivity.
    + destruct lo; reflexivity.
Qed.

Lemma agree_range (lo hi : ascii) :
  agree (PyRe.m_class (PyRe.in_range lo hi)) (m_class (in_range (code lo) (code hi))).
Proof. apply agree_class. reflexivity. Qed.

Lemma agree_digit : agree (PyRe.m_class is_digit) (m_class is_decimal).
Proof. apply agree_class. apply decimal_of_code. Qed.

Ltac agree_parts :=
  repeat first [apply agree_alt | apply agree_seq | apply agree_lit
               | apply agree_range | apply agree_digit].

Lemma agree_re_d : agree PyStrptime.re_d re_d.
Proof. unfold re_d, PyStrptime.re_d. agree_parts. Qed.

Lemma agree_re_m : agree PyStrptime.re_m re_m.
Proof. unfold re_m, PyStrptime.re_m. agree_parts. Qed.

Lemma agree_re_Y : agree PyStrptime.re_Y re_Y.
Proof. unfold re_Y, PyStrptime.re_Y. agree_parts. Qed.

Lemma agree_phone_pattern : agree helpers.phone_pattern phone_pattern.
Proof.
  unfold phone_pattern, helpers.phone_pattern.
  apply agree_alt; apply agree_seq; try apply agree_lit;
    apply agree_rep; apply decimal_of_code.
Qed.

Lemma format_regex_codes (s : string) :
  format_regex (codes s) =
  map (fun q => match q with
                | (d, m, Y, rest) => (codes d, codes m, codes Y, codes rest)
                end) (PyStrptime.format_regex s).
Proof.
  unfold format_regex, PyStrptime.format_regex.
  rewrite agree_re_d. apply flat_map_agree. intros [d r1]; cbn [fst snd].
  change (code ".") with (code "."%char).
  rewrite (agree_lit "." r1). apply flat_map_agree. intros [t1 r2]; cbn [fst snd].
  rewrite agree_re_m. apply flat_map_agree. intros [m r3]; cbn [fst snd].
  rewrite (agree_lit "." r3). apply flat_map_agree. intros [t2 r4]; cbn [fst snd].
  rewrite agree_re_Y, !map_map. apply map_ext. intros [Y r5]. reflexivity.
Qed.

Lemma int_digits_codes (t : string) :
  forall acc, all_chars is_digit t = true ->
              int_digits acc (codes t) = PyRe.int_digits acc t.
Proof.
  induction t as [|c t IH]; intros acc H; [reflexivity|].
  cbn [all_chars] in H. apply andb_true_iff in H. destruct H as [D H].
  cbn [codes int_digits PyRe.int_digits].
  rewrite (decimal_value_of_code c D). now apply IH.
Qed.

Lemma py_int_codes_digits (t : string) :
  all_chars is_digit t = true -> py_int (codes t) = PyRe.py_int t.
Proof.
  destruct t as [|c r]; [reflexivity|]. intros H.
  pose proof H as H'. cbn [all_chars] in H'.
  apply andb_true_iff in H'. destruct H' as [D _].
  rewrite (py_int_digit_first c r D). cbn [codes].
  rewrite u_py_int_first.
  - now apply (int_digits_codes (String c r)).
  - apply is_digit_code in D. lia.
Qed.

Lemma py_int_codes_day (t : string) :
  Spec.is_day_text t = true -> py_int (codes t) = PyRe.py_int t.
Proof.
  destruct t as [|c1 [|c2 [|]]];
    cbv beta iota delta [Spec.is_day_text]; try discriminate.
  - intros H. apply py_int_codes_digits. cbn [all_chars]. now rewrite H.
  - intros H. apply andb_true_iff in H. destruct H as [P Q].
    apply orb_true_iff in P. destruct P as [P|P].
    + apply py_int_codes_digits. cbn [all_chars]. now rewrite P, Q.
    + apply Ascii.eqb_eq in P. subst c1.
      change (PyRe.py_int (String " " (String c2 "")))
        with (PyRe.py_int (String c2 "")).
      change (py_int (codes (String " " (String c2 ""))))
        with (py_int (codes (String c2 ""))).
      apply py_int_codes_digits. cbn [all_chars]. now rewrite Q.
Qed.

Lemma py_int_codes_month (t : string) :
  Spec.is_month_text t = true -> py_int (codes t) = PyRe.py_int t.
Proof.
  destruct t as [|c1 [|c2 [|]]];
    cbv beta iota delta [Spec.is_month_text]; try discriminate;
    intros H; apply py_int_codes_digits; cbn [all_chars].
  - now rewrite H.
  - apply andb_true_iff in H. destruct H as [P Q]. now rewrite P, Q.
Qed.

Lemma py_int_codes_year (t : string) :
  Spec.is_year_text t = true -> py_int (codes t) = PyRe.py_int t.
Proof.
  destruct t as [|c1 [|c2 [|c3 [|c4 [|]]]]];
    cbv beta iota delta [Spec.is_year_text]; try discriminate.
  intros H. apply andb_true_iff in H; destruct H as [H P4].
  apply andb_true_iff in H; destruct H as [H P3].
  apply andb_true_iff in H; destruct H as [P1 P2].
  apply py_int_codes_digits. cbn [all_chars]. now rewrite P1, P2, P3, P4.
Qed.

(** On a [str] of code points below 256 the two models of [strptime]
    give the same answer. *)
Lemma strptime_codes (s : string) :
  strptime_dmY (codes s) = PyStrptime.strptime_dmY s.
Proof.
  unfold strptime_dmY, PyStrptime.strptime_dmY. rewrite format_regex_codes.
  destruct (PyStrptime.format_regex s) as [|[[[d m] Y] rest] l] eqn:F;
    [reflexivity|].
  cbn [map]. destruct rest as [|c rest]; [|reflexivity]. cbn [codes].
  assert (I : In (d, m, Y, EmptyString) (PyStrptime.format_regex s))
    by (rewrite F; now left).
  apply format_regex_in in I. destruct I as (_ & Td & Tm & TY).
  rewrite (py_int_codes_day d (day_token_text d Td)).
  rewrite (py_int_codes_month m (month_token_text m Tm)).
  now rewrite (py_int_codes_year Y TY).
Qed.

Lemma validate_birthday_codes (s : string) :
  validate_birthday (codes s) = helpers.validate_birthday s.
Proof.
  unfold validate_birthday, helpers.validate_birthday. now rewrite strptime_codes.
Qed.

Lemma existsb_map {A B : Type} (f : B -> bool) (g : A -> B) (l : list A) :
  existsb f (map g l) = existsb (fun x => f (g x)) l.
Proof. induction l as [|x l IH]; simpl; [reflexivity|now rewrite IH]. Qed.

Lemma at_dollar_codes (r : string) : at_dollar (codes r) = PyRe.at_dollar r.
Proof.
  destruct r as [|c [|c' r']]; cbn [codes at_dollar PyRe.at_dollar]; try reflexivity.
  rewrite Ascii.eqb_sym. rewrite <- code_eqb. rewrite N.eqb_sym. reflexivity.
Qed.

Lemma validate_phone_number_codes (s : string) :
  validate_phone_number (codes s) = helpers.validate_phone_number s.
Proof.
  unfold validate_phone_number, helpers.validate_phone_number.
  unfold match_to_dollar, PyRe.match_to_dollar.
  rewrite agree_phone_pattern, existsb_map.
  induction (helpers.phone_pattern s) as [|[t r] l IH]; [reflexivity|].
  cbn [existsb fst snd] in *. now rewrite at_dollar_codes, IH.
Qed.

(** A text without whitespace holds no newline. *)
Lemma spaceless_no_newline (w : string) :
  spaceless w = true -> no_newline (codes w) = true.
Proof.
  unfold spaceless, no_newline. induction w as [|c w IH]; [reflexivity|].
  cbn [all_chars codes forallb]. intros H.
  apply andb_true_iff in H. destruct H as [S H]. rewrite (IH H), andb_true_r.
  apply negb_true_iff in S. apply negb_true_iff. apply N.eqb_neq. intros E.
  assert (C : c = "010"%char).
  { rewrite <- (ascii_N_embedding c). unfold code in E. now rewrite E. }
  subst c. discriminate.
Qed.

End Digits.

(** C8. On every [str], of any code points, [validate_birthday] accepts
    exactly the texts made of a day, a dot, a month, a dot and a year that
    name an existing date, where the day is one or two of the digits [0]
    to [9], or a blank and one of them, or [1] or [2] followed by a decimal
    digit of any script, the month is one or two of the digits [0] to [9],
    and the year is four decimal digits of any script; the numbers are
    those [int] reads.  Every text in the form DD.MM.YYYY in the digits
    [0] to [9] that names an existing date is among them.  Parts that are
    not numbers, days and months out of range, and dates that do not
    exist, such as 31.04 of any year and 29.02 of a year that is not a
    leap year, are rejected.  On the strings of code points below 256
    this is the [validate_birthday] the handlers are modelled with. *)
Theorem validate_birthday_accepts_dates :
  (forall s : PyUnicode.ustr,
      PyUnicode.validate_birthday s = true <-> PyUnicode.is_D_M_YYYY_date s) /\
  (forall s : PyUnicode.ustr,
      PyUnicode.is_DD_MM_YYYY_date s -> PyUnicode.validate_birthday s = true) /\
  (forall yyyy : PyUnicode.ustr,
      PyUnicode.validate_birthday (PyUnicode.codes "31.04." ++ yyyy) = false) /\
  (forall yyyy : PyUnicode.ustr,
      is_leap (PyUnicode.py_int yyyy) = false ->
      PyUnicode.validate_birthday (PyUnicode.codes "29.02." ++ yyyy) = false) /\
  (forall s : string,
      validate_birthday s = PyUnicode.validate_birthday (PyUnicode.codes s)) /\
  map validate_birthday
    ["ab.cd.efgh"; "32.01.2000"; "01.13.2000"; "00.01.2000"; "29.02.2024"]%string
  = [false; false; false; false; true] /\
  PyUnicode.validate_birthday (PyUnicode.codes "01.01." ++ PyUnicode.arabic_2000) = true /\
  PyUnicode.validate_birthday
    (PyUnicode.codes "1" ++ [PyUnicode.arabic_one] ++ PyUnicode.codes ".01.2000") = true /\
  PyUnicode.validate_birthday
    ([PyUnicode.arabic_zero] ++ PyUnicode.codes "1.01.2000") = false /\
  PyUnicode.validate_birthday
    (PyUnicode.codes "01." ++ [PyUnicode.arabic_zero] ++ PyUnicode.codes "1.2000") = false.
Proof.
  assert (G : forall s, PyUnicode.validate_birthday s = true <->
                        PyUnicode.is_D_M_YYYY_date s).
  { intros s. rewrite u_validate_birthday_done. apply u_strptime_done_iff. }
  split; [exact G|].
  split; [|split; [|split; [|split; [|repeat split; reflexivity]]]].
  - intros s (dd & mm & yyyy & E & Td & Tm & TY & V). apply G.
    exists dd, mm, yyyy. repeat split; auto.
    + destruct dd as [|c1 [|c2 [|]]]; try discriminate.
      cbv beta iota delta [PyUnicode.is_two_digits] in Td.
      apply andb_true_iff in Td; destruct Td as [P Q].
      cbv beta iota delta [PyUnicode.is_day_text]. now rewrite P, Q.
    + destruct mm as [|c1 [|c2 [|]]]; try discriminate. exact Tm.
    + destruct yyyy as [|c1 [|c2 [|c3 [|c4 [|]]]]]; try discriminate.
      cbv beta iota delta [PyUnicode.is_four_digits] in TY.
      apply andb_true_iff in TY; destruct TY as [TY P4].
      apply andb_true_iff in TY; destruct TY as [TY P3].
      apply andb_true_iff in TY; destruct TY as [P1 P2].
      cbv beta iota delta [PyUnicode.is_year_text].
      now rewrite !ascii_digit_decimal by assumption.
  - intros yyyy.
    destruct (PyUnicode.validate_birthday (PyUnicode.codes "31.04." ++ yyyy)) eqn:E;
      [|reflexivity].
    apply (u_validate_birthday_parts (PyUnicode.codes "31") (PyUnicode.codes "04") yyyy)
      in E; try reflexivity.
    destruct E as [_ V].
    pose proof (valid_date_fields (mkdate _ _ _) V) as (_ & _ & Hd).
    cbn [year month day] in Hd.
    change (PyUnicode.py_int (PyUnicode.codes "04")) with 4 in Hd.
    change (PyUnicode.py_int (PyUnicode.codes "31")) with 31 in Hd.
    change (days_in_month (PyUnicode.py_int yyyy) 4) with 30 in Hd. lia.
  - intros yyyy L.
    destruct (PyUnicode.validate_birthday (PyUnicode.codes "29.02." ++ yyyy)) eqn:E;
      [|reflexivity].
    apply (u_validate_birthday_parts (PyUnicode.codes "29") (PyUnicode.codes "02") yyyy)
      in E; try reflexivity.
    destruct E as [_ V].
    pose proof (valid_date_fields (mkdate _ _ _) V) as (_ & _ & Hd).
    cbn [year month day] in Hd.
    change (PyUnicode.py_int (PyUnicode.codes "02")) with 2 in Hd.
    change (PyUnicode.py_int (PyUnicode.codes "29")) with 29 in Hd.
    unfold days_in_month in Hd. rewrite L in Hd.
    change ((2 =? 2) && false) with false in Hd. cbv iota in Hd.
    change (DAYS_IN_MONTH 2) with 28 in Hd. lia.
  - intros s. symmetry. apply validate_birthday_codes.
Qed.

(** C8 as it is worded fails: a day and a month of one digit are accepted
    although the text is not of the form DD.MM.YYYY. *)
Lemma validate_birthday_accepts_one_digit :
  validate_birthday "1.1.2000" = true /\ ~ is_DD_MM_YYYY_date "1.1.2000".
Proof.
  split; [reflexivity|].
  intros (dd & mm & yyyy & E & Td & _).
  destruct dd as [|c1 [|c2 [|]]]; discriminate.
Qed.

(** ** Instances *)

Section Instances.

Local Open Scope string_scope.

Example validate_name_samples :
  map validate_name ["bob"; "Zoe"; ""; "bob1"; "a b"] =
  [true; true; false; false; false].
Proof. reflexivity. Qed.

Example upcoming_birthdays_sample :
  AddressBook_upcoming_birthdays 2 june_10 sample_book 7 =
  Done [("alice", mkdate 2023 6 14); ("erin", mkdate 2023 6 14);
        ("dave", mkdate 2023 6 17)].
Proof. reflexivity. Qed.

Example upcoming_birthdays_none :
  AddressBook_upcoming_birthdays 2 (mkdate 2023 1 1) sample_book 7 = Done [].
Proof. reflexivity. Qed.

Lemma days_to_birthday_next_occurrence_witness :
  Record_days_to_birthday 2 (mkdate 2023 3 1) (contact "zoe" (Some (mkdate 2000 2 29))) =
    Done (Some (toordinal (candidate (mkdate 2000 2 29) 2024)
                - toordinal (mkdate 2023 3 1))) /\
  (valid_date (mkdate 2023 3 1) = true ->
   0 <= toordinal (candidate (mkdate 2000 2 29) 2024) - toordinal (mkdate 2023 3 1)).
Proof.
  apply (proj1 (proj2 days_to_birthday_next_occurrence)).
  - reflexivity.
  - split; [simpl; lia|split; [reflexivity|]].
    intros y' H; simpl in H. assert (E : y' = 2023) by lia. rewrite E. reflexivity.
  - simpl. lia.
Defined.

Lemma upcoming_birthdays_entries_witness :
  exists l,
    AddressBook_upcoming_birthdays 2 june_10 sample_book 7 = Done l /\
    Permutation l
      (flat_map (fun r => upcoming_entry june_10 7 r (offset_at 2 june_10 r))
                (dict_values sample_book)).
Proof.
  refine (proj1 (upcoming_birthdays_entries 2 june_10 sample_book 7
                   (offset_at 2 june_10) _)).
  intros r H; simpl in H.
  repeat (destruct H as [<-|H]; [reflexivity|]). contradiction.
Defined.

Lemma upcoming_birthdays_sorted_stable_witness :
  exists l,
    AddressBook_upcoming_birthdays 2 june_10 sample_book 7 = Done l /\
    StronglySorted date_order l /\
    forall d,
      filter (on_date d) l =
      filter (on_date d)
        (flat_map (fun r => upcoming_entry june_10 7 r (offset_at 2 june_10 r))
                  (dict_values sample_book)).
Proof.
  apply (upcoming_birthdays_sorted_stable 2 june_10 sample_book 7
           (offset_at 2 june_10)).
  intros r H; simpl in H.
  repeat (destruct H as [<-|H]; [reflexivity|]). contradiction.
Defined.

Lemma birthday_set_once_witness :
  Record_add_birthday (contact "zoe" (Some (mkdate 2000 2 29))) "01.01.2001" =
  Ok ("Birthday already set", contact "zoe" (Some (mkdate 2000 2 29))).
Proof.
  apply (proj1 birthday_set_once) with (b := mkBirthday (Some (mkdate 2000 2 29))).
  reflexivity.
Defined.

Lemma validate_birthday_accepts_dates_witness :
  PyUnicode.validate_birthday (PyUnicode.codes "29.02." ++ PyUnicode.arabic_2023)%list
  = false.
Proof.
  apply (proj1 (proj2 (proj2 (proj2 validate_birthday_accepts_dates)))).
  reflexivity.
Defined.

Lemma add_record_overwrites_witness :
  dict_keys (snd (AddressBook_add_record sample_book
                    (contact "bob" (Some (mkdate 1999 1 2))))) =
  dict_keys sample_book.
Proof.
  apply (proj1 (proj2 (proj2 add_record_overwrites))) with (old := contact "bob" None).
  reflexivity.
Defined.

End Instances.

(** * Further properties *)

(** ** The phones of a record *)

Section RecordPhones.

Lemma record_eta (r : ContactRecord) : mkRecord (name r) (phones r) (birthday r) = r.
Proof. now destruct r. Qed.

Lemma find_index_some (p : string) (l : list Phone) (i : nat) :
  find_index p l = Some i ->
  nth_error (map phone_value l) i = Some p /\ ~ In p (firstn i (map phone_value l)).
Proof.
  revert i; induction l as [|x l IH]; intros i; simpl; [discriminate|].
  unfold phone_is. destruct (String.eqb_spec (phone_value x) p) as [E|N].
  - intros H; injection H as <-. simpl. split; [now rewrite E|tauto].
  - destruct (find_index p l) as [j|]; [|discriminate].
    intros H; injection H as <-. destruct (IH j eq_refl) as [A B].
    simpl. split; [exact A|]. intros [H|H]; [contradiction|now apply B].
Qed.

Lemma find_index_none_iff (p : string) (l : list Phone) :
  find_index p l = None <-> ~ In p (map phone_value l).
Proof.
  split; [apply find_index_none|].
  induction l as [|x l IH]; simpl; [reflexivity|].
  intros H. unfold phone_is.
  destruct (String.eqb_spec (phone_value x) p) as [E|N]; [exfalso; auto|].
  rewrite IH; [reflexivity|tauto].
Qed.

Lemma find_index_app_other (p q : string) (l : list Phone) :
  q <> p -> find_index q (l ++ [mkPhone p]) = find_index q l.
Proof.
  intros N; induction l as [|x l IH]; simpl.
  - unfold phone_is; simpl. destruct (String.eqb_spec p q); [congruence|reflexivity].
  - destruct (phone_is q x); [reflexivity|now rewrite IH].
Qed.

Lemma find_index_lt (p : string) (l : list Phone) (i : nat) :
  find_index p l = Some i -> (i < List.length l)%nat.
Proof.
  revert i; induction l as [|x l IH]; intros i; simpl; [discriminate|].
  destruct (phone_is p x); [intros H; injection H as <-; lia|].
  destruct (find_index p l) as [j|]; [|discriminate].
  intros H; injection H as <-. specialize (IH j eq_refl). lia.
Qed.

Lemma set_nth_length (i : nat) (v : Phone) (l : list Phone) :
  List.length (set_nth i v l) = List.length l.
Proof. revert i; induction l as [|x l IH]; intros [|i]; simpl; auto. Qed.

Lemma set_nth_same (i : nat) (v : Phone) (l : list Phone) :
  (i < List.length l)%nat -> nth_error (set_nth i v l) i = Some v.
Proof.
  revert i; induction l as [|x l IH]; intros [|i] H; simpl in *; try lia; auto.
  apply IH; lia.
Qed.

Lemma set_nth_other (i j : nat) (v : Phone) (l : list Phone) :
  j <> i -> nth_error (set_nth i v l) j = nth_error l j.
Proof.
  revert i j; induction l as [|x l IH]; intros [|i] [|j] H; simpl; auto; try lia.
Qed.

Lemma del_nth_split (i : nat) (l : list Phone) :
  del_nth i l = firstn i l ++ skipn (S i) l.
Proof.
  revert i; induction l as [|x l IH]; intros [|i]; simpl; auto.
  now rewrite IH.
Qed.

Lemma del_nth_last (l : list Phone) (v : Phone) : del_nth (List.length l) (l ++ [v]) = l.
Proof. induction l as [|x l IH]; simpl; [reflexivity|now rewrite IH]. Qed.

Lemma find_index_fresh_last (p : string) (l : list Phone) :
  ~ In p (map phone_value l) -> find_index p (l ++ [mkPhone p]) = Some (List.length l).
Proof.
  induction l as [|x l IH]; simpl; intros H.
  - unfold phone_is; simpl. now rewrite String.eqb_refl.
  - unfold phone_is. destruct (String.eqb_spec (phone_value x) p) as [E|N]; [exfalso; auto|].
    rewrite IH; [reflexivity|tauto].
Qed.

End RecordPhones.

(** X1. [find_phone] returns the first phone with the number: where it
    answers, that phone holds the number and none before it does; it
    answers [None] exactly when no phone of the record holds the number. *)
Theorem find_phone_first_match (r : ContactRecord) (p : string) :
  match Record_find_phone r p with
  | Some i =>
      nth_error (phone_numbers r) i = Some p /\
      ~ In p (firstn i (phone_numbers r))
  | None => ~ In p (phone_numbers r)
  end.
Proof.
  unfold Record_find_phone, phone_numbers.
  destruct (find_index p (phones r)) as [i|] eqn:F.
  - now apply find_index_some.
  - now apply find_index_none.
Qed.

(** X2. [add_phone] never refuses: the number goes to the end of the
    phones, also when the record has it already, name and birthday stay,
    [find_phone] finds the number afterwards, and what it answers for any
    other number is as before. *)
Theorem add_phone_appends (r : ContactRecord) (p : string) :
  fst (Record_add_phone r p) = "Phone number is set"%string /\
  phone_numbers (snd (Record_add_phone r p)) = phone_numbers r ++ [p] /\
  name (snd (Record_add_phone r p)) = name r /\
  birthday (snd (Record_add_phone r p)) = birthday r /\
  Record_find_phone (snd (Record_add_phone r p)) p <> None /\
  (forall q, q <> p ->
             Record_find_phone (snd (Record_add_phone r p)) q = Record_find_phone r q).
Proof.
  unfold Record_add_phone, Record_find_phone, phone_numbers, Phone_init; simpl.
  repeat split.
  - now rewrite map_app.
  - apply find_index_last.
  - intros q N. now apply find_index_app_other.
Qed.

(** X3. [edit_phone] on a number the record lacks reports [Phone number
    not found] and changes nothing; otherwise it puts the new number in
    the place of the first phone with the old one: as many phones as
    before, every other place as it was, name and birthday kept, and
    [find_phone] finds the new number. *)
Theorem edit_phone_replaces_first (r : ContactRecord) (old_number new_number : string) :
  (Record_find_phone r old_number = None ->
   Record_edit_phone r old_number new_number = ("Phone number not found"%string, r)) /\
  (forall i,
      Record_find_phone r old_number = Some i ->
      exists r',
        Record_edit_phone r old_number new_number = ("Phone number is set"%string, r') /\
        List.length (phone_numbers r') = List.length (phone_numbers r) /\
        nth_error (phone_numbers r') i = Some new_number /\
        (forall j, j <> i ->
                   nth_error (phone_numbers r') j = nth_error (phone_numbers r) j) /\
        name r' = name r /\ birthday r' = birthday r /\
        Record_find_phone r' new_number <> None).
Proof.
  unfold Record_edit_phone. split.
  - intros H; now rewrite H.
  - intros i H; rewrite H. eexists; split; [reflexivity|].
    pose proof (find_index_lt _ _ _ H) as L.
    unfold phone_numbers, Record_find_phone; simpl.
    assert (N : nth_error (map phone_value (set_nth i (mkPhone new_number) (phones r))) i
                = Some new_number)
      by (rewrite nth_error_map, set_nth_same by assumption; reflexivity).
    repeat split.
    + now rewrite !List.length_map, set_nth_length.
    + exact N.
    + intros j Hj. now rewrite !nth_error_map, set_nth_other.
    + intros F. apply find_index_none_iff in F. apply F.
      exact (nth_error_In _ _ N).
Qed.

(** X4. [remove_phone] on a number the record lacks reports [Phone number
    not found] and changes nothing; otherwise it takes out the first phone
    with the number and no other: the phones before and after it stay in
    order, and one occurrence of the number fewer is left, none if the
    number was there once. *)
Theorem remove_phone_removes_first (r : ContactRecord) (p : string) :
  (Record_find_phone r p = None ->
   Record_remove_phone r p = ("Phone number not found"%string, r)) /\
  (forall i,
      Record_find_phone r p = Some i ->
      exists r',
        Record_remove_phone r p = ("Phone number is deleted"%string, r') /\
        phone_numbers r' = firstn i (phone_numbers r) ++ skipn (S i) (phone_numbers r) /\
        S (List.length (phone_numbers r')) = List.length (phone_numbers r) /\
        S (count_occ string_dec (phone_numbers r') p)
          = count_occ string_dec (phone_numbers r) p /\
        (count_occ string_dec (phone_numbers r) p = 1%nat ->
         Record_find_phone r' p = None) /\
        name r' = name r /\ birthday r' = birthday r).
Proof.
  unfold Record_remove_phone. split.
  - intros H; now rewrite H.
  - intros i H; rewrite H. eexists; split; [reflexivity|].
    pose proof (find_index_lt _ _ _ H) as L.
    destruct (find_index_some _ _ _ H) as [Hi Hbefore].
    unfold phone_numbers, Record_find_phone in *; simpl.
    assert (E : map phone_value (del_nth i (phones r)) =
                firstn i (map phone_value (phones r))
                ++ skipn (S i) (map phone_value (phones r)))
      by (now rewrite del_nth_split, map_app, firstn_map, skipn_map).
    assert (S0 : map phone_value (phones r) =
                 firstn i (map phone_value (phones r))
                 ++ p :: skipn (S i) (map phone_value (phones r))).
    { rewrite <- (firstn_skipn i (map phone_value (phones r))) at 1.
      f_equal. clear - Hi. revert i Hi.
      induction (map phone_value (phones r)) as [|x l IH]; intros [|i] Hi;
        simpl in *; try discriminate.
      - now injection Hi as ->.
      - now apply IH. }
    assert (Cnt : S (count_occ string_dec (map phone_value (del_nth i (phones r))) p)
                  = count_occ string_dec (map phone_value (phones r)) p).
    { rewrite E. rewrite S0 at 3. rewrite !count_occ_app. simpl.
      destruct (string_dec p p); [lia|contradiction]. }
    repeat split.
    + exact E.
    + rewrite E. rewrite S0 at 3. rewrite !List.length_app. simpl. lia.
    + exact Cnt.
    + intros One. apply find_index_none_iff.
      apply (count_occ_not_In string_dec). lia.
Qed.

(** X5. Adding a number the record does not have and removing it again
    gives the record back. *)
Theorem add_then_remove_phone (r : ContactRecord) (p : string) :
  ~ In p (phone_numbers r) ->
  Record_remove_phone (snd (Record_add_phone r p)) p
  = ("Phone number is deleted"%string, r).
Proof.
  intros H. unfold Record_remove_phone, Record_add_phone, Record_find_phone, Phone_init.
  simpl. rewrite find_index_fresh_last by exact H.
  rewrite del_nth_last. now rewrite record_eta.
Qed.

(** ** Deleting from the address book *)

Section DictDelete.

Lemma dict_get_absent (d : AddressBook) (k : string) :
  ~ In k (dict_keys d) -> dict_get d k = None.
Proof.
  intros H. destruct (dict_get d k) eqn:E; [|reflexivity].
  exfalso; apply H. apply dict_get_in_keys. congruence.
Qed.

Lemma dict_del_get_ne (d : AddressBook) (k k' : string) :
  k <> k' -> dict_get (dict_del d k) k' = dict_get d k'.
Proof.
  intros N; induction d as [|[k0 v0] d IH]; simpl; [reflexivity|].
  destruct (String.eqb_spec k0 k) as [->|N0]; simpl.
  - destruct (String.eqb_spec k k'); [contradiction|reflexivity].
  - destruct (String.eqb_spec k0 k'); [reflexivity|assumption].
Qed.

Lemma dict_del_keys (d : AddressBook) (k : string) :
  NoDup (dict_keys d) ->
  dict_keys (dict_del d k) = filter (fun x => negb (String.eqb x k)) (dict_keys d).
Proof.
  induction d as [|[k0 v0] d IH]; simpl; [reflexivity|].
  intros H; inversion H as [|? ? Hnot Hd]; subst.
  destruct (String.eqb_spec k0 k) as [->|N0]; simpl.
  - symmetry. apply forallb_filter_id. apply forallb_forall.
    intros x Hx. apply negb_true_iff, String.eqb_neq. intros ->. contradiction.
  - f_equal. now apply IH.
Qed.

Lemma dict_del_get_eq (d : AddressBook) (k : string) :
  NoDup (dict_keys d) -> dict_get (dict_del d k) k = None.
Proof.
  intros H. apply dict_get_absent. rewrite dict_del_keys by assumption.
  rewrite filter_In. intros [_ E]. now rewrite String.eqb_refl in E.
Qed.

Lemma dict_del_length (d : AddressBook) (k : string) :
  dict_get d k <> None -> S (List.length (dict_del d k)) = List.length d.
Proof.
  induction d as [|[k0 v0] d IH]; simpl; [congruence|].
  destruct (String.eqb k0 k); simpl; [reflexivity|].
  intros H; f_equal; now apply IH.
Qed.

Lemma dict_del_set_absent (d : AddressBook) (k : string) (v : ContactRecord) :
  dict_get d k = None -> dict_del (dict_set d k v) k = d.
Proof.
  induction d as [|[k0 v0] d IH]; simpl.
  - now rewrite String.eqb_refl.
  - destruct (String.eqb k0 k) eqn:E; [discriminate|]. simpl. rewrite E.
    intros H; f_equal; now apply IH.
Qed.

Lemma dict_get_in (d : AddressBook) (k : string) (v : ContactRecord) :
  dict_get d k = Some v -> In (k, v) d.
Proof.
  induction d as [|[k0 v0] d IH]; simpl; [discriminate|].
  destruct (String.eqb_spec k0 k) as [->|N]; [intros H; injection H as ->; now left|auto].
Qed.

Lemma dict_set_forall (P : string * ContactRecord -> Prop) (d : AddressBook)
    (k : string) (v : ContactRecord) :
  Forall P d -> P (k, v) -> Forall P (dict_set d k v).
Proof.
  intros F Pv; induction d as [|[k0 v0] d IH]; simpl.
  - repeat constructor; assumption.
  - inversion F; subst.
    destruct (String.eqb_spec k0 k) as [->|N]; constructor; auto.
Qed.

End DictDelete.

(** X6. [delete] of a name the book lacks reports [Record not found] and
    leaves the book as it is; of a name it has, it reports [Record
    deleted], after which [find] of the name is [None], every other name
    is found as before, in the same order, and the book is one record
    smaller. *)
Theorem delete_removes_record (book : AddressBook) (n : string) :
  (AddressBook_find book n = None ->
   AddressBook_delete book n = ("Record not found"%string, book)) /\
  (forall r,
      NoDup (dict_keys book) -> AddressBook_find book n = Some r ->
      fst (AddressBook_delete book n) = "Record deleted"%string /\
      AddressBook_find (snd (AddressBook_delete book n)) n = None /\
      (forall k, k <> n ->
                 AddressBook_find (snd (AddressBook_delete book n)) k
                 = AddressBook_find book k) /\
      dict_keys (snd (AddressBook_delete book n))
        = filter (fun x => negb (String.eqb x n)) (dict_keys book) /\
      S (List.length (snd (AddressBook_delete book n))) = List.length book).
Proof.
  unfold AddressBook_delete, AddressBook_find. split.
  - intros H; now rewrite H.
  - intros r ND H; rewrite H; simpl. repeat split.
    + now apply dict_del_get_eq.
    + intros k N. apply dict_del_get_ne; congruence.
    + now apply dict_del_keys.
    + apply dict_del_length; congruence.
Qed.

(** X7. Deleting a record right after adding it under a name the book did
    not have gives the book back. *)
Theorem add_record_then_delete (book : AddressBook) (r : ContactRecord) :
  AddressBook_find book (name_value (name r)) = None ->
  AddressBook_delete (snd (AddressBook_add_record book r)) (name_value (name r))
  = ("Record deleted"%string, book).
Proof.
  unfold AddressBook_delete, AddressBook_add_record, AddressBook_find; simpl.
  intros H. rewrite dict_get_set_eq. now rewrite dict_del_set_absent.
Qed.

(** ** What the commands keep and what they do *)

Section Commands.

Lemma item_wf_add_phone (k p : string) (r : ContactRecord) :
  validate_phone_number p = true -> item_wf (k, r) ->
  item_wf (k, snd (Record_add_phone r p)).
Proof.
  intros Vp (Hn & Hv & Hp & Hb). unfold item_wf, phone_numbers in *; simpl in *.
  repeat split; auto.
  rewrite map_app; simpl. apply Forall_app; split; [assumption|repeat constructor; assumption].
Qed.

Lemma set_nth_forall (P : Phone -> Prop) (i : nat) (v : Phone) (l : list Phone) :
  Forall P l -> P v -> Forall P (set_nth i v l).
Proof.
  intros F Pv; revert i; induction l as [|x l IH]; intros [|i]; simpl;
    inversion F; subst; constructor; auto.
Qed.

Lemma item_wf_edit_phone (k o p : string) (r : ContactRecord) :
  validate_phone_number p = true -> item_wf (k, r) ->
  item_wf (k, snd (Record_edit_phone r o p)).
Proof.
  intros Vp W. unfold Record_edit_phone.
  destruct (Record_find_phone r o) as [i|]; [|exact W].
  destruct W as (Hn & Hv & Hp & Hb). unfold item_wf, phone_numbers in *; simpl in *.
  repeat split; auto.
  rewrite Forall_map in *. now apply set_nth_forall.
Qed.

Lemma exec_keeps_wf (c : command) (book : AddressBook) :
  book_wf book -> book_wf (snd (exec c book)).
Proof.
  intros [ND F]. fold item_wf in F.
  assert (Found : forall k r, dict_get book k = Some r -> item_wf (k, r)).
  { intros k r H. rewrite Forall_forall in F. apply F. now apply dict_get_in. }
  assert (Keep : forall k v, item_wf (k, v) -> book_wf (dict_set book k v)).
  { intros k v W. split; [now apply dict_set_nodup|].
    fold item_wf. now apply dict_set_forall. }
  assert (Same : book_wf book) by (split; assumption).
  destruct c as [n p | n p | n s]; unfold exec.
  - unfold add_contact; rewrite snd_input_error.
    unfold add_contact_body, raise, AddressBook_find.
    destruct (validate_name n) eqn:Vn; simpl; [|exact Same].
    destruct (validate_phone_number p) eqn:Vp; simpl; [|exact Same].
    destruct (dict_get book n) as [rec|] eqn:E.
    + destruct (Record_find_phone rec p); simpl; [exact Same|].
      apply Keep. exact (item_wf_add_phone n p rec Vp (Found _ _ E)).
    + simpl. apply Keep. unfold item_wf, phone_numbers; simpl.
      repeat split; auto. intros b Hb; discriminate.
  - unfold change_contact; rewrite snd_input_error.
    unfold change_contact_body, raise, AddressBook_find.
    destruct (validate_phone_number p) eqn:Vp; simpl; [|exact Same].
    destruct (dict_get book n) as [rec|] eqn:E; [|exact Same].
    destruct (phones rec) as [|first rest] eqn:P; simpl.
    + apply Keep.
      pose proof (item_wf_add_phone n p rec Vp (Found _ _ E)) as W.
      unfold Record_add_phone in W; simpl in W. rewrite P in W. exact W.
    + pose proof (item_wf_edit_phone n (phone_value first) p rec Vp (Found _ _ E)) as W.
      destruct (Record_edit_phone rec (phone_value first) p) as [m rec'] eqn:Ed.
      simpl in W.
      assert (G : book_wf (dict_set book n rec')) by (now apply Keep).
      destruct (negb (String.eqb m "Phone number is set")); exact G.
  - unfold add_birthday; rewrite snd_input_error.
    unfold add_birthday_body, raise, AddressBook_find.
    destruct (validate_name n); simpl; [|exact Same].
    destruct (validate_birthday s); simpl; [|exact Same].
    destruct (dict_get book n) as [rec|] eqn:E; [|exact Same].
    destruct (Record_add_birthday rec s) as [[msg rec']|] eqn:A; simpl; [|exact Same].
    assert (G : book_wf (dict_set book n rec')).
    { apply Keep. destruct (Found _ _ E) as (Hn & Hv & Hp & Hb).
      pose proof (add_birthday_ok _ _ _ _ Hb A) as Ok'.
      unfold Record_add_birthday in A.
      destruct (birthday rec).
      - injection A as _ <-. repeat split; auto.
      - destruct (Birthday_init s); [|discriminate]. injection A as _ <-.
        repeat split; auto. }
    destruct (negb (String.eqb msg "Birthday is set")); exact G.
Qed.

End Commands.

(** X8. Every address book the commands build from the empty one has
    distinct keys, holds each record under the record's own name, and
    holds only names that [validate_name] accepts, phones that
    [validate_phone_number] accepts and birthdays that exist. *)
Theorem commands_keep_book_wf (cs : list command) (book : AddressBook) :
  book_wf book -> book_wf (exec_all cs book) /\ book_wf (exec_all cs []).
Proof.
  assert (G : forall cs b, book_wf b -> book_wf (exec_all cs b)).
  { clear. induction cs as [|c cs IH]; intros b W; simpl; [exact W|].
    apply IH. now apply exec_keeps_wf. }
  intros W; split; [now apply G|]. apply G. split; constructor.
Qed.

(** X9. No command raises: each returns True or False.  With True nothing
    is printed; with False one line that starts with [Error: ] is printed
    and the address book is exactly as it was before the command. *)
Theorem commands_fail_without_change (c : command) (book : AddressBook) :
  (fst (exec c book) = (Ok true, [])) \/
  (exists msg,
      exec c book = (Ok false, [String.append "Error: " msg], book)).
Proof.
  destruct c as [n p | n p | n s]; unfold exec.
  - unfold add_contact, add_contact_body, raise, input_error.
    destruct (validate_name n); simpl; [|right; eexists; reflexivity].
    destruct (validate_phone_number p); simpl; [|right; eexists; reflexivity].
    destruct (AddressBook_find book n) as [rec|]; simpl; [|now left].
    destruct (Record_find_phone rec p); simpl; [right; eexists; reflexivity|now left].
  - unfold change_contact, change_contact_body, raise, input_error.
    destruct (validate_phone_number p); simpl; [|right; eexists; reflexivity].
    destruct (AddressBook_find book n) as [rec|]; simpl; [|right; eexists; reflexivity].
    destruct (phones rec) as [|first rest] eqn:P; simpl; [now left|].
    unfold Record_edit_phone, Record_find_phone. rewrite P. simpl.
    unfold phone_is. rewrite String.eqb_refl. simpl. now left.
  - unfold add_birthday, add_birthday_body, raise, input_error.
    destruct (validate_name n); simpl; [|right; eexists; reflexivity].
    destruct (validate_birthday s) eqn:Vs; simpl; [|right; eexists; reflexivity].
    destruct (AddressBook_find book n) as [rec|] eqn:F; simpl; [|right; eexists; reflexivity].
    unfold Record_add_birthday, Birthday_init, Birthday_add_birthday.
    destruct (birthday rec); simpl.
    + right. unfold AddressBook_find in F. rewrite (dict_set_same _ _ _ F).
      eexists; reflexivity.
    + unfold validate_birthday in Vs.
      destruct (strptime_dmY s); [|discriminate]. simpl. now left.
Qed.

(** X10. [change_contact] with a valid number and a name the book has
    returns True and prints nothing; the contact's first number becomes the
    new one (its only one if it had none), the numbers after it, the name
    and the birthday stay, and so do all other contacts and the order of
    the book.  With a name the book lacks it prints [Contact not found.]
    and returns False. *)
Theorem change_contact_replaces_first (n p : string) (book : AddressBook) :
  validate_phone_number p = true ->
  (AddressBook_find book n = None ->
   change_contact n p book = (Ok false, ["Error: Contact not found."%string], book)) /\
  (forall r,
      AddressBook_find book n = Some r ->
      fst (change_contact n p book) = (Ok true, []) /\
      (exists r',
          AddressBook_find (snd (change_contact n p book)) n = Some r' /\
          phone_numbers r' = p :: tl (phone_numbers r) /\
          name r' = name r /\ birthday r' = birthday r) /\
      (forall k, k <> n ->
                 AddressBook_find (snd (change_contact n p book)) k
                 = AddressBook_find book k) /\
      dict_keys (snd (change_contact n p book)) = dict_keys book).
Proof.
  intros Vp. unfold change_contact, change_contact_body, raise, input_error.
  rewrite Vp; simpl. split.
  - intros H; now rewrite H.
  - intros r H; rewrite H. unfold AddressBook_find in *.
    assert (K : forall v, dict_keys (dict_set book n v) = dict_keys book)
      by (intros v; apply dict_set_keys_present; congruence).
    destruct (phones r) as [|first rest] eqn:P; simpl.
    + repeat split.
      * eexists; split; [apply dict_get_set_eq|].
        unfold phone_numbers; simpl. rewrite P. auto.
      * intros k N. apply dict_get_set_ne; congruence.
      * apply K.
    + unfold Record_edit_phone, Record_find_phone. rewrite P. simpl.
      unfold phone_is. rewrite String.eqb_refl. simpl.
      repeat split.
      * eexists; split; [apply dict_get_set_eq|].
        unfold phone_numbers; simpl. rewrite P. auto.
      * intros k N. apply dict_get_set_ne; congruence.
      * apply K.
Qed.

(** X11. [add_contact] with a valid name and a valid number the contact
    does not have yet returns True and prints nothing, and [find] of the
    name then gives a record with that name whose last number is the new
    one, after the numbers it had.  A new contact goes to the end of the
    book; all other contacts stay. *)
Theorem add_contact_then_find (n p : string) (book : AddressBook) :
  validate_name n = true -> validate_phone_number p = true ->
  (forall r, AddressBook_find book n = Some r -> ~ In p (phone_numbers r)) ->
  fst (add_contact n p book) = (Ok true, []) /\
  (exists r',
      AddressBook_find (snd (add_contact n p book)) n = Some r' /\
      phone_numbers r' =
        match AddressBook_find book n with
        | Some r => phone_numbers r ++ [p]
        | None => [p]
        end /\
      (forall r, AddressBook_find book n = Some r ->
                 name r' = name r /\ birthday r' = birthday r)) /\
  (AddressBook_find book n = None ->
   snd (add_contact n p book) = book ++ [(n, mkRecord (mkName n) [mkPhone p] None)]) /\
  (forall k, k <> n ->
             AddressBook_find (snd (add_contact n p book)) k
             = AddressBook_find book k).
Proof.
  intros Vn Vp Fresh. unfold add_contact, add_contact_body, raise, input_error.
  rewrite Vn, Vp; simpl. unfold AddressBook_find in *.
  destruct (dict_get book n) as [rec|] eqn:F.
  - assert (Fp : Record_find_phone rec p = None)
      by (apply find_index_none_iff; exact (Fresh rec eq_refl)).
    rewrite Fp; simpl. repeat split.
    + eexists; split; [apply dict_get_set_eq|]. split.
      * unfold phone_numbers; simpl. now rewrite map_app.
      * intros r H; injection H as <-. auto.
    + discriminate.
    + intros k N. apply dict_get_set_ne; congruence.
  - simpl. repeat split.
    + eexists; split; [apply dict_get_set_eq|]. split; [reflexivity|discriminate].
    + intros _. now apply dict_set_absent.
    + intros k N. apply dict_get_set_ne; congruence.
Qed.

(** ** How far the next birthday is *)

Section Distance.

Lemma date_trichotomy (a b : date) :
  date_ltb a b = false -> date_ltb b a = false -> a = b.
Proof.
  intros H1 H2. apply date_cmp_eq.
  assert (N1 : ~ date_ltb a b = true) by congruence.
  assert (N2 : ~ date_ltb b a = true) by congruence.
  rewrite date_ltb_iff in N1, N2. unfold date_cmp.
  destruct (Z.compare_spec (year a) (year b)); try lia.
  destruct (Z.compare_spec (month a) (month b)); try lia.
  destruct (Z.compare_spec (day a) (day b)); try lia. reflexivity.
Qed.

Lemma toordinal_inj (a b : date) :
  valid_date a = true -> valid_date b = true ->
  toordinal a = toordinal b -> a = b.
Proof.
  intros Va Vb E. apply date_trichotomy.
  - destruct (date_ltb a b) eqn:L; [|reflexivity].
    pose proof (toordinal_lt a b Va Vb L); lia.
  - destruct (date_ltb b a) eqn:L; [|reflexivity].
    pose proof (toordinal_lt b a Vb Va L); lia.
Qed.

(** A birthday other than 29 February exists in every year. *)
Lemma candidate_valid (b : date) (y : Z) :
  valid_date b = true -> is_feb_29 b = false ->
  MINYEAR <= y <= MAXYEAR -> valid_date (candidate b y) = true.
Proof.
  intros V N Hy. apply valid_date_fields in V. destruct V as (_ & Hm & Hd).
  unfold valid_date, check_date_fields, candidate; cbn [year month day].
  assert (D : day b <= days_in_month y (month b)).
  { unfold is_feb_29 in N. unfold days_in_month in *.
    destruct (Z.eqb_spec (month b) 2) as [E|E]; simpl in *.
    - apply Z.eqb_neq in N. rewrite E in *.
      destruct (is_leap (year b)), (is_leap y); simpl in *; lia.
    - lia. }
  repeat (apply andb_true_iff; split); apply Z.leb_le; lia.
Qed.

(** From one year's candidate to the next there are at most 366 days. *)
Lemma candidate_next_year (b : date) (y : Z) :
  1 <= month b <= 12 ->
  toordinal (candidate b (y + 1)) - toordinal (candidate b y) <= 366.
Proof.
  intros Hm. unfold toordinal, candidate; cbn [year month day].
  rewrite days_before_year_step. unfold days_before_month.
  assert (L : is_leap y = true -> is_leap (y + 1) = false).
  { unfold is_leap. intros H. apply andb_true_iff in H. destruct H as [H _].
    apply Z.eqb_eq in H. apply andb_false_iff; left. apply Z.eqb_neq.
    Z.to_euclidean_division_equations; lia. }
  destruct (is_leap y) eqn:Ly.
  - rewrite (L eq_refl). rewrite andb_false_r.
    destruct (month b >? 2); simpl; lia.
  - rewrite andb_false_r.
    destruct ((month b >? 2) && is_leap (y + 1)); lia.
Qed.

Lemma candidate_of_today (today b : date) :
  month today = month b -> day today = day b ->
  candidate b (year today) = today.
Proof. intros Em Ed. destruct today; unfold candidate; simpl in *. congruence. Qed.

Lemma date_geb_refl (a : date) : date_geb a a = true.
Proof. unfold date_geb. now rewrite date_cmp_refl. Qed.

End Distance.

(** X12. [days_to_birthday] returns 0 exactly when today has the month and
    the day of the birthday. *)
Theorem days_to_birthday_zero_on_the_day
    (k : nat) (today b : date) (r : ContactRecord) :
  valid_date today = true -> has_birthday r b ->
  (Record_days_to_birthday (S k) today r = Done (Some 0) <->
   month today = month b /\ day today = day b).
Proof.
  intros Vt Hb. split.
  - intros H. apply days_to_birthday_done_inv in H.
    destruct H as (b' & y & Hb' & (_ & Hc & _) & E).
    unfold has_birthday in *. rewrite Hb in Hb'. injection Hb' as <-.
    apply andb_true_iff in Hc. destruct Hc as [Vc _].
    assert (C : candidate b y = today)
      by (apply toordinal_inj; auto; unfold sub_days in E; lia).
    rewrite <- C. split; reflexivity.
  - intros [Em Ed]. unfold Record_days_to_birthday. rewrite Hb. cbn [birthday_value].
    pose proof (valid_date_fields today Vt) as (Hty & _).
    simpl loop. rewrite loop_body_eq by (unfold MAXYEAR, INT_MAX in *; lia).
    unfold is_candidate.
    rewrite (candidate_of_today today b Em Ed), Vt, date_geb_refl. simpl.
    unfold sub_days. now rewrite Z.sub_diag.
Qed.

(** X13. For a birthday other than 29 February, asked before the last year
    of the calendar, [days_to_birthday] needs at most two passes of its
    loop and returns a number from 0 to 365. *)
Theorem days_to_birthday_within_a_year
    (k : nat) (today b : date) (r : ContactRecord) :
  valid_date today = true -> valid_date b = true -> has_birthday r b ->
  is_feb_29 b = false -> year today < MAXYEAR ->
  exists off,
    Record_days_to_birthday (S (S k)) today r = Done (Some off) /\
    0 <= off <= 365.
Proof.
  intros Vt Vb Hb N Hy.
  pose proof (valid_date_fields today Vt) as (Hty & Htm & Htd).
  pose proof (valid_date_fields b Vb) as (_ & Hbm & _).
  assert (V0 : valid_date (candidate b (year today)) = true)
    by (apply candidate_valid; auto).
  assert (V1 : valid_date (candidate b (year today + 1)) = true)
    by (apply candidate_valid; auto; lia).
  unfold Record_days_to_birthday. rewrite Hb. cbn [birthday_value].
  simpl loop. rewrite loop_body_eq by (unfold MAXYEAR, INT_MAX in *; lia).
  unfold is_candidate at 1. rewrite V0. simpl.
  destruct (date_geb (candidate b (year today)) today) eqn:G.
  - eexists; split; [reflexivity|]. split; [now apply sub_days_nonneg|].
    pose proof (valid_date_fields _ V0) as (_ & Hcm & Hcd).
    cbn [candidate year month day] in Hcm, Hcd.
    pose proof (day_of_year_range _ _ _ Hcm Hcd) as R0.
    pose proof (day_of_year_range _ _ _ Htm Htd) as R1.
    unfold sub_days, toordinal, candidate; cbn [year month day].
    destruct (is_leap (year today)); lia.
  - rewrite loop_body_eq by (unfold MAXYEAR, INT_MAX in *; lia).
    unfold is_candidate. rewrite V1. simpl.
    assert (L : date_ltb (candidate b (year today)) today = true)
      by (rewrite date_geb_ltb in G; now apply negb_false_iff in G).
    pose proof (toordinal_lt _ _ V0 Vt L) as Lt.
    assert (G1 : date_geb (candidate b (year today + 1)) today = true).
    { rewrite date_geb_ltb. apply negb_true_iff.
      destruct (date_ltb (candidate b (year today + 1)) today) eqn:E; [|reflexivity].
      apply date_ltb_iff in E. cbn [candidate year month day] in E. lia. }
    rewrite G1. eexists; split; [reflexivity|].
    split; [now apply sub_days_nonneg|].
    pose proof (candidate_next_year b (year today) Hbm). unfold sub_days. lia.
Qed.

(** X14. Every entry of the upcoming birthdays names a record of the book
    and gives that record's birthday in a year from this one on: a date
    that exists, has the birthday's month and day, is not before today and
    is at most [days] days after it.  With a negative window the list is
    empty. *)
Theorem upcoming_birthdays_dates_in_window
    (fuel : nat) (today : date) (book : AddressBook) (days : Z)
    (offset_of : ContactRecord -> option Z) :
  (forall r, In r (dict_values book) ->
             Record_days_to_birthday fuel today r = Done (offset_of r)) ->
  exists l,
    AddressBook_upcoming_birthdays fuel today book days = Done l /\
    (forall n d,
        In (n, d) l ->
        exists r b,
          In r (dict_values book) /\ name_value (name r) = n /\ has_birthday r b /\
          month d = month b /\ day d = day b /\ year today <= year d /\
          valid_date d = true /\ date_geb d today = true /\
          0 <= toordinal d - toordinal today <= days) /\
    (days < 0 -> l = []) /\
    (List.length l <= List.length book)%nat.
Proof.
  intros H. unfold AddressBook_upcoming_birthdays.
  rewrite (collect_upcoming_eq fuel today days offset_of _ H); simpl.
  eexists; split; [reflexivity|].
  set (pre := flat_map (fun r => upcoming_entry today days r (offset_of r))
                       (dict_values book)).
  assert (P : Permutation (sort_by_date pre) pre) by apply sort_by_date_perm.
  split; [|split].
  - intros n d I. apply (Permutation_in _ P) in I.
    apply in_flat_map in I. destruct I as (r & Ir & I).
    unfold upcoming_entry in I. destruct (offset_of r) as [off|] eqn:O; [|contradiction].
    destruct ((0 <=? off) && (off <=? days)) eqn:W; [|contradiction].
    destruct I as [I|[]]. injection I as <- <-.
    pose proof (H r Ir) as Hr. rewrite O in Hr.
    destruct (days_to_birthday_done_inv fuel today r off Hr) as (b & y & Hb & Ny & ->).
    rewrite (reported_date_is_candidate today b y Ny).
    destruct Ny as (Hy & Hc & _). apply andb_true_iff in Hc. destruct Hc as [Vc Gc].
    apply andb_true_iff in W. destruct W as [W1 W2]. apply Z.leb_le in W1, W2.
    exists r, b. unfold sub_days in *. repeat split; auto.
  - intros Neg. assert (E : pre = []); [|now rewrite E].
    unfold pre. clear - Neg. induction (dict_values book) as [|r l IH]; [reflexivity|].
    simpl. rewrite IH, app_nil_r. unfold upcoming_entry.
    destruct (offset_of r) as [off|]; [|reflexivity].
    destruct (Z.leb_spec 0 off), (Z.leb_spec off days); simpl; try reflexivity; lia.
  - rewrite (Permutation_length P). unfold pre, dict_values. clear.
    induction book as [|[k r] l IH]; simpl; [lia|].
    rewrite List.length_app.
    assert (List.length (upcoming_entry today days r (offset_of r)) <= 1)%nat; [|lia].
    unfold upcoming_entry. destruct (offset_of r); [|simpl; lia].
    destruct ((0 <=? z) && (z <=? days)); simpl; lia.
Qed.

(** ** Printing a birthday and reading it back *)

Ltac digit_codes :=
  repeat match goal with
    | H : is_digit _ = true |- _ => apply is_digit_code in H
    end.

Section Strftime.

Lemma code_digit_char (k : Z) : 0 <= k <= 9 -> code (digit_char k) = Z.to_N (48 + k).
Proof.
  intros H. unfold code, digit_char. apply N_ascii_embedding. lia.
Qed.

Lemma digit_char_is_digit (k : Z) : 0 <= k <= 9 -> is_digit (digit_char k) = true.
Proof.
  intros H. apply is_digit_code. rewrite code_digit_char by assumption. lia.
Qed.

Lemma digit_char_value (k : Z) : 0 <= k <= 9 -> Z.of_N (code (digit_char k)) - 48 = k.
Proof. intros H. rewrite code_digit_char by assumption. lia. Qed.

Lemma digit_char_of_code (c : ascii) :
  is_digit c = true -> digit_char (Z.of_N (code c) - 48) = c.
Proof.
  intros H. apply is_digit_code in H. unfold digit_char.
  replace (Z.to_N (48 + (Z.of_N (code c) - 48))) with (code c) by lia.
  apply ascii_N_embedding.
Qed.

Lemma two_digits_text (n : Z) :
  0 <= n <= 99 ->
  is_two_digits (two_digits n) = true /\ py_int (two_digits n) = n.
Proof.
  intros H.
  assert (A : 0 <= n / 10 <= 9) by (Z.to_euclidean_division_equations; lia).
  assert (B : 0 <= n mod 10 <= 9) by (Z.to_euclidean_division_equations; lia).
  unfold two_digits. split.
  - cbv beta iota delta [is_two_digits]. now rewrite !digit_char_is_digit.
  - rewrite py_int_digit_first by now apply digit_char_is_digit.
    cbn [int_digits]. rewrite !digit_char_value by assumption.
    Z.to_euclidean_division_equations; lia.
Qed.

Lemma two_digits_of_text (t : string) :
  is_two_digits t = true -> two_digits (py_int t) = t.
Proof.
  destruct t as [|c1 [|c2 [|]]]; cbv beta iota delta [is_two_digits]; try discriminate.
  intros H. apply andb_true_iff in H. destruct H as [P Q].
  rewrite py_int_digit_first by assumption. cbn [int_digits].
  pose proof (digit_char_of_code c1 P) as E1.
  pose proof (digit_char_of_code c2 Q) as E2.
  digit_codes. unfold two_digits.
  replace ((10 * (10 * 0 + (Z.of_N (code c1) - 48)) + (Z.of_N (code c2) - 48)) / 10)
    with (Z.of_N (code c1) - 48) by (Z.to_euclidean_division_equations; lia).
  replace ((10 * (10 * 0 + (Z.of_N (code c1) - 48)) + (Z.of_N (code c2) - 48)) mod 10)
    with (Z.of_N (code c2) - 48) by (Z.to_euclidean_division_equations; lia).
  now rewrite E1, E2.
Qed.

Lemma year_digits_text (y : Z) :
  1000 <= y <= 9999 ->
  is_year_text (year_digits y) = true /\ py_int (year_digits y) = y.
Proof.
  intros H. unfold year_digits.
  replace (y <? 10) with false by (symmetry; apply Z.ltb_ge; lia).
  replace (y <? 100) with false by (symmetry; apply Z.ltb_ge; lia).
  replace (y <? 1000) with false by (symmetry; apply Z.ltb_ge; lia).
  assert (A : 10 <= y / 100 <= 99) by (Z.to_euclidean_division_equations; lia).
  assert (B : 0 <= y mod 100 <= 99) by (Z.to_euclidean_division_equations; lia).
  assert (A1 : 0 <= y / 100 / 10 <= 9) by (Z.to_euclidean_division_equations; lia).
  assert (A2 : 0 <= (y / 100) mod 10 <= 9) by (Z.to_euclidean_division_equations; lia).
  assert (B1 : 0 <= y mod 100 / 10 <= 9) by (Z.to_euclidean_division_equations; lia).
  assert (B2 : 0 <= (y mod 100) mod 10 <= 9) by (Z.to_euclidean_division_equations; lia).
  unfold two_digits. cbn [String.append]. split.
  - cbv beta iota delta [is_year_text]. now rewrite !digit_char_is_digit.
  - rewrite py_int_digit_first by now apply digit_char_is_digit.
    cbn [int_digits]. rewrite !digit_char_value by assumption.
    Z.to_euclidean_division_equations; lia.
Qed.

Lemma year_digits_of_text (t : string) :
  is_year_text t = true -> 1000 <= py_int t -> year_digits (py_int t) = t.
Proof.
  destruct t as [|c1 [|c2 [|c3 [|c4 [|]]]]];
    cbv beta iota delta [is_year_text]; try discriminate.
  intros H. apply andb_true_iff in H. destruct H as [H P4].
  apply andb_true_iff in H. destruct H as [H P3].
  apply andb_true_iff in H. destruct H as [P1 P2].
  rewrite py_int_digit_first by assumption. cbn [int_digits].
  pose proof (digit_char_of_code c1 P1) as E1.
  pose proof (digit_char_of_code c2 P2) as E2.
  pose proof (digit_char_of_code c3 P3) as E3.
  pose proof (digit_char_of_code c4 P4) as E4.
  digit_codes.
  set (a := Z.of_N (code c1) - 48) in *. set (b := Z.of_N (code c2) - 48) in *.
  set (c := Z.of_N (code c3) - 48) in *. set (d := Z.of_N (code c4) - 48) in *.
  intros Y.
  replace (10 * (10 * (10 * (10 * 0 + a) + b) + c) + d)
    with (1000 * a + 100 * b + 10 * c + d) in * by lia.
  unfold year_digits.
  replace (1000 * a + 100 * b + 10 * c + d <? 10) with false
    by (symmetry; apply Z.ltb_ge; lia).
  replace (1000 * a + 100 * b + 10 * c + d <? 100) with false
    by (symmetry; apply Z.ltb_ge; lia).
  replace (1000 * a + 100 * b + 10 * c + d <? 1000) with false
    by (symmetry; apply Z.ltb_ge; lia).
  assert (Q : (1000 * a + 100 * b + 10 * c + d) / 100 = 10 * a + b)
    by (subst a b c d; Z.to_euclidean_division_equations; lia).
  assert (R : (1000 * a + 100 * b + 10 * c + d) mod 100 = 10 * c + d)
    by (subst a b c d; Z.to_euclidean_division_equations; lia).
  rewrite Q, R. unfold two_digits.
  replace ((10 * a + b) / 10) with a by (subst a b; Z.to_euclidean_division_equations; lia).
  replace ((10 * a + b) mod 10) with b by (subst a b; Z.to_euclidean_division_equations; lia).
  replace ((10 * c + d) / 10) with c by (subst c d; Z.to_euclidean_division_equations; lia).
  replace ((10 * c + d) mod 10) with d by (subst c d; Z.to_euclidean_division_equations; lia).
  cbn [String.append]. now rewrite E1, E2, E3, E4.
Qed.

Lemma two_digits_day_month (t : string) :
  is_two_digits t = true -> is_day_text t = true /\ is_month_text t = true.
Proof.
  destruct t as [|c1 [|c2 [|]]]; cbv beta iota delta [is_two_digits]; try discriminate.
  intros H. apply andb_true_iff in H. destruct H as [P Q].
  cbv beta iota delta [is_day_text is_month_text]. now rewrite P, Q.
Qed.

(** What [strptime] returns on a text whose three parts are known. *)
Lemma strptime_of_parts (dd mm yyyy : string) :
  is_day_text dd = true -> is_month_text mm = true -> is_year_text yyyy = true ->
  check_date_fields (py_int yyyy) (py_int mm) (py_int dd) = true ->
  strptime_dmY (dd ++ "." ++ mm ++ "." ++ yyyy)%string
  = Ok (mkdate (py_int yyyy) (py_int mm) (py_int dd)).
Proof.
  intros Td Tm TY V.
  assert (P : is_D_M_YYYY_date (dd ++ "." ++ mm ++ "." ++ yyyy)%string)
    by (exists dd, mm, yyyy; auto).
  apply strptime_done_iff in P. destruct P as (x & Hx). rewrite Hx. f_equal.
  unfold strptime_dmY in Hx.
  destruct (format_regex (dd ++ "." ++ mm ++ "." ++ yyyy)%string)
    as [|[[[d m] Y] rest] l] eqn:F; [discriminate|].
  destruct rest; [|discriminate].
  assert (I : In (d, m, Y, ""%string) (format_regex (dd ++ "." ++ mm ++ "." ++ yyyy)%string))
    by (rewrite F; now left).
  apply format_regex_in in I. destruct I as (E & Td' & Tm' & TY').
  cbn [String.append] in E.
  apply dot_split_unique in E; auto using day_text_dotless, day_token_text.
  destruct E as [<- E].
  apply dot_split_unique in E; auto using month_text_dotless, month_token_text.
  destruct E as [<- E].
  rewrite <- (string_app_nil_r yyyy) in E at 1.
  apply year_split_unique in E; auto. destruct E as [<- _].
  unfold new_date in Hx. rewrite V in Hx. now injection Hx as <-.
Qed.

(** A printed date is read back as the same date. *)
Lemma strptime_of_strftime (d : date) :
  valid_date d = true -> 1000 <= year d ->
  strptime_dmY (strftime_dmY d) = Ok d.
Proof.
  intros V Y. pose proof (valid_date_fields d V) as (Hy & Hm & Hd).
  pose proof (days_in_month_le_31 (year d) (month d) Hm) as D31.
  unfold MINYEAR, MAXYEAR in Hy.
  destruct (two_digits_text (day d)) as [Td Id]; [lia|].
  destruct (two_digits_text (month d)) as [Tm Im]; [lia|].
  destruct (year_digits_text (year d)) as [TY IY]; [lia|].
  unfold strftime_dmY.
  assert (C : check_date_fields (py_int (year_digits (year d)))
                (py_int (two_digits (month d))) (py_int (two_digits (day d))) = true)
    by (rewrite Id, Im, IY; exact V).
  rewrite (strptime_of_parts _ _ _ (proj1 (two_digits_day_month _ Td))
             (proj2 (two_digits_day_month _ Tm)) TY C).
  rewrite Id, Im, IY. now destruct d.
Qed.

End Strftime.

(** X15. A date from the year 1000 on, printed as [get_contact_birthday]
    prints it, is a text [validate_birthday] accepts and [strptime] reads
    back as the same date. *)
Theorem strftime_then_strptime (d : date) :
  valid_date d = true -> 1000 <= year d ->
  validate_birthday (strftime_dmY d) = true /\
  strptime_dmY (strftime_dmY d) = Ok d.
Proof.
  intros V Y. pose proof (strptime_of_strftime d V Y) as E.
  split; [|exact E]. unfold validate_birthday. now rewrite E.
Qed.

(** X16. For a text in the form DD.MM.YYYY that names an existing date
    from the year 1000 on, printing the date [strptime] reads gives the
    text back. *)
Theorem strptime_then_strftime (s : string) (d : date) :
  is_DD_MM_YYYY_date s -> strptime_dmY s = Ok d -> 1000 <= year d ->
  strftime_dmY d = s.
Proof.
  intros (dd & mm & yyyy & -> & Td & Tm & TY & V) P Y.
  rewrite (strptime_of_parts _ _ _ (proj1 (two_digits_day_month _ Td))
             (proj2 (two_digits_day_month _ Tm)) TY V) in P.
  injection P as <-. cbn [year] in Y.
  unfold strftime_dmY; cbn [year month day].
  now rewrite (two_digits_of_text dd Td), (two_digits_of_text mm Tm),
    (year_digits_of_text yyyy TY Y).
Qed.

(** X17. Once [add_birthday] has returned True for a contact,
    [get_contact_birthday] answers, without printing, the date the text
    was read as, with two digits for day and month; for a year from 1000
    on that answer is itself a text [validate_birthday] accepts. *)
Theorem get_contact_birthday_after_add (n s : string) (book book' : AddressBook) :
  add_birthday n s book = (Ok true, [], book') ->
  exists d,
    strptime_dmY s = Ok d /\
    get_contact_birthday n book' = (Ok (inl (strftime_dmY d)), []) /\
    (1000 <= year d -> validate_birthday (strftime_dmY d) = true).
Proof.
  unfold add_birthday, add_birthday_body, raise, input_error.
  destruct (validate_name n) eqn:Vn; simpl; [|discriminate].
  destruct (validate_birthday s) eqn:Vs; simpl; [|discriminate].
  destruct (AddressBook_find book n) as [rec|] eqn:F; simpl; [|discriminate].
  unfold Record_add_birthday, Birthday_init, Birthday_add_birthday.
  destruct (birthday rec); simpl; [discriminate|].
  destruct (strptime_dmY s) as [d|] eqn:P; simpl; [|destruct e; discriminate].
  intros H. injection H as <-.
  exists d. split; [reflexivity|]. split.
  - unfold get_contact_birthday, get_contact_birthday_body, AddressBook_find.
    rewrite Vn; simpl. rewrite dict_get_set_eq. reflexivity.
  - intros Y. unfold validate_birthday.
    now rewrite (strptime_of_strftime d (strptime_valid _ _ P) Y).
Qed.

(** ** Reading a command line *)

Ltac each_char c :=
  destruct c as [[] [] [] [] [] [] [] []]; vm_compute; intros;
  first [reflexivity | discriminate].

Section ParseInput.

Lemma lower_char_space (c : ascii) : is_space (lower_char c) = is_space c.
Proof. each_char c. Qed.

Lemma lower_char_lowered (c : ascii) : is_lowered (lower_char c) = true.
Proof. each_char c. Qed.

Lemma alpha_not_space (c : ascii) : is_alpha c = true -> is_space c = false.
Proof. revert c. intros c. each_char c. Qed.

Lemma newline_is_space : is_space "010" = true.
Proof. reflexivity. Qed.

Lemma all_chars_app (p : ascii -> bool) (a b : string) :
  all_chars p (a ++ b) = all_chars p a && all_chars p b.
Proof.
  induction a as [|c a IH]; simpl; [reflexivity|].
  now rewrite IH, andb_assoc.
Qed.

Lemma all_chars_lower_lowered (s : string) : all_chars is_lowered (lower s) = true.
Proof.
  induction s as [|c s IH]; simpl; [reflexivity|].
  now rewrite lower_char_lowered, IH.
Qed.

Lemma lowered_fixed (s : string) : all_chars is_lowered s = true <-> lower s = s.
Proof.
  induction s as [|c s IH]; simpl; [tauto|]. unfold is_lowered at 1.
  rewrite andb_true_iff, Ascii.eqb_eq, IH. split.
  - intros [-> ->]; reflexivity.
  - intros H; injection H as -> ->; auto.
Qed.

Lemma blank_lower (s : string) : blank (lower s) = blank s.
Proof.
  unfold blank. induction s as [|c s IH]; simpl; [reflexivity|].
  now rewrite lower_char_space, IH.
Qed.

Lemma blank_lstrip (s : string) : blank (lstrip s) = blank s.
Proof.
  unfold blank. induction s as [|c s IH]; simpl; [reflexivity|].
  destruct (is_space c) eqn:E; simpl; [exact IH|now rewrite E].
Qed.

Lemma rstrip_empty (s : string) : rstrip s = EmptyString <-> blank s = true.
Proof.
  unfold blank. induction s as [|c s IH]; simpl; [tauto|].
  destruct (rstrip s) as [|c' r'] eqn:R.
  - assert (B : all_chars is_space s = true) by (now apply IH).
    rewrite B, andb_true_r. destruct (is_space c); split; congruence.
  - split; [discriminate|]. intros H. apply andb_true_iff in H. destruct H as [_ H].
    apply IH in H. discriminate.
Qed.

Lemma blank_rstrip (s : string) : blank (rstrip s) = blank s.
Proof.
  induction s as [|c s IH]; [reflexivity|].
  unfold blank in *. simpl.
  destruct (rstrip s) as [|c' r'] eqn:R.
  - assert (B : all_chars is_space s = true) by (now apply rstrip_empty).
    rewrite B, andb_true_r. destruct (is_space c) eqn:E; simpl; [reflexivity|].
    now rewrite E.
  - simpl in *. now rewrite IH.
Qed.

Lemma blank_strip (s : string) : blank (strip s) = blank s.
Proof. unfold strip. now rewrite blank_rstrip, blank_lstrip. Qed.

(** The words [split] returns are not empty and hold no whitespace, and
    only characters of the text. *)
Lemma split_from_words (P : ascii -> bool) (s : string) :
  forall cur,
    spaceless cur = true -> all_chars P cur = true -> all_chars P s = true ->
    Forall (fun w => is_word w /\ all_chars P w = true) (split_from cur s).
Proof.
  induction s as [|c s IH]; intros cur Sc Pc Ps; simpl.
  - destruct cur; constructor; [|constructor].
    split; [split; [discriminate|exact Sc]|exact Pc].
  - simpl in Ps. apply andb_true_iff in Ps. destruct Ps as [Pc0 Ps].
    destruct (is_space c) eqn:E.
    + destruct cur as [|c0 cur0].
      * now apply IH.
      * constructor; [split; [split; [discriminate|exact Sc]|exact Pc]|now apply IH].
    + apply IH; [| |exact Ps].
      * unfold spaceless in *. rewrite all_chars_app, Sc. simpl. now rewrite E.
      * rewrite all_chars_app, Pc. simpl. now rewrite Pc0.
Qed.

Lemma split_from_nil (s : string) :
  forall cur, split_from cur s = [] <-> cur = EmptyString /\ blank s = true.
Proof.
  unfold blank. induction s as [|c s IH]; intros cur; simpl.
  - destruct cur; split; try tauto; try discriminate. intros [H _]; discriminate.
  - destruct (is_space c) eqn:E; simpl.
    + destruct cur as [|c0 cur0].
      * rewrite IH. tauto.
      * split; [discriminate|]. intros [H _]; discriminate.
    + rewrite IH. split; [|intros [_ H]; discriminate].
      intros [H _]. destruct cur; discriminate.
Qed.

Lemma all_chars_any (s : string) : all_chars (fun _ => true) s = true.
Proof. induction s as [|c s IH]; simpl; auto. Qed.

(** The arguments [parse_input] returns are words. *)
Lemma parse_input_args_words (user_input : string) :
  Forall is_word (snd (parse_input user_input)).
Proof.
  unfold parse_input, split.
  pose proof (split_from_words (fun _ => true) (lower (strip user_input)) EmptyString
                eq_refl eq_refl (all_chars_any _)) as W.
  destruct (split_from EmptyString (lower (strip user_input))) as [|c [|a args]];
    simpl; try constructor.
  - inversion W as [|? ? _ W']; subst. inversion W' as [|? ? [Ha _] _]; subst. exact Ha.
  - inversion W as [|? ? _ W']; subst. inversion W' as [|? ? _ W'']; subst.
    eapply Forall_impl; [|exact W'']. intros w [Hw _]; exact Hw.
Qed.

End ParseInput.

(** X18. Whatever the line, the command and the arguments [parse_input]
    returns hold no whitespace and no capital letter, every argument is a
    non-empty word, and the command is empty only when there are no
    arguments. *)
Theorem parse_input_words (user_input : string) :
  spaceless (fst (parse_input user_input)) = true /\
  lower (fst (parse_input user_input)) = fst (parse_input user_input) /\
  Forall (fun w => is_word w /\ lower w = w) (snd (parse_input user_input)) /\
  (fst (parse_input user_input) = EmptyString -> snd (parse_input user_input) = []).
Proof.
  unfold parse_input, split.
  pose proof (split_from_words is_lowered (lower (strip user_input)) EmptyString
                eq_refl eq_refl (all_chars_lower_lowered _)) as W.
  destruct (split_from EmptyString (lower (strip user_input))) as [|c [|a args]];
    simpl.
  - repeat split; auto.
  - inversion W as [|? ? [[_ S] L] _]; subst.
    repeat split; auto. now apply lowered_fixed.
  - inversion W as [|? ? [[N S] L] W']; subst.
    repeat split; auto.
    + now apply lowered_fixed.
    + eapply Forall_impl; [|exact W'].
      intros w [Hw Lw]. split; [exact Hw|now apply lowered_fixed].
    + intros E; contradiction.
Qed.

(** X19. [parse_input] returns the empty command, and then no argument,
    exactly on a line that is empty or all whitespace. *)
Theorem parse_input_blank (user_input : string) :
  fst (parse_input user_input) = EmptyString <-> blank user_input = true.
Proof.
  unfold parse_input, split.
  pose proof (split_from_words (fun _ => true) (lower (strip user_input)) EmptyString
                eq_refl eq_refl) as W.
  pose proof (split_from_nil (lower (strip user_input)) EmptyString) as N.
  rewrite blank_lower, blank_strip in N.
  destruct (split_from EmptyString (lower (strip user_input))) as [|c l]; simpl.
  - split; [intros _; exact (proj2 (proj1 N eq_refl))|reflexivity].
  - split.
    + intros ->. assert (A : all_chars (fun _ => true) (lower (strip user_input)) = true).
      { clear. induction (lower (strip user_input)); simpl; auto. }
      specialize (W A). inversion W as [|? ? [[Hn _] _] _]; subst. contradiction.
    + intros B. pose proof (proj2 N (conj eq_refl B)) as F. discriminate.
Qed.

Section Words.

Lemma string_app_assoc (a b c : string) : ((a ++ b) ++ c = a ++ (b ++ c))%string.
Proof. induction a as [|x a IH]; simpl; [reflexivity|now rewrite IH]. Qed.

Lemma lower_app (a b : string) : lower (a ++ b) = (lower a ++ lower b)%string.
Proof. induction a as [|c a IH]; simpl; [reflexivity|now rewrite IH]. Qed.

Lemma word_first (w : string) :
  is_word w -> exists c r, w = String c r /\ is_space c = false.
Proof.
  intros [N S]. destruct w as [|c r]; [contradiction|].
  exists c, r. split; [reflexivity|].
  unfold spaceless in S; simpl in S. apply andb_true_iff in S. destruct S as [S _].
  now apply negb_true_iff in S.
Qed.

Lemma rstrip_word (w : string) : is_word w -> rstrip w = w.
Proof.
  induction w as [|c r IH]; intros [N S]; [contradiction|].
  unfold spaceless in S; simpl in S. apply andb_true_iff in S. destruct S as [Sc Sr].
  apply negb_true_iff in Sc. simpl.
  destruct r as [|c' r'].
  - simpl. now rewrite Sc.
  - rewrite IH; [reflexivity|]. split; [discriminate|exact Sr].
Qed.

Lemma rstrip_app (a w : string) :
  rstrip w = w -> w <> EmptyString -> rstrip (a ++ w) = (a ++ w)%string.
Proof.
  intros R N. induction a as [|c a IH]; simpl; [exact R|].
  rewrite IH. destruct (a ++ w)%string eqn:E; [|reflexivity].
  destruct a; simpl in E; [contradiction|discriminate].
Qed.

Lemma join_nonempty (c : string) (args : list string) :
  c <> EmptyString -> join " " (c :: args) <> EmptyString.
Proof.
  intros N. destruct args; simpl; [exact N|].
  destruct c; [contradiction|discriminate].
Qed.

Lemma rstrip_join (args : list string) :
  forall c, is_word c -> Forall is_word args ->
            rstrip (join " " (c :: args)) = join " " (c :: args).
Proof.
  induction args as [|a rest IH]; intros c Wc Wa.
  - simpl. now apply rstrip_word.
  - inversion Wa; subst.
    change (join " " (c :: a :: rest)) with (c ++ (" " ++ join " " (a :: rest)))%string.
    rewrite <- string_app_assoc.
    apply rstrip_app; [now apply IH|].
    apply join_nonempty. match goal with H : is_word a |- _ => apply H end.
Qed.

Lemma split_from_word (w : string) :
  forall cur rest,
    spaceless w = true ->
    split_from cur (w ++ rest) = split_from (cur ++ w) rest.
Proof.
  induction w as [|c w IH]; intros cur rest S; simpl.
  - now rewrite string_app_nil_r.
  - unfold spaceless in S; simpl in S. apply andb_true_iff in S. destruct S as [Sc Sw].
    apply negb_true_iff in Sc. rewrite Sc. rewrite IH by exact Sw.
    now rewrite string_app_assoc.
Qed.

Lemma split_join (args : list string) :
  forall c, is_word c -> Forall is_word args ->
            split (join " " (c :: args)) = c :: args.
Proof.
  unfold split.
  induction args as [|a rest IH]; intros c [Nc Sc] Wa.
  - simpl. rewrite <- (string_app_nil_r c) at 1.
    rewrite split_from_word by exact Sc. simpl.
    destruct c; [contradiction|reflexivity].
  - inversion Wa; subst.
    change (join " " (c :: a :: rest)) with (c ++ (" " ++ join " " (a :: rest)))%string.
    rewrite split_from_word by exact Sc. simpl.
    destruct c as [|c0 c']; [contradiction|].
    f_equal. now apply IH.
Qed.

Lemma lower_join (l : list string) :
  Forall (fun w => lower w = w) l -> lower (join " " l) = join " " l.
Proof.
  induction l as [|x [|y rest] IH]; intros F; [reflexivity| |].
  - now inversion F.
  - inversion F as [|? ? Hx F']; subst.
    change (join " " (x :: y :: rest))
      with (x ++ String " " (join " " (y :: rest)))%string.
    rewrite lower_app.
    change (lower (String " " (join " " (y :: rest))))
      with (String " " (lower (join " " (y :: rest)))).
    now rewrite Hx, (IH F').
Qed.

Lemma strip_join (c : string) (args : list string) :
  is_word c -> Forall is_word args ->
  strip (join " " (c :: args)) = join " " (c :: args).
Proof.
  intros Wc Wa. unfold strip.
  assert (L : lstrip (join " " (c :: args)) = join " " (c :: args)).
  { destruct (word_first c Wc) as (c0 & r & -> & S0).
    destruct args; simpl; now rewrite S0. }
  rewrite L. now apply rstrip_join.
Qed.

Lemma spaceless_lower (s : string) : spaceless (lower s) = spaceless s.
Proof.
  unfold spaceless. induction s as [|c s IH]; simpl; [reflexivity|].
  now rewrite lower_char_space, IH.
Qed.

Lemma name_is_word (n : string) : validate_name n = true -> is_word n.
Proof.
  unfold validate_name. destruct n as [|c r]; [discriminate|].
  intros H. split; [discriminate|].
  unfold spaceless. revert H. generalize (String c r). clear.
  induction s as [|c s IH]; simpl; [reflexivity|].
  intros H. apply andb_true_iff in H. destruct H as [A H].
  now rewrite (alpha_not_space c A), IH.
Qed.

End Words.

(** X20. A command and arguments that are words without capital letters,
    written on one line with single blanks between them, are what
    [parse_input] returns for that line. *)
Theorem parse_input_of_joined_words (command : string) (args : list string) :
  is_word command -> lower command = command ->
  Forall (fun w => is_word w /\ lower w = w) args ->
  parse_input (join " " (command :: args)) = (command, args).
Proof.
  intros Wc Lc F.
  assert (Wa : Forall is_word args)
    by (eapply Forall_impl; [|exact F]; intros w [H _]; exact H).
  assert (La : Forall (fun w => lower w = w) (command :: args)).
  { constructor; [exact Lc|]. eapply Forall_impl; [|exact F]. intros w [_ H]; exact H. }
  unfold parse_input.
  rewrite (strip_join command args Wc Wa), (lower_join _ La), (split_join args command Wc Wa).
  destruct args; reflexivity.
Qed.

(** X21. A name [validate_name] accepts is read by [parse_input] as one
    word, the name in lower case, with no argument. *)
Theorem parse_input_of_name (n : string) :
  validate_name n = true -> parse_input n = (lower n, []).
Proof.
  intros V. pose proof (name_is_word n V) as W.
  assert (Wl : is_word (lower n)).
  { destruct W as [Nn Sn]. split; [|now rewrite spaceless_lower].
    destruct n; [contradiction|discriminate]. }
  unfold parse_input.
  replace (strip n) with n
    by (symmetry; exact (strip_join n [] W (Forall_nil _))).
  pose proof (split_join [] (lower n) Wl (Forall_nil _)) as S.
  cbn [join] in S. now rewrite S.
Qed.

(** X22. On every [str], of any code points, [validate_phone_number] is
    true exactly for [+] followed by 7 to 15 decimal digits, for [0]
    followed by 6 to 14 decimal digits, and for such a text followed by
    one newline; the digits may be decimal digits of any script.  On a
    text without a newline it is therefore true exactly for the two
    shapes.  An argument [parse_input] returns has no newline, and on it
    the [validate_phone_number] the handlers are modelled with is this
    one. *)
Theorem parsed_phone_is_exact :
  (forall s : PyUnicode.ustr,
      PyUnicode.validate_phone_number s = true <->
      exists t, PyUnicode.is_phone_text t = true /\ (s = t \/ s = t ++ [10%N])) /\
  (forall w : PyUnicode.ustr,
      PyUnicode.no_newline w = true ->
      (PyUnicode.validate_phone_number w = true <-> PyUnicode.is_phone_text w = true)) /\
  (forall (user_input w : string),
      In w (snd (parse_input user_input)) ->
      PyUnicode.no_newline (PyUnicode.codes w) = true /\
      validate_phone_number w = PyUnicode.validate_phone_number (PyUnicode.codes w)).
Proof.
  split; [exact u_validate_phone_number_iff|split].
  - intros w N. rewrite u_validate_phone_number_iff. split.
    + intros (t & T & [->| ->]); [exact T|].
      rewrite no_newline_app in N. apply andb_true_iff in N.
      destruct N as [_ N]. discriminate.
    + intros T. exists w. auto.
  - intros user_input w I.
    pose proof (parse_input_args_words user_input) as F.
    rewrite Forall_forall in F. destruct (F w I) as [_ S].
    split; [now apply spaceless_no_newline|].
    symmetry. apply validate_phone_number_codes.
Qed.

(** ** Asking for the birthdays of the week *)

Section Week.

Variables (fuel : nat) (today : date) (book : AddressBook).

Lemma no_entry_far (days : Z) (records : list ContactRecord) :
  (forall r off, In r records -> offset_at fuel today r = Some off -> days < off) ->
  flat_map (fun r => upcoming_entry today days r (offset_at fuel today r)) records = [].
Proof.
  induction records as [|r l IH]; intros H; [reflexivity|].
  simpl. rewrite IH by (intros r' off I; apply H; now right).
  rewrite app_nil_r. unfold upcoming_entry.
  destruct (offset_at fuel today r) as [off|] eqn:O; [|reflexivity].
  pose proof (H r off (or_introl eq_refl) O).
  destruct (Z.leb_spec off days); [lia|]. now rewrite andb_false_r.
Qed.

Hypothesis today_valid : valid_date today = true.
Hypothesis today_early : year today + 8 <= MAXYEAR.
Hypothesis enough_fuel : (8 < fuel)%nat.
Hypothesis birthdays_exist : forall r, In r (dict_values book) -> birthday_ok r.

Lemma offsets_computed (r : ContactRecord) :
  In r (dict_values book) ->
  Record_days_to_birthday fuel today r = Done (offset_at fuel today r).
Proof.
  intros I. unfold offset_at.
  destruct (days_to_birthday_returns fuel today r today_valid
              (birthdays_exist r I) today_early enough_fuel) as (o & ->).
  reflexivity.
Qed.

Lemma upcoming_birthdays_eq (days : Z) :
  AddressBook_upcoming_birthdays fuel today book days =
  Done (sort_by_date
          (flat_map (fun r => upcoming_entry today days r (offset_at fuel today r))
                    (dict_values book))).
Proof.
  unfold AddressBook_upcoming_birthdays.
  now rewrite (collect_upcoming_eq fuel today days (offset_at fuel today) _ offsets_computed).
Qed.

Lemma offset_nonneg (r : ContactRecord) (off : Z) :
  Record_days_to_birthday fuel today r = Done (Some off) -> 0 <= off.
Proof.
  intros H. apply days_to_birthday_done_inv in H.
  destruct H as (b & y & _ & (_ & Hc & _) & ->).
  apply andb_true_iff in Hc. destruct Hc as [Vc Gc].
  now apply sub_days_nonneg.
Qed.

End Week.

(** X23. For a book whose birthdays are dates that exist, asked up to the
    year 9991, [get_upcoming_birthdays] returns False and prints [Error: No
    upcoming birthdays within the next 7 days.] exactly when no record's
    next birthday is at most 7 days away.  As soon as one record's is, it
    prints nothing and returns the list of [upcoming_birthdays], which
    holds that record's name with the date of that birthday. *)
Theorem get_upcoming_birthdays_answer
    (fuel : nat) (today : date) (book : AddressBook) :
  valid_date today = true -> year today + 8 <= MAXYEAR -> (8 < fuel)%nat ->
  (forall r, In r (dict_values book) -> birthday_ok r) ->
  (get_upcoming_birthdays fuel today book
   = (Done (inr false), ["Error: No upcoming birthdays within the next 7 days."%string])
   <-> forall r off, In r (dict_values book) ->
                     Record_days_to_birthday fuel today r = Done (Some off) -> 7 < off) /\
  (forall r off,
      In r (dict_values book) ->
      Record_days_to_birthday fuel today r = Done (Some off) -> off <= 7 ->
      exists l,
        get_upcoming_birthdays fuel today book = (Done (inl l), []) /\
        AddressBook_upcoming_birthdays fuel today book 7 = Done l /\
        In (name_value (name r), ord2ymd (toordinal today + off)) l).
Proof.
  intros Vt Hy Hf Bok.
  pose proof (upcoming_birthdays_eq fuel today book Vt Hy Hf Bok 7) as E.
  assert (Near : forall r off,
             In r (dict_values book) ->
             Record_days_to_birthday fuel today r = Done (Some off) -> off <= 7 ->
             exists l,
               get_upcoming_birthdays fuel today book = (Done (inl l), []) /\
               AddressBook_upcoming_birthdays fuel today book 7 = Done l /\
               In (name_value (name r), ord2ymd (toordinal today + off)) l).
  { intros r off I D L. pose proof (offset_nonneg fuel today Vt r off D) as P.
    unfold get_upcoming_birthdays. rewrite E.
    set (pre := flat_map (fun r => upcoming_entry today 7 r (offset_at fuel today r))
                         (dict_values book)) in *.
    assert (Ipre : In (name_value (name r), ord2ymd (toordinal today + off)) pre).
    { apply in_flat_map. exists r. split; [exact I|].
      unfold offset_at. rewrite D. unfold upcoming_entry.
      destruct (Z.leb_spec 0 off); [|lia]. destruct (Z.leb_spec off 7); [|lia].
      now left. }
    apply (Permutation_in _ (Permutation_sym (sort_by_date_perm pre))) in Ipre.
    destruct (sort_by_date pre) as [|e l] eqn:S; [contradiction|].
    exists (e :: l). auto. }
  split; [|exact Near]. split.
  - intros R r off I D. destruct (Z_le_gt_dec off 7) as [L|G]; [|lia].
    destruct (Near r off I D L) as (l & R' & _). rewrite R in R'. discriminate.
  - intros Far. unfold get_upcoming_birthdays. rewrite E.
    rewrite (no_entry_far fuel today 7 (dict_values book)); [reflexivity|].
    intros r off I O. apply (Far r off I).
    rewrite (offsets_computed fuel today book Vt Hy Hf Bok r I). now rewrite O.
Qed.

(** ** Further instances *)

Section FurtherInstances.

Local Open Scope string_scope.
Local Open Scope list_scope.
Local Open Scope Z_scope.

Lemma add_phone_appends_witness :
  Record_find_phone (snd (Record_add_phone three_phones "+3333333")) "+2222222"
  = Record_find_phone three_phones "+2222222".
Proof.
  apply (proj2 (proj2 (proj2 (proj2 (proj2
           (add_phone_appends three_phones "+3333333")))))).
  discriminate.
Defined.

Lemma edit_phone_replaces_first_witness :
  exists r',
    Record_edit_phone three_phones "+1111111" "+3333333"
    = ("Phone number is set"%string, r') /\
    List.length (phone_numbers r') = List.length (phone_numbers three_phones) /\
    nth_error (phone_numbers r') 0 = Some "+3333333"%string /\
    (forall j, j <> 0%nat ->
               nth_error (phone_numbers r') j = nth_error (phone_numbers three_phones) j) /\
    name r' = name three_phones /\ birthday r' = birthday three_phones /\
    Record_find_phone r' "+3333333" <> None.
Proof.
  apply (proj2 (edit_phone_replaces_first three_phones "+1111111" "+3333333") 0%nat).
  reflexivity.
Defined.

Lemma remove_phone_removes_first_witness :
  exists r',
    Record_remove_phone three_phones "+1111111" = ("Phone number is deleted"%string, r') /\
    phone_numbers r' =
      firstn 0 (phone_numbers three_phones) ++ skipn 1 (phone_numbers three_phones) /\
    S (List.length (phone_numbers r')) = List.length (phone_numbers three_phones) /\
    S (count_occ string_dec (phone_numbers r') "+1111111")
      = count_occ string_dec (phone_numbers three_phones) "+1111111" /\
    (count_occ string_dec (phone_numbers three_phones) "+1111111" = 1%nat ->
     Record_find_phone r' "+1111111" = None) /\
    name r' = name three_phones /\ birthday r' = birthday three_phones.
Proof.
  apply (proj2 (remove_phone_removes_first three_phones "+1111111") 0%nat).
  reflexivity.
Defined.

Lemma add_then_remove_phone_witness :
  Record_remove_phone (snd (Record_add_phone three_phones "+3333333")) "+3333333"
  = ("Phone number is deleted"%string, three_phones).
Proof.
  apply (add_then_remove_phone three_phones "+3333333").
  simpl. intros [H|[H|[H|[]]]]; discriminate.
Defined.

Lemma delete_removes_record_witness :
  fst (AddressBook_delete sample_book "bob") = "Record deleted"%string /\
  AddressBook_find (snd (AddressBook_delete sample_book "bob")) "bob" = None /\
  (forall k, k <> "bob"%string ->
             AddressBook_find (snd (AddressBook_delete sample_book "bob")) k
             = AddressBook_find sample_book k) /\
  dict_keys (snd (AddressBook_delete sample_book "bob"))
    = filter (fun x => negb (String.eqb x "bob")) (dict_keys sample_book) /\
  S (List.length (snd (AddressBook_delete sample_book "bob"))) = List.length sample_book.
Proof.
  apply (proj2 (delete_removes_record sample_book "bob") (contact "bob" None)).
  - simpl. repeat (constructor; [simpl; intuition discriminate|]). constructor.
  - reflexivity.
Defined.

Lemma add_record_then_delete_witness :
  AddressBook_delete (snd (AddressBook_add_record sample_book (contact "zoe" None))) "zoe"
  = ("Record deleted"%string, sample_book).
Proof.
  apply (add_record_then_delete sample_book (contact "zoe" None)).
  reflexivity.
Defined.

Lemma commands_keep_book_wf_witness :
  book_wf (exec_all [Cmd_add "zoe" "0123456"; Cmd_add_birthday "bob" "29.02.2000";
                     Cmd_change "bob" "+3333333"]
                    [("bob"%string, three_phones)]) /\
  book_wf (exec_all [Cmd_add "zoe" "0123456"; Cmd_add_birthday "bob" "29.02.2000";
                     Cmd_change "bob" "+3333333"] []).
Proof.
  apply commands_keep_book_wf.
  split.
  - simpl. constructor; [intros []|constructor].
  - constructor; [|constructor]. simpl.
    repeat split; try reflexivity.
    + repeat constructor.
    + intros b H. discriminate.
Defined.

Lemma change_contact_replaces_first_witness :
  fst (change_contact "bob" "+3333333" [("bob"%string, three_phones)]) = (Ok true, []) /\
  (exists r',
      AddressBook_find
        (snd (change_contact "bob" "+3333333" [("bob"%string, three_phones)])) "bob"
      = Some r' /\
      phone_numbers r' = "+3333333"%string :: tl (phone_numbers three_phones) /\
      name r' = name three_phones /\ birthday r' = birthday three_phones) /\
  (forall k, k <> "bob"%string ->
             AddressBook_find
               (snd (change_contact "bob" "+3333333" [("bob"%string, three_phones)])) k
             = AddressBook_find [("bob"%string, three_phones)] k) /\
  dict_keys (snd (change_contact "bob" "+3333333" [("bob"%string, three_phones)]))
  = dict_keys [("bob"%string, three_phones)].
Proof.
  apply (proj2 (change_contact_replaces_first "bob" "+3333333"
                  [("bob"%string, three_phones)] eq_refl) three_phones).
  reflexivity.
Defined.

Lemma add_contact_then_find_witness :
  fst (add_contact "bob" "+3333333" [("bob"%string, three_phones)]) = (Ok true, []).
Proof.
  apply (add_contact_then_find "bob" "+3333333" [("bob"%string, three_phones)]).
  - reflexivity.
  - reflexivity.
  - intros r H. injection H as <-. simpl. intros [H|[H|[H|[]]]]; discriminate.
Defined.

Lemma days_to_birthday_zero_on_the_day_witness :
  Record_days_to_birthday 1 june_10 (contact "zoe" (Some (mkdate 1990 6 10)))
  = Done (Some 0) <->
  month june_10 = month (mkdate 1990 6 10) /\ day june_10 = day (mkdate 1990 6 10).
Proof.
  apply (days_to_birthday_zero_on_the_day 0 june_10 (mkdate 1990 6 10)); reflexivity.
Defined.

Lemma days_to_birthday_within_a_year_witness :
  exists off,
    Record_days_to_birthday 2 june_10 (contact "zoe" (Some (mkdate 1990 6 9)))
    = Done (Some off) /\
    0 <= off <= 365.
Proof.
  apply (days_to_birthday_within_a_year 0 june_10 (mkdate 1990 6 9)); reflexivity.
Defined.

Lemma upcoming_birthdays_dates_in_window_witness :
  exists l,
    AddressBook_upcoming_birthdays 2 june_10 sample_book 7 = Done l /\
    (forall n d,
        In (n, d) l ->
        exists r b,
          In r (dict_values sample_book) /\ name_value (name r) = n /\ has_birthday r b /\
          month d = month b /\ day d = day b /\ year june_10 <= year d /\
          valid_date d = true /\ date_geb d june_10 = true /\
          0 <= toordinal d - toordinal june_10 <= 7) /\
    (7 < 0 -> l = []) /\
    (List.length l <= List.length sample_book)%nat.
Proof.
  apply (upcoming_birthdays_dates_in_window 2 june_10 sample_book 7 (offset_at 2 june_10)).
  intros r H; simpl in H.
  repeat (destruct H as [<-|H]; [reflexivity|]). contradiction.
Defined.

Lemma strftime_then_strptime_witness :
  validate_birthday (strftime_dmY (mkdate 2000 2 29)) = true /\
  strptime_dmY (strftime_dmY (mkdate 2000 2 29)) = Ok (mkdate 2000 2 29).
Proof.
  apply (strftime_then_strptime (mkdate 2000 2 29)); [reflexivity|simpl; lia].
Defined.

Lemma strptime_then_strftime_witness :
  strftime_dmY (mkdate 2000 2 29) = "29.02.2000"%string.
Proof.
  apply (strptime_then_strftime "29.02.2000" (mkdate 2000 2 29)).
  - exists "29"%string, "02"%string, "2000"%string. repeat split; reflexivity.
  - reflexivity.
  - simpl; lia.
Defined.

Lemma get_contact_birthday_after_add_witness :
  exists d,
    strptime_dmY "29.02.2000" = Ok d /\
    get_contact_birthday "bob" (snd (add_birthday "bob" "29.02.2000" sample_book))
    = (Ok (inl (strftime_dmY d)), []) /\
    (1000 <= year d -> validate_birthday (strftime_dmY d) = true).
Proof.
  apply (get_contact_birthday_after_add "bob" "29.02.2000" sample_book).
  reflexivity.
Defined.

Lemma parse_input_words_witness :
  snd (parse_input "") = [].
Proof.
  apply (proj2 (proj2 (proj2 (parse_input_words "")))).
  reflexivity.
Defined.

Lemma parse_input_blank_witness :
  fst (parse_input (String " " newline)) = EmptyString.
Proof.
  apply (proj2 (parse_input_blank (String " " newline))).
  reflexivity.
Defined.

Lemma parse_input_of_joined_words_witness :
  parse_input (join " " ["add"; "bob"; "+1111111"]%string)
  = ("add"%string, ["bob"; "+1111111"]%string).
Proof.
  apply (parse_input_of_joined_words "add" ["bob"; "+1111111"]%string).
  - split; [discriminate|reflexivity].
  - reflexivity.
  - repeat constructor; discriminate.
Defined.

Lemma parse_input_of_name_witness :
  parse_input "Zoe" = (lower "Zoe", []).
Proof.
  apply (parse_input_of_name "Zoe"). reflexivity.
Defined.

Lemma parsed_phone_is_exact_witness :
  PyUnicode.validate_phone_number (PyUnicode.codes "+" ++ PyUnicode.arabic_2023
                                     ++ PyUnicode.arabic_2000) = true <->
  PyUnicode.is_phone_text (PyUnicode.codes "+" ++ PyUnicode.arabic_2023
                             ++ PyUnicode.arabic_2000) = true.
Proof.
  apply (proj1 (proj2 parsed_phone_is_exact)).
  reflexivity.
Defined.

Lemma get_upcoming_birthdays_answer_witness :
  exists l,
    get_upcoming_birthdays 9 june_10 sample_book = (Done (inl l), []) /\
    AddressBook_upcoming_birthdays 9 june_10 sample_book 7 = Done l /\
    In (name_value (name (contact "alice" (Some (mkdate 1990 6 14)))),
        ord2ymd (toordinal june_10 + 4)) l.
Proof.
  apply (proj2 (get_upcoming_birthdays_answer 9 june_10 sample_book
                  eq_refl ltac:(simpl; unfold MAXYEAR; lia) ltac:(lia)
                  ltac:(intros r H; simpl in H;
                        repeat (destruct H as [<-|H];
                                [intros b E; simpl in E;
                                 first [discriminate
                                       |injection E as <-; eexists; split; reflexivity]|]);
                        contradiction))).
  - left; reflexivity.
  - reflexivity.
  - lia.
Defined.

End FurtherInstances.
